(* ===== verification/_CoqProject ===== *)
-Q . S2P
Prelude.v
Random.v
Mersenne.v
Polyfit.v
MonteCarlo.v
Loader.v
Matrix.v
NormalEq.v
Report.v
Histogram.v
Std.v
Pyplot.v
Notebook.v
