(* ===== verification/Prelude.v ===== *)
(** * A verification development of [src/Regressions_Notebook.py]
      (Browne et al. 2023, TEX86 regressions, Antarctic Peninsula)

    The program is one Jupyter notebook exported as a Python script: seven
    code cells, run in order, that share the module-level variables
    ([data_df], [x], [y], [unc_y], [a], [b], [model], [BA], [BA_w],
    [model_w], [slopes], [intercepts], [models], the axes handles), numpy's
    global generator and pyplot's figures.  Its parts and how they
    interact:

    - the loader and filter (cell 1, lines 13-25): reads [TEX_data.csv],
      fills the missing [TEX86_stdev] entries with the mean of the present
      ones, removes rows through a double [DataFrame.mask] on [Depth_cmcd]
      and [dropna], takes the columns [x], [y], [unc_y];
    - the deterministic fits (cells 2-3, lines 44, 63-73):
      [np.polyfit(x, y, deg=1)], the normal-equation solution
      [BA = inv(X.T @ X) @ X.T @ y] and the "weighted" solution [BA_w] built
      from [unc = np.diag(1/unc_y)];
    - the Monte Carlo engine (cell 5 defines it, lines 115-134; cell 6
      calls it at line 145): [regress_data], [jiggle_data], [multi_OLS],
      drawing from numpy's global [RandomState] (MT19937);
    - the reporting (cell 7, lines 189-202): histograms of the slopes and
      intercepts ([np.histogram] inside [Axes.hist]) with reference lines
      spanning the autoscaled limits [get_ylim()], and the printed mean and
      standard deviation of the slopes;
    - the figures (cells 2, 4, 6, 7): four matplotlib figures drawn through
      [Axes] handles, labelled and saved through pyplot's global state.

    ** Modelling choices

    - Numbers.  Python and numpy floats are exact rationals [Q] compared
      with [Qeq] ([==]); statements are up to [Qeq].  Rounding is not
      modelled: the theorems describe the real-number meaning of the code.
      The one irrational value, [np.std], is a real ([Std.np_std], the
      square root over [R] of a rational variance).
      A missing value ([NaN]) is [None].
    - Errors.  An exception is a value of [py_error]; a fallible operation
      returns [sum py_error A] (ExtLib's error monad).  A cell is a
      computation of the monad [Notebook.nb], which keeps the effects done
      before an exception (the lines printed before it, the figures drawn).
    - Randomness.  numpy's generator state is threaded explicitly.  The
      interface [Random.BitGenerator] (a 32-bit word per call) is what the
      Monte Carlo theorems assume; [Mersenne] implements it with numpy's
      MT19937 on 32-bit words ([mt19937_seed], [mt19937_gen],
      [mt19937_next]) and [Random] turns two words into a double
      ([mt19937_next_double]) and a double into [uniform], bit for bit.
    - Global state.  The globals are the record [Notebook.globals]; each
      assignment of the code is a setter ([set_ab] for line 44, ...).
      pyplot's state ([Pyplot.pyplot]) keeps the figures, the current
      figure and the written files; a variable bound to an [Axes] is a
      handle into that store, so drawing through it changes what a later
      [savefig] writes.
    - Run All.  [Notebook.nb_step] runs one cell per step and stops at an
      exception; [Notebook.run_all] is its executable form.

    ** Files (in dependency order, as _CoqProject lists them)

    - [Prelude] (this file): [py_error], sums over lists ([qsum], written
      [Σ]), zipped element-wise operations, the closure [star] of a step
      relation, their lemmas, the hint database [tex] and the tactics
      [qsum_simpl], [zip_canon], [map_canon].
    - [Random]: the classes [BitGenerator] / [BitGeneratorLaws],
      [next_double], [uniform]; recorded words ([stream_gen]) as an instance.
    - [Mersenne]: numpy's [mt19937.c] (state of 624 words and a position,
      seeding, the twist in numpy's two loops, tempering), the reference
      recurrence [twist_ref], and the instance [mt_bitgen].
    - [Polyfit]: [polyfit1] = [np.polyfit(x, y, deg=1)] (line 44) with
      numpy's [TypeError]s, its rank-deficient branch and [LinAlgError].
    - [MonteCarlo]: [regress_data], [jiggle_data], [multi_OLS] (lines
      115-134) in [stateT G (sum py_error)]; [multi_OLS_spec], the
      specification of independent samples.
    - [Loader]: rows with [option Q] cells; [load] = lines 16-19;
      [columns] = lines 21-23.
    - [Matrix]: 2-D arrays, [np.c_], [.T], [@] with its shape check,
      [np.diag], [np.linalg.inv] by Gaussian elimination with pivoting.
    - [NormalEq]: [normal_BA] (line 64), [weighted_BA] (lines 69-70),
      [model_w] (line 73); the reference weighted least squares [wls].
    - [Report]: [np_mean], [np_var], the figures as plot data ([errorbar]
      with its checks, [plot], [hist], [vlines], matplotlib's legend
      pairing).
    - [Histogram]: [np_histogram] = [np.histogram(a, 10)] as numpy computes
      it ([outer_edges], [linspace], [bin_index] with its two corrections),
      the reference [hist_ref] by half-open bins, and [mpl_get_ylim],
      matplotlib's autoscaled [get_ylim()] of axes holding histograms.
    - [Std]: [np_std] (the square root over the reals) and [report], the
      pair printed by line 202.
    - [Pyplot]: pyplot's module state: [subplots], handles, [ylabel],
      [xlabel], [set_title], [set_legend], [savefig]; [plt_chain] follows a
      figure through the calls of a cell.
    - [Notebook]: the monad [nb], the seven cells [cell_load] .. [cell_hist]
      composed from the components above, [notebook], [nb_step], [run_all].

    ** The theorems (claim ids in order of importance)

    - Monte Carlo: the loop refines the independent-sample specification
      (C1, by induction on the loop with the generator state written out);
      every perturbed value lies in its window (C2); a run returns exactly
      [iterations] samples (C16) and never raises unless all positions are
      0 (C17); the slopes stay within the weighted perturbation of the fit
      (C8) and collapse to it for zero uncertainties (C26); [uniform] stays
      in its interval (C27).
    - Fits: [polyfit1] minimises the squared residuals (C3), uniquely when
      two positions differ (C21), recovers the line data were generated
      from (C20) and raises exactly in numpy's three cases (C6); line 64
      agrees with it (C7) but raises on a singular design (C25); line 70
      minimises the residuals weighted by [unc_y] itself (C4, with the
      concrete contrast [NormalEq.weighted_BA_weights_example]), raises on
      a zero uncertainty (C22), equals line 64 for uniform uncertainties
      (C23) and returns the exact line on collinear data (C24).
    - Loader: membership in the loaded table (C5, with the examples
      [Loader.load_keeps_window] and [Loader.load_keeps_zero_stdev]) and
      imputed uncertainties (C28).
    - Report and figures: the printed mean and standard deviation are
      bounded by the perturbation (C12); [np.histogram] computes the
      histogram of half-open bins (C13, the fast index with its corrections
      against the definition) and counts every value once (C14); under
      matplotlib's autoscaling the reference lines of the histograms run
      from 0 above every bar (C15) and the dash-dotted ones coincide with
      the dashed ones (C29); figure 3 draws one line per sample, or raises
      [ValueError] on a negative uncertainty (C30).
    - Random source: every state MT19937 reaches is well-formed (C18, by
      rule induction on [mt_reachable]); numpy's two-loop twist is the
      reference recurrence (C19); [Mersenne.np_seed0_first_double] checks
      numpy's first double after [np.random.seed(0)].
    - The whole notebook: Run All completes on regular data with positive
      uncertainties, with the printed lines and the three saved figures
      described exactly (C9); it stops at the first exception with the
      lines printed before it, [errorbar]'s [ValueError] on a negative
      uncertainty included (C11); it keeps [BA] equal to [[b, a]] in every
      reachable state, the comment of line 66 (C10, by rule induction on
      [nb_step]); after [plt.subplots] any sequence of calls leaves the new
      figure current, so [savefig] writes it (C31).  [run_all] is the step
      semantics ([Notebook.run_all_refines], [Notebook.run_all_terminates]).

    Each theorem with hypotheses has a witness, [<name>_witness], which
    applies it to concrete data evaluated by [vm_compute] or [reflexivity].
    The findings: C4 (the weights are [unc_y], not [1/unc_y]), C5 (the
    depth window is not removed, zero uncertainties are kept), C22 (they
    then raise), C11 (a negative uncertainty raises [ValueError] at line
    32, where the spec says it is not validated), C24 (the spec's 8.3 fails
    on collinear data), C29 (figure 4), C6/C25/C11 (singular designs), C2
    (a negative uncertainty is a window, not a point mass), C9 (the x axis
    is labelled 'Year CE' over depths); and, without a claim, the swapped
    legend of figure 1 ([Report.figure1_legend_swapped]), [ddof=0]
    ([Report.np_var_ddof]) and the spec's scenario intercept
    ([Polyfit.polyfit1_spec_scenario]).

    ** Bounds and fuel

    No fuel is used: [jiggle_loop], [reciprocals], [plot_models],
    [plot_all_models] recurse on a list, [multi_OLS_loop] on
    [Z.to_nat iterations] ([range] of a negative count is empty),
    [inv_rows] on the matrix size, MT19937's loops ([for_loop]) on their
    counts 227, 396 and 624, [run_from] on the list of cells, and
    [np_histogram] counts over [seq 0 bins].  The histogram theorems hold
    for every [bins >= 1]; the notebook uses matplotlib's default 10.  Integers
    are kept at their width where the code has one: MT19937's 32-bit words
    ([u32] is the [uint32_t] wrap-around) and the 53-bit lattice of
    [next_double].

    ** What is not modelled
    - CSV reading ([pd.read_csv]): the table is the input of the run.
    - Rendering and the SVG encoding, markers, sizes and colours of edges.
      [get_ylim] is a parameter of [Notebook]; [Histogram.mpl_get_ylim]
      models it for axes holding histograms only (the axes lines 191 and
      196 query), on a non-empty array (an empty one takes matplotlib's
      [nonsingular] expansion, not modelled; the notebook's arrays have
      1000 entries).
    - The text layout of [print]: a printed line is the list of its
      arguments ([Notebook.pyval]).
    - numpy's OS-entropy seeding of the unseeded global generator: a run
      starts from any generator state ([Notebook.nb_init]).
    - Floating-point rounding (see Numbers above).
    - The generator state after an exception inside [multi_OLS]: the error
      monad drops it ([Notebook.np_random] keeps the state before the
      call); the run stops there and no later cell reads it.
    - pandas copy-on-write: [fillna(inplace=True)] on a column is modelled
      as filling the table, the pandas 1.x/2.x behaviour. *)


From Stdlib Require Import QArith Qabs Lqa List Lia ZArith Setoid Morphisms.
Import ListNotations.

Declare Scope tex_scope.
Delimit Scope tex_scope with tex.
Open Scope Q_scope.

(** ** Exceptions raised by the modelled code *)

(** The exceptions numpy raises on the paths the notebook exercises. *)
Inductive py_error :=
| LinAlgError          (** [numpy.linalg.LinAlgError]: singular matrix *)
| TypeError_empty      (** [polyfit]: "expected non-empty vector for x" *)
| TypeError_length     (** [polyfit]: "expected x and y to have same length" *)
| ValueError_shape     (** [@]/[matmul]: operands with mismatched shapes *)
| ValueError_size      (** [errorbar]: "'x' and 'y' must have the same size", or a [yerr] of another shape *)
| ValueError_negative  (** [errorbar]: "'yerr' must not contain negative values" *)
| ZeroDivisionError    (** Python [1/val] with [val == 0] *)
| IndexError.          (** [models[ind]] past the end of a list *)

(** A computation that returns an [A] or raises. *)
Abbreviation result A := (sum py_error A).

(** ** Sums, as [np.sum] / [Series.sum] compute them in exact arithmetic *)

Definition qsum (l : list Q) : Q := fold_right Qplus 0 l.

Notation "'Σ' l" := (qsum l) (at level 35, l at level 35) : tex_scope.
Open Scope tex_scope.

(** Element-wise binary operation on two sequences, truncating to the shorter
    one as Python's [zip] does. *)
Definition zip_with {A B C} (f : A -> B -> C) (l1 : list A) (l2 : list B) : list C :=
  map (fun p => f (fst p) (snd p)) (combine l1 l2).

(** [sum(u*v)] of two aligned series. *)
Definition dot (u v : list Q) : Q := Σ (zip_with Qmult u v).

(** Element-wise [Qeq] on sequences of numbers. *)
Definition qlist_eq : list Q -> list Q -> Prop := Forall2 Qeq.

Create HintDb tex discriminated.
Create Rewrite HintDb tex.

(** ** Generic lemmas on sums *)

Lemma Qsq_nonneg (a : Q) : 0 <= a * a.
Proof. destruct a as [n d]. unfold Qle, Qmult; simpl. nia. Qed.

#[export] Hint Resolve Qsq_nonneg : tex.

Lemma Qeq_bool_false (a b : Q) : ~ a == b -> Qeq_bool a b = false.
Proof.
  intros H. destruct (Qeq_bool a b) eqn:E; [|reflexivity].
  apply Qeq_bool_eq in E. contradiction.
Qed.

Lemma qsum_nil : Σ [] == 0.
Proof. reflexivity. Qed.

Lemma qsum_cons x l : Σ (x :: l) == x + Σ l.
Proof. reflexivity. Qed.

Lemma qsum_app l1 l2 : Σ (l1 ++ l2) == Σ l1 + Σ l2.
Proof.
  induction l1 as [|x l1 IH]; simpl; [ring|].
  unfold qsum in *; simpl. rewrite IH. ring.
Qed.

Section SumsOverMaps.
Context {A : Type}.
Implicit Types (f g : A -> Q) (l : list A).

Lemma qsum_map_plus f g l :
  Σ (map (fun i => f i + g i) l) == Σ (map f l) + Σ (map g l).
Proof. induction l as [|i l IH]; simpl; [ring|]. unfold qsum in *; rewrite IH; ring. Qed.

Lemma qsum_map_minus f g l :
  Σ (map (fun i => f i - g i) l) == Σ (map f l) - Σ (map g l).
Proof. induction l as [|i l IH]; simpl; [ring|]. unfold qsum in *; rewrite IH; ring. Qed.

Lemma qsum_map_scal c f l :
  Σ (map (fun i => c * f i) l) == c * Σ (map f l).
Proof. induction l as [|i l IH]; simpl; [ring|]. unfold qsum in *; rewrite IH; ring. Qed.

Lemma qsum_map_const c l :
  Σ (map (fun _ => c) l) == inject_Z (Z.of_nat (length l)) * c.
Proof.
  induction l as [|i l IH]; [simpl; ring|].
  change (c + Σ (map (fun _ => c) l) == inject_Z (Z.of_nat (S (length l))) * c).
  rewrite IH, Nat2Z.inj_succ, <- Z.add_1_l, inject_Z_plus. ring.
Qed.

Lemma qsum_map_ext f g l :
  (forall i, In i l -> f i == g i) -> Σ (map f l) == Σ (map g l).
Proof.
  induction l as [|i l IH]; intros H; simpl; [reflexivity|].
  unfold qsum in *; simpl. rewrite (H i (or_introl eq_refl)), IH; [reflexivity|].
  intros j Hj; apply H; right; exact Hj.
Qed.

Lemma qsum_map_le f g l :
  (forall i, In i l -> f i <= g i) -> Σ (map f l) <= Σ (map g l).
Proof.
  induction l as [|i l IH]; intros H; simpl; [apply Qle_refl|].
  unfold qsum in *; simpl.
  apply Qplus_le_compat; [apply H; left; reflexivity|].
  apply IH; intros j Hj; apply H; right; exact Hj.
Qed.

Lemma qsum_map_nonneg f l :
  (forall i, In i l -> 0 <= f i) -> 0 <= Σ (map f l).
Proof.
  intros H. apply Qle_trans with (Σ (map (fun _ => 0) l)).
  - rewrite qsum_map_const. setoid_replace (inject_Z (Z.of_nat (length l)) * 0) with 0 by ring.
    apply Qle_refl.
  - apply qsum_map_le. exact H.
Qed.

Lemma qsum_map_abs f l :
  Qabs (Σ (map f l)) <= Σ (map (fun i => Qabs (f i)) l).
Proof.
  induction l as [|i l IH]; simpl; [apply Qle_refl|].
  unfold qsum in *; simpl.
  eapply Qle_trans; [apply Qabs_triangle|].
  apply Qplus_le_compat; [apply Qle_refl|exact IH].
Qed.

(** A sum of non-negative terms is zero only when every term is. *)
Lemma qsum_map_nonneg_zero f l :
  (forall i, In i l -> 0 <= f i) -> Σ (map f l) == 0 -> forall i, In i l -> f i == 0.
Proof.
  induction l as [|j l IH]; intros Hpos Hz i Hi; [destruct Hi|].
  unfold qsum in *; simpl in Hz.
  assert (Hj : 0 <= f j) by (apply Hpos; left; reflexivity).
  assert (Hl : 0 <= Σ (map f l))
    by (apply qsum_map_nonneg; intros k Hk; apply Hpos; right; exact Hk).
  unfold qsum in Hl.
  destruct Hi as [<-|Hi]; [lra|].
  apply IH; [intros k Hk; apply Hpos; right; exact Hk| |exact Hi]. lra.
Qed.
End SumsOverMaps.

#[export] Hint Rewrite @qsum_map_plus @qsum_map_minus @qsum_map_scal @qsum_map_const : tex.

(** [qsum_simpl] splits sums of sums and pulls constant factors out. *)
Ltac qsum_simpl := autorewrite with tex.

(** ** [Qeq] as the equality of the development *)

#[export] Instance qsum_Proper : Proper (qlist_eq ==> Qeq) qsum.
Proof.
  intros l1 l2 H. induction H as [|x y l1 l2 Hxy _ IH]; [reflexivity|].
  unfold qsum in *; simpl. rewrite Hxy, IH. reflexivity.
Qed.

#[export] Instance qlist_eq_Equivalence : Equivalence qlist_eq.
Proof.
  split.
  - intros l; induction l; constructor; [reflexivity|assumption].
  - intros l1 l2 H; induction H; constructor; [symmetry|]; assumption.
  - intros l1 l2 l3 H; revert l3; induction H as [|x y l1 l2 Hxy _ IH];
      intros l3 H3; inversion H3; subst; constructor; [rewrite Hxy|apply IH]; assumption.
Qed.

(** ** Generic lemmas on zipped sequences *)

Lemma length_zip_with {A B C} (f : A -> B -> C) l1 l2 :
  length (zip_with f l1 l2) = Nat.min (length l1) (length l2).
Proof. unfold zip_with. rewrite length_map, length_combine. reflexivity. Qed.

Lemma zip_with_cons {A B C} (f : A -> B -> C) a l1 b l2 :
  zip_with f (a :: l1) (b :: l2) = f a b :: zip_with f l1 l2.
Proof. reflexivity. Qed.

Lemma nth_error_zip_with {A B C} (f : A -> B -> C) l1 l2 k a b :
  nth_error l1 k = Some a -> nth_error l2 k = Some b ->
  nth_error (zip_with f l1 l2) k = Some (f a b).
Proof.
  revert l1 l2; induction k as [|k IH]; intros [|a' l1] [|b' l2] H1 H2;
    simpl in *; try discriminate.
  - injection H1 as ->; injection H2 as ->; reflexivity.
  - apply IH; assumption.
Qed.

(** The [i]-th entry of [map f (seq 0 m)], whatever the default. *)
Lemma nth_map_seq {A} (f : nat -> A) (m i : nat) (d : A) :
  (i < m)%nat -> nth i (map f (seq 0 m)) d = f i.
Proof.
  intros H. rewrite (nth_indep _ d (f 0%nat)) by (rewrite length_map, length_seq; exact H).
  rewrite map_nth, seq_nth by exact H. reflexivity.
Qed.

#[export] Hint Rewrite @length_zip_with length_map length_combine : tex.

(** ** Lengths, dot products and quadratic sums over aligned series *)

(** [len(l)] as a number. *)
Definition qlen {A} (l : list A) : Q := inject_Z (Z.of_nat (length l)).

Lemma qlen_cons {A} (a : A) l : qlen (a :: l) == 1 + qlen l.
Proof.
  unfold qlen. change (length (a :: l)) with (S (length l)).
  rewrite Nat2Z.inj_succ, <- Z.add_1_l, inject_Z_plus. reflexivity.
Qed.

Lemma qlen_pos {A} (l : list A) : l <> [] -> 0 < qlen l.
Proof.
  intros H. unfold qlen. destruct l as [|a l]; [congruence|].
  unfold Qlt; simpl. lia.
Qed.

Lemma qlen_nonneg {A} (l : list A) : 0 <= qlen l.
Proof. unfold qlen, Qle; simpl. lia. Qed.

Lemma dot_cons a u b v : dot (a :: u) (b :: v) == a * b + dot u v.
Proof. reflexivity. Qed.

Lemma map_fst_combine {A B} (l1 : list A) (l2 : list B) :
  length l1 = length l2 -> map fst (combine l1 l2) = l1.
Proof.
  revert l2; induction l1 as [|a l1 IH]; intros [|b l2] H; simpl in *;
    try discriminate; [reflexivity|]. f_equal. apply IH. lia.
Qed.

Lemma map_snd_combine {A B} (l1 : list A) (l2 : list B) :
  length l1 = length l2 -> map snd (combine l1 l2) = l2.
Proof.
  revert l2; induction l1 as [|a l1 IH]; intros [|b l2] H; simpl in *;
    try discriminate; [reflexivity|]. f_equal. apply IH. lia.
Qed.

Lemma zip_with_diag {A C} (f : A -> A -> C) l :
  zip_with f l l = map (fun a => f a a) l.
Proof. induction l as [|a l IH]; simpl; [reflexivity|]. rewrite <- IH. reflexivity. Qed.

Lemma map_zip_with {A B C D} (f : C -> D) (g : A -> B -> C) l1 l2 :
  map f (zip_with g l1 l2) = zip_with (fun a b => f (g a b)) l1 l2.
Proof. unfold zip_with. rewrite map_map. reflexivity. Qed.

Lemma qsum_zip_ext {A B} (f g : A -> B -> Q) l1 l2 :
  (forall a b, f a b == g a b) -> Σ (zip_with f l1 l2) == Σ (zip_with g l1 l2).
Proof.
  intros H. unfold zip_with. apply qsum_map_ext. intros [a b] _. apply H.
Qed.

Lemma qsum_map_ext_all {A} (f g : A -> Q) l :
  (forall a, f a == g a) -> Σ (map f l) == Σ (map g l).
Proof. intros H. apply qsum_map_ext. intros a _. apply H. Qed.

(** Every sum of a quadratic polynomial of the positions reduces to [dot x x],
    [Σ x] and [len x]. *)
Lemma qsum_quadratic (x : list Q) (A B C : Q) :
  Σ (map (fun xi => A * (xi * xi) + B * xi + C) x) == A * dot x x + B * Σ x + C * qlen x.
Proof.
  induction x as [|xi x IH]; [unfold qlen, dot; simpl; ring|].
  change (Σ (map (fun xi => A * (xi * xi) + B * xi + C) (xi :: x)))
    with (A * (xi * xi) + B * xi + C + Σ (map (fun xi => A * (xi * xi) + B * xi + C) x)).
  rewrite IH, dot_cons, qlen_cons, qsum_cons. ring.
Qed.

(** The same for a quadratic polynomial of aligned pairs [(x_i, y_i)]. *)
Lemma qsum_zip_quadratic (x y : list Q) (A B C D E F : Q) :
  length x = length y ->
  Σ (zip_with (fun xi yi => A * (xi * xi) + B * (xi * yi) + C * (yi * yi)
                            + D * xi + E * yi + F) x y)
  == A * dot x x + B * dot x y + C * dot y y + D * Σ x + E * Σ y + F * qlen x.
Proof.
  revert y; induction x as [|xi x IH]; intros [|yi y] Hl; simpl in Hl; try discriminate.
  - unfold qlen, dot; simpl; ring.
  - rewrite zip_with_cons, qsum_cons, IH by lia.
    rewrite !dot_cons, !qsum_cons, qlen_cons. ring.
Qed.

(** [zip_canon A B C D E F] rewrites the first sum over [zip_with] in the goal
    into its normal form [A*Σx² + B*Σxy + C*Σy² + D*Σx + E*Σy + F*n]; the
    pointwise identity is closed by [ring] (or by [field] with the non-zero
    denominators found in the context) and the equal lengths by
    [assumption]. *)
Ltac zip_canon A B C D E F :=
  rewrite (qsum_zip_ext _ (fun xi yi => A * (xi * xi) + B * (xi * yi) + C * (yi * yi)
                                        + D * xi + E * yi + F))
    by (intros; first [ring | field; auto]);
  rewrite qsum_zip_quadratic by assumption.

(** [map_canon A B C] does the same for a sum over [map] of one series. *)
Ltac map_canon A B C :=
  rewrite (qsum_map_ext_all _ (fun xi => A * (xi * xi) + B * xi + C)) by (intros; ring);
  rewrite qsum_quadratic.

(** ** Transition systems *)

(** The reflexive-transitive closure of a step relation, used for the
    semantics of the notebook's cells ([Notebook.nb_step]). *)
Inductive star {A} (R : A -> A -> Prop) : A -> A -> Prop :=
| star_refl a : star R a a
| star_step a b c : R a b -> star R b c -> star R a c.

#[export] Hint Constructors star : tex.

Lemma star_one {A} (R : A -> A -> Prop) a b : R a b -> star R a b.
Proof. eauto with tex. Qed.

Lemma star_trans {A} (R : A -> A -> Prop) a b c : star R a b -> star R b c -> star R a c.
Proof. induction 1; eauto with tex. Qed.

(** An invariant of the steps holds in every state reachable from a state
    where it holds. *)
Lemma star_ind_inv {A} (R : A -> A -> Prop) (P : A -> Prop) :
  (forall a b, P a -> R a b -> P b) -> forall a b, star R a b -> P a -> P b.
Proof. intros HR a b Hs. induction Hs; eauto. Qed.
