(* ===== verification/Random.v ===== *)
(** * Random: numpy's [np.random.uniform] over an abstract bit generator

    [jiggle_data] (src/Regressions_Notebook.py, line 120) calls
    [np.random.uniform(val-unc, val+unc)] on numpy's global [RandomState].
    numpy computes it as (numpy/random/_legacy, distributions.c, mt19937.h):
<<
      range = high - low                       (RandomState.uniform)
      random_uniform(state, low, range) = low + range * next_double(state)
      mt19937_next_double(state):
        int32_t a = mt19937_next(state) >> 5, b = mt19937_next(state) >> 6;
        return (a * 67108864.0 + b) / 9007199254740992.0;
>>
    The Mersenne-Twister word source [mt19937_next] is the interface
    [BitGenerator]; [next_double] and [uniform] are modelled from the lines
    above, with the generator state passed explicitly. *)

From Stdlib Require Import QArith Qabs Lqa List Lia ZArith.
From S2P Require Import Prelude.
Import ListNotations.
Open Scope Q_scope.

(** ** The word source and its contract *)

(** One call of [mt19937_next]: a 32-bit word and the next state. *)
Class BitGenerator (G : Type) := next32 : G -> Z * G.

(** What every generator promises: its words are unsigned 32-bit values. *)
Class BitGeneratorLaws (G : Type) `{BitGenerator G} :=
  next32_range : forall g, (0 <= fst (next32 g) < 2 ^ 32)%Z.

Section Uniform.
Context {G : Type} `{BitGenerator G}.

(** [mt19937_next_double]: 27 high bits of the first word and 26 of the
    second form a 53-bit integer, divided by [2^53]. *)
Definition next_double (g : G) : Q * G :=
  let (w1, g1) := next32 g in
  let (w2, g2) := next32 g1 in
  let a := Z.shiftr w1 5 in
  let b := Z.shiftr w2 6 in
  (inject_Z (a * 67108864 + b) / inject_Z 9007199254740992, g2).

(** [RandomState.uniform(low, high)] for scalar arguments. *)
Definition uniform (low high : Q) (g : G) : Q * G :=
  let range := high - low in
  let (u, g') := next_double g in
  (low + range * u, g').

(** The state after [k] draws of [next_double] (each takes two words). *)
Fixpoint advance (k : nat) (g : G) : G :=
  match k with
  | O => g
  | S k' => advance k' (snd (next_double g))
  end.
End Uniform.

(** ** A concrete generator: a finite stream of recorded words

    It replays a list of words (reduced modulo [2^32]) and yields [0] once
    the list is exhausted; it is the generator of the concrete runs. *)
Definition stream_gen := list Z.

#[export] Instance stream_bitgen : BitGenerator stream_gen :=
  fun ws => match ws with
            | [] => (0%Z, [])
            | w :: ws' => (Z.modulo w (2 ^ 32), ws')
            end.

#[export] Instance stream_bitgen_laws : BitGeneratorLaws stream_gen.
Proof.
  intros [|w ws]; simpl; [lia|].
  apply Z.mod_pos_bound; lia.
Qed.

(** ** Lemmas *)

Lemma inject_Z_div_pos (k n : Z) :
  (0 < n)%Z -> inject_Z k / inject_Z n == k # Z.to_pos n.
Proof.
  intros Hn. destruct n as [|p|p]; try lia.
  unfold Qdiv, Qeq, Qmult, Qinv; simpl. ring.
Qed.

(** The shifted words fit in 27 and 26 bits. *)
Lemma shiftr_word_range (w : Z) (s : Z) :
  (0 <= s <= 32)%Z -> (0 <= w < 2 ^ 32)%Z -> (0 <= Z.shiftr w s < 2 ^ (32 - s))%Z.
Proof.
  intros Hs Hw. rewrite Z.shiftr_div_pow2 by lia.
  assert (Hp : (0 < 2 ^ s)%Z) by (apply Z.pow_pos_nonneg; lia).
  split; [apply Z.div_pos; lia|].
  apply Z.div_lt_upper_bound; [lia|].
  rewrite <- Z.pow_add_r by lia. replace (s + (32 - s))%Z with 32%Z by lia. lia.
Qed.

Section UniformLemmas.
Context {G : Type} `{BitGeneratorLaws G}.

(** Every double [next_double] returns is [k / 2^53] for an integer
    [0 <= k < 2^53]: it lies in [[0, 1)] on the 53-bit lattice. *)
Lemma next_double_lattice (g : G) :
  exists k, (0 <= k < 2 ^ 53)%Z /\ fst (next_double g) == k # Z.to_pos (2 ^ 53).
Proof.
  unfold next_double.
  pose proof (next32_range g) as R1.
  destruct (next32 g) as [w1 g1]; simpl in R1.
  pose proof (next32_range g1) as R2.
  destruct (next32 g1) as [w2 g2]; simpl in R2 |- *.
  pose proof (shiftr_word_range w1 5 ltac:(lia) R1) as A.
  pose proof (shiftr_word_range w2 6 ltac:(lia) R2) as B.
  exists (Z.shiftr w1 5 * 67108864 + Z.shiftr w2 6)%Z. split.
  - simpl in A, B. lia.
  - apply inject_Z_div_pos. lia.
Qed.
End UniformLemmas.

Section UniformBounds.
Context {G : Type} `{BitGeneratorLaws G}.

Lemma next_double_unit (g : G) :
  0 <= fst (next_double g) /\ fst (next_double g) < 1.
Proof.
  destruct (next_double_lattice g) as [k [Hk ->]].
  unfold Qle, Qlt; simpl. lia.
Qed.

(** [low + (high - low) * u] for [u] in [[0, 1)]. *)
Lemma affine_unit_bounds (low high u : Q) :
  0 <= u < 1 ->
  let v := low + (high - low) * u in
  (low <= high -> low <= v /\ v <= high) /\
  (low < high -> v < high) /\
  (high < low -> high < v /\ v <= low).
Proof. intros [U0 U1]. cbv zeta. repeat split; intros; nra. Qed.

Lemma uniform_value (low high : Q) (g : G) :
  fst (uniform low high g) = low + (high - low) * fst (next_double g).
Proof. unfold uniform. destruct (next_double g); reflexivity. Qed.

(** C27: the value drawn by [uniform low high] lies in the half-open
    interval [[low, high)] when [low < high], equals [low] when
    [low == high], and lies in [(high, low]] when the bounds are reversed. *)
Lemma uniform_bounds (low high : Q) (g : G) :
  let v := fst (uniform low high g) in
  (low <= high -> low <= v /\ v <= high) /\
  (low < high -> v < high) /\
  (high < low -> high < v /\ v <= low).
Proof.
  cbv zeta. rewrite uniform_value. exact (affine_unit_bounds low high _ (next_double_unit g)).
Qed.
End UniformBounds.

Section AdvanceLemmas.
Context {G : Type} `{BitGenerator G}.

Lemma uniform_state (low high : Q) (g : G) :
  snd (uniform low high g) = snd (next_double g).
Proof. unfold uniform. destruct (next_double g); reflexivity. Qed.

Lemma advance_add (a b : nat) (g : G) : advance (a + b) g = advance b (advance a g).
Proof. revert g; induction a as [|a IH]; intros g; simpl; [reflexivity|apply IH]. Qed.

Lemma advance_succ (a : nat) (g : G) : advance (S a) g = advance a (snd (next_double g)).
Proof. reflexivity. Qed.
End AdvanceLemmas.

(** ** Concrete draws *)

Lemma uniform_bounds_witness :
  let v := fst (uniform 1 2 ([4294967295; 4294967295]%Z : stream_gen)) in
  (1 <= 2 -> 1 <= v /\ v <= 2) /\ (1 < 2 -> v < 2) /\ (2 < 1 -> 2 < v /\ v <= 1).
Proof. exact (uniform_bounds 1 2 ([4294967295; 4294967295]%Z : stream_gen)). Defined.

