(* ===== verification/Mersenne.v ===== *)
(** * Mersenne: numpy's MT19937, the word source behind [np.random.uniform]

    [jiggle_data] (src/Regressions_Notebook.py, line 120) draws from
    numpy's global [RandomState], whose bit generator is MT19937
    (numpy/random/src/mt19937/mt19937.c):
<<
      #define N 624
      #define M 397
      void mt19937_seed(mt19937_state *state, uint32_t seed) {
        seed &= 0xffffffffUL;
        for (pos = 0; pos < RK_STATE_LEN; pos++) {
          state->key[pos] = seed;
          seed = (1812433253UL * (seed ^ (seed >> 30)) + pos + 1) & 0xffffffffUL;
        }
        state->pos = RK_STATE_LEN; ... }
      void mt19937_gen(mt19937_state *state) {
        for (i = 0; i < N - M; i++) {
          y = (state->key[i] & UPPER_MASK) | (state->key[i + 1] & LOWER_MASK);
          state->key[i] = state->key[i + M] ^ (y >> 1) ^ (-(y & 1) & MATRIX_A); }
        for (; i < N - 1; i++) {
          y = (state->key[i] & UPPER_MASK) | (state->key[i + 1] & LOWER_MASK);
          state->key[i] = state->key[i + (M - N)] ^ (y >> 1) ^ (-(y & 1) & MATRIX_A); }
        y = (state->key[N - 1] & UPPER_MASK) | (state->key[0] & LOWER_MASK);
        state->key[N - 1] = state->key[M - 1] ^ (y >> 1) ^ (-(y & 1) & MATRIX_A);
        state->pos = 0; }
      static inline uint32_t mt19937_next(mt19937_state *state) {
        if (state->pos == RK_STATE_LEN) mt19937_gen(state);
        y = state->key[state->pos++];
        y ^= (y >> 11); y ^= (y << 7) & 0x9d2c5680UL;
        y ^= (y << 15) & 0xefc60000UL; y ^= (y >> 18);
        return y; }
>>
    The state is a record of the 624 words and the position; [uint32_t]
    values are [Z] in [[0, 2^32)], the wrap-around of the C arithmetic
    written out with [mod 2^32].  The key is updated in place, so a later
    iteration of [mt19937_gen] reads the words the earlier ones wrote: the
    model threads the key through the loop and writes with [set_nth].

    The theorems: the three loops of [mt19937_gen] compute the uniform
    recurrence of MT19937 ([mt_gen_uniform], an equivalence with the
    reference [twist_ref]); every state reachable from a seed is
    well-formed ([mt_wf]: 624 words of 32 bits and a position at most
    624), and [mt19937_next] keeps it so; hence the generator is an
    instance of [Random.BitGeneratorLaws] and every theorem proved for an
    abstract generator holds for numpy's.  The seeding of
    [np.random.seed(0)] followed by one draw gives numpy's well-known
    [0.5488135039273248]. *)

From Stdlib Require Import QArith ZArith List Lia Btauto.
From S2P Require Import Prelude Random.
Import ListNotations.
Open Scope Z_scope.

(** ** Constants and the state *)

Definition N : nat := 624.
Definition M : nat := 397.
Definition MATRIX_A : Z := 2567483615.     (** [0x9908b0df] *)
Definition UPPER_MASK : Z := 2147483648.   (** [0x80000000] *)
Definition LOWER_MASK : Z := 2147483647.   (** [0x7fffffff] *)

Record mt_state := mk_mt { key : list Z; pos : nat }.

(** [x & 0xffffffffUL]: the wrap-around of [uint32_t] arithmetic. *)
Definition u32 (z : Z) : Z := z mod 2 ^ 32.

(** [key[i] = v], in place. *)
Fixpoint set_nth (l : list Z) (i : nat) (v : Z) : list Z :=
  match l, i with
  | [], _ => []
  | _ :: t, O => v :: t
  | h :: t, S i' => h :: set_nth t i' v
  end.

(** ** Seeding *)

Fixpoint seed_words (k p : nat) (seed : Z) : list Z :=
  match k with
  | O => []
  | S k' => seed :: seed_words k' (S p)
                      (u32 (1812433253 * Z.lxor seed (Z.shiftr seed 30) + Z.of_nat p + 1))
  end.

(** [mt19937_seed(state, seed)] *)
Definition mt19937_seed (seed : Z) : mt_state :=
  mk_mt (seed_words N 0 (Z.land seed 4294967295)) N.

(** ** The twist *)

(** [-(y & 1) & MATRIX_A], the negation taken in [uint32_t]. *)
Definition mag01 (y : Z) : Z := Z.land (u32 (- Z.land y 1)) MATRIX_A.

(** The body of the three loops: [key[i] = key[k] ^ (y >> 1) ^ mag01(y)]
    with [y = (key[i] & UPPER_MASK) | (key[j] & LOWER_MASK)]. *)
Definition twist_at (key : list Z) (i j k : nat) : list Z :=
  let y := Z.lor (Z.land (nth i key 0) UPPER_MASK) (Z.land (nth j key 0) LOWER_MASK) in
  set_nth key i (Z.lxor (Z.lxor (nth k key 0) (Z.shiftr y 1)) (mag01 y)).

(** [for (i = i0; i < i0 + n; i++) body(i)] over the key. *)
Fixpoint for_loop (n i : nat) (body : nat -> list Z -> list Z) (key : list Z) : list Z :=
  match n with
  | O => key
  | S n' => for_loop n' (S i) body (body i key)
  end.

(** [mt19937_gen]: the two loops and the last word, as numpy writes them. *)
Definition mt19937_gen (key : list Z) : list Z :=
  let key1 := for_loop (N - M) 0 (fun i k => twist_at k i (S i) (i + M)) key in
  let key2 := for_loop (M - 1) (N - M) (fun i k => twist_at k i (S i) (i + M - N)) key1 in
  twist_at key2 (N - 1) 0 (M - 1).

(** The reference recurrence of MT19937 (Matsumoto and Nishimura): one
    loop over all [N] words, indices taken modulo [N]. *)
Definition twist_ref (key : list Z) : list Z :=
  for_loop N 0 (fun i k => twist_at k i ((S i) mod N) ((i + M) mod N)) key.

(** ** Tempering and the next word *)

Definition temper (y : Z) : Z :=
  let y := Z.lxor y (Z.shiftr y 11) in
  let y := Z.lxor y (Z.land (u32 (Z.shiftl y 7)) 2636928640) in    (** [0x9d2c5680] *)
  let y := Z.lxor y (Z.land (u32 (Z.shiftl y 15)) 4022730752) in   (** [0xefc60000] *)
  Z.lxor y (Z.shiftr y 18).

(** [mt19937_next] *)
Definition mt19937_next (s : mt_state) : Z * mt_state :=
  let s := if Nat.eqb (pos s) N then mk_mt (mt19937_gen (key s)) 0 else s in
  (temper (nth (pos s) (key s) 0), mk_mt (key s) (S (pos s))).

(** The well-formed states: 624 words of 32 bits and a position at most 624. *)
Definition word32 (w : Z) : Prop := 0 <= w < 2 ^ 32.

Definition mt_wf (s : mt_state) : Prop :=
  length (key s) = N /\ (pos s <= N)%nat /\ Forall word32 (key s).

(** ** Words of 32 bits *)

Lemma word32_iff (w : Z) : word32 w <-> Z.land w (Z.ones 32) = w.
Proof.
  unfold word32. rewrite Z.land_ones by lia. split.
  - intros Hw. apply Z.mod_small. exact Hw.
  - intros E. rewrite <- E. apply Z.mod_pos_bound. lia.
Qed.

Lemma land_lxor_distr (a b c : Z) : Z.land (Z.lxor a b) c = Z.lxor (Z.land a c) (Z.land b c).
Proof.
  apply Z.bits_inj'. intros i _. rewrite Z.land_spec, !Z.lxor_spec, !Z.land_spec. btauto.
Qed.

Lemma word32_lxor (a b : Z) : word32 a -> word32 b -> word32 (Z.lxor a b).
Proof. rewrite !word32_iff. intros Ha Hb. rewrite land_lxor_distr, Ha, Hb. reflexivity. Qed.

Lemma word32_lor (a b : Z) : word32 a -> word32 b -> word32 (Z.lor a b).
Proof. rewrite !word32_iff. intros Ha Hb. rewrite Z.land_lor_distr_l, Ha, Hb. reflexivity. Qed.

Lemma word32_land (a m : Z) : word32 m -> word32 (Z.land a m).
Proof. rewrite !word32_iff. intros Hm. rewrite <- Z.land_assoc, Hm. reflexivity. Qed.

Lemma word32_shiftr (a k : Z) : 0 <= k -> word32 a -> word32 (Z.shiftr a k).
Proof.
  unfold word32. intros Hk Ha. rewrite Z.shiftr_div_pow2 by exact Hk.
  assert (0 < 2 ^ k) by (apply Z.pow_pos_nonneg; lia).
  split; [apply Z.div_pos; lia|]. apply Z.le_lt_trans with a; [|lia].
  apply Z.div_le_upper_bound; [lia|]. nia.
Qed.

Lemma word32_u32 (z : Z) : word32 (u32 z).
Proof. apply Z.mod_pos_bound. lia. Qed.

Lemma word32_nth (l : list Z) (i : nat) : Forall word32 l -> word32 (nth i l 0).
Proof.
  intros Hl. destruct (Nat.lt_ge_cases i (length l)) as [Hi|Hi].
  - exact (proj1 (Forall_forall _ _) Hl _ (nth_In _ _ Hi)).
  - rewrite nth_overflow by exact Hi. unfold word32. lia.
Qed.

Create HintDb word32 discriminated.
#[export] Hint Resolve word32_lxor word32_lor word32_land word32_u32 word32_nth : word32.

(** Discharges [word32] goals built by the C operations. *)
Ltac solve_word32 :=
  repeat first
    [ assumption | apply word32_lxor | apply word32_lor | apply word32_land | apply word32_u32
    | apply word32_shiftr; [lia|] | apply word32_nth; assumption
    | unfold word32; lia ].

Lemma temper_word32 (y : Z) : word32 y -> word32 (temper y).
Proof. intros Hy. unfold temper; cbv zeta. solve_word32. Qed.

(** ** The key through the loops *)

Lemma length_set_nth (l : list Z) (i : nat) (v : Z) : length (set_nth l i v) = length l.
Proof. revert i; induction l as [|h t IH]; intros [|i]; simpl; auto. Qed.

Lemma Forall_set_nth (P : Z -> Prop) (l : list Z) (i : nat) (v : Z) :
  Forall P l -> P v -> Forall P (set_nth l i v).
Proof.
  revert i; induction l as [|h t IH]; intros [|i] Hl Hv; simpl; auto.
  - inversion Hl; constructor; auto.
  - inversion Hl; constructor; auto.
Qed.

Lemma twist_at_wf (k : list Z) (i j m : nat) :
  Forall word32 k -> length (twist_at k i j m) = length k /\ Forall word32 (twist_at k i j m).
Proof.
  intros Hk. unfold twist_at. split; [apply length_set_nth|].
  apply Forall_set_nth; [exact Hk|]. unfold mag01, MATRIX_A, UPPER_MASK, LOWER_MASK. solve_word32.
Qed.

Lemma for_loop_wf (n i : nat) (body : nat -> list Z -> list Z) (k : list Z) :
  (forall j k, Forall word32 k -> length (body j k) = length k /\ Forall word32 (body j k)) ->
  Forall word32 k -> length (for_loop n i body k) = length k /\ Forall word32 (for_loop n i body k).
Proof.
  intros Hb. revert i k; induction n as [|n IH]; intros i k Hk; simpl; [auto|].
  destruct (Hb i k Hk) as [L F]. destruct (IH (S i) _ F) as [L' F']. split; congruence.
Qed.

Lemma mt19937_gen_wf (k : list Z) :
  Forall word32 k -> length (mt19937_gen k) = length k /\ Forall word32 (mt19937_gen k).
Proof.
  intros Hk. unfold mt19937_gen.
  destruct (for_loop_wf (N - M) 0 _ k (fun j k' H => twist_at_wf k' j (S j) (j + M) H) Hk) as [L1 F1].
  destruct (for_loop_wf (M - 1) (N - M) _ _ (fun j k' H => twist_at_wf k' j (S j) (j + M - N) H) F1)
    as [L2 F2].
  destruct (twist_at_wf _ (N - 1) 0 (M - 1) F2) as [L3 F3]. split; [congruence|exact F3].
Qed.

(** [mt19937_next] keeps a state well-formed and returns a 32-bit word. *)
Lemma mt_next_wf (s : mt_state) :
  mt_wf s -> mt_wf (snd (mt19937_next s)) /\ word32 (fst (mt19937_next s)).
Proof.
  intros (L & P & F). unfold mt19937_next.
  destruct (Nat.eqb_spec (pos s) N) as [E|E]; cbn [fst snd key pos].
  - destruct (mt19937_gen_wf _ F) as [L' F'].
    split; [split; [cbn [key]; congruence|split; [cbn [pos]; unfold N; lia|exact F']]|].
    apply temper_word32, word32_nth, F'.
  - split; [split; [exact L|split; [cbn [pos]; lia|exact F]]|].
    apply temper_word32, word32_nth, F.
Qed.

(** ** The three loops compute the uniform recurrence *)

Lemma for_loop_add (a b i : nat) (body : nat -> list Z -> list Z) (k : list Z) :
  for_loop (a + b) i body k = for_loop b (i + a) body (for_loop a i body k).
Proof.
  revert i k; induction a as [|a IH]; intros i k; simpl; [rewrite Nat.add_0_r; reflexivity|].
  rewrite IH. f_equal. lia.
Qed.

Lemma for_loop_ext (n i : nat) (body body' : nat -> list Z -> list Z) (k : list Z) :
  (forall j k, (i <= j < i + n)%nat -> body j k = body' j k) ->
  for_loop n i body k = for_loop n i body' k.
Proof.
  revert i k; induction n as [|n IH]; intros i k Hb; simpl; [reflexivity|].
  rewrite Hb by lia. apply IH. intros j k' Hj. apply Hb. lia.
Qed.

(** [a mod N] for [N <= a < 2N]. *)
Lemma mod_N_wrap (a : nat) : (N <= a < 2 * N)%nat -> (a mod N = a - N)%nat.
Proof. intros Ha. symmetry. apply Nat.mod_unique with 1%nat; unfold N in *; lia. Qed.

Lemma mod_N_small (a : nat) : (a < N)%nat -> (a mod N = a)%nat.
Proof. apply Nat.mod_small. Qed.

(** C19: numpy's [mt19937_gen], two loops and a last step that avoid the
    modulo, computes the reference recurrence [twist_ref] with indices
    modulo [N]. *)
Theorem mt_gen_uniform (k : list Z) : mt19937_gen k = twist_ref k.
Proof.
  unfold mt19937_gen, twist_ref.
  set (body := fun i k => twist_at k i ((S i) mod N) ((i + M) mod N)).
  change (for_loop N 0 body k) with (for_loop (227 + 396 + 1) 0 body k).
  rewrite !for_loop_add.
  change (N - M)%nat with 227%nat. change (M - 1)%nat with 396%nat.
  rewrite (for_loop_ext 227 0 body (fun i k => twist_at k i (S i) (i + M))).
  2: { intros j k' Hj. unfold body. rewrite !mod_N_small by (unfold N, M; lia). reflexivity. }
  rewrite (for_loop_ext 396 (0 + 227) body (fun i k => twist_at k i (S i) (i + M - N))).
  2: { intros j k' Hj. unfold body. rewrite mod_N_small, mod_N_wrap by (unfold N, M; lia).
       reflexivity. }
  change (0 + 227)%nat with 227%nat. change (227 + 396)%nat with 623%nat.
  set (K := for_loop 396 227 _ _). cbn [for_loop]. unfold body.
  f_equal; reflexivity.
Qed.

(** ** Seeded states are well-formed *)

Lemma seed_words_wf (k p : nat) (seed : Z) :
  word32 seed -> length (seed_words k p seed) = k /\ Forall word32 (seed_words k p seed).
Proof.
  revert p seed; induction k as [|k IH]; intros p seed Hs; cbn [seed_words length]; [auto|].
  destruct (IH (S p) _ (word32_u32 (1812433253 * Z.lxor seed (Z.shiftr seed 30) + Z.of_nat p + 1)))
    as [L F].
  split; [congruence|constructor; assumption].
Qed.

Lemma mt_seed_wf (seed : Z) : mt_wf (mt19937_seed seed).
Proof.
  assert (Hs : word32 (Z.land seed 4294967295)) by (apply word32_land; unfold word32; lia).
  destruct (seed_words_wf N 0 _ Hs) as [L F]. unfold mt19937_seed, mt_wf; cbn [key pos]. split; [exact L|split; [lia|exact F]].
Qed.

(** The states numpy's generator goes through: a seeded state, then the
    successive states of [mt19937_next]. *)
Inductive mt_reachable : mt_state -> Prop :=
| reach_seed : forall seed, mt_reachable (mt19937_seed seed)
| reach_next : forall s, mt_reachable s -> mt_reachable (snd (mt19937_next s)).

(** C18: every reachable state of the generator is well-formed (624 words of
    32 bits, position at most 624), and the word it yields next is a
    32-bit word. *)
Theorem mt_reachable_wf (s : mt_state) :
  mt_reachable s -> mt_wf s /\ word32 (fst (mt19937_next s)).
Proof.
  intros R. assert (W : mt_wf s).
  { induction R as [seed|s _ IH]; [apply mt_seed_wf|exact (proj1 (mt_next_wf s IH))]. }
  exact (conj W (proj2 (mt_next_wf s W))).
Qed.

Lemma mt_reachable_wf_witness :
  mt_reachable (snd (mt19937_next (mt19937_seed 0))) /\
  mt_wf (snd (mt19937_next (mt19937_seed 0))) /\
  word32 (fst (mt19937_next (snd (mt19937_next (mt19937_seed 0))))).
Proof.
  assert (R : mt_reachable (snd (mt19937_next (mt19937_seed 0))))
    by (apply reach_next; apply reach_seed).
  split; [exact R | apply (mt_reachable_wf _ R)].
Defined.

(** ** numpy's generator is a [BitGenerator] *)

Definition mt_gen : Type := { s : mt_state | mt_wf s }.

#[export] Instance mt_bitgen : BitGenerator mt_gen :=
  fun g => (fst (mt19937_next (proj1_sig g)),
            exist _ (snd (mt19937_next (proj1_sig g))) (proj1 (mt_next_wf _ (proj2_sig g)))).

#[export] Instance mt_bitgen_laws : BitGeneratorLaws mt_gen.
Proof. intros [s H]. exact (proj2 (mt_next_wf s H)). Qed.

(** [np.random.seed(seed)] for [0 <= seed < 2^32]. *)
Definition np_random_seed (seed : Z) : mt_gen := exist _ (mt19937_seed seed) (mt_seed_wf seed).

(** After [np.random.seed(0)], the first double numpy draws is
    [4943272583565992 / 2^53 = 0.5488135039273248], the value numpy prints
    for [np.random.seed(0); np.random.rand()]. *)
Example np_seed0_first_double :
  (fst (next_double (np_random_seed 0)) == 4943272583565992 # 9007199254740992)%Q.
Proof. vm_compute. reflexivity. Qed.
