(* ===== verification/Polyfit.v ===== *)
(** * Polyfit: [np.polyfit(x, y, deg=1)] as the notebook calls it

    Called at src/Regressions_Notebook.py line 44 ([a, b = np.polyfit(x, y,
    deg=1)]) and line 116 (inside [regress_data]).  numpy's [polyfit] checks
    its arguments, then solves the least-squares problem for the Vandermonde
    matrix [[x_i, 1]] with [lstsq] after scaling its columns:
<<
      if x.size == 0: raise TypeError("expected non-empty vector for x")
      if x.shape[0] != y.shape[0]: raise TypeError("expected x and y to have same length")
      lhs = vander(x, 2); scale = sqrt((lhs*lhs).sum(axis=0)); lhs /= scale
      c, resids, rank, s = lstsq(lhs, y, rcond); c = (c.T/scale).T
>>
    In exact arithmetic, when the design has full rank ([design_det x] is
    not 0, i.e. two positions differ) [lstsq] returns the unique least-squares
    line, written here in closed form.  When every position equals the same
    [c] the design has rank 1: numpy warns ([RankWarning]) and returns the
    minimum-norm solution of the scaled problem, which is
    [(Σy/(2nc), Σy/(2n))]; when [c = 0] the scaling divides by zero and the
    NaN matrix makes [lstsq] raise [LinAlgError]. *)

From Stdlib Require Import QArith Qabs Lqa List Lia ZArith Setoid Morphisms.
From S2P Require Import Prelude.
Import ListNotations.
Open Scope Q_scope.
Open Scope tex_scope.

(** ** The model *)

(** Determinant of [X.T @ X] for the design [X = c_[ones, x]]. *)
Definition design_det (x : list Q) : Q := qlen x * dot x x - Σ x * Σ x.

Definition polyfit1 (x y : list Q) : result (Q * Q) :=
  match x with
  | [] => inl TypeError_empty
  | c :: _ =>
      if negb (Nat.eqb (length x) (length y)) then inl TypeError_length else
      let n := qlen x in
      let Sx := Σ x in
      let Sy := Σ y in
      let Sxx := dot x x in
      let Sxy := dot x y in
      let D := n * Sxx - Sx * Sx in
      if Qeq_bool D 0 then
        if Qeq_bool c 0 then inl LinAlgError
        else inr (Sy / (2 * n * c), Sy / (2 * n))
      else inr ((n * Sxy - Sx * Sy) / D, (Sxx * Sy - Sx * Sxy) / D)
  end.

(** Residuals [y - (s*x + c)] of a line and their sum of squares. *)
Definition residuals (x y : list Q) (s c : Q) : list Q :=
  zip_with (fun xi yi => yi - (s * xi + c)) x y.

Definition sse (x y : list Q) (s c : Q) : Q :=
  Σ (map (fun r => r * r) (residuals x y s c)).

(** ** Sums over the aligned pairs *)

(** ** The spread of the positions *)

(** [Σ (n x_i - Σx)^2 = n * design_det x]: the determinant is [n^2] times
    the variance of the positions. *)
Lemma spread_identity (x : list Q) :
  Σ (map (fun xi => (qlen x * xi - Σ x) * (qlen x * xi - Σ x)) x)
  == qlen x * design_det x.
Proof.
  unfold design_det, dot. rewrite zip_with_diag.
  assert (E : forall xi, (qlen x * xi - Σ x) * (qlen x * xi - Σ x)
                        == qlen x * qlen x * (xi * xi) - (2 * qlen x * Σ x * xi - Σ x * Σ x))
    by (intros; ring).
  rewrite (qsum_map_ext _ _ x (fun xi _ => E xi)).
  qsum_simpl. rewrite map_id. fold (qlen x). ring.
Qed.

Lemma design_det_nonneg (x : list Q) : 0 <= design_det x.
Proof.
  destruct x as [|x0 xs]; [unfold design_det, qlen, dot, Qle; simpl; lia|].
  pose proof (spread_identity (x0 :: xs)) as E.
  pose proof (qlen_pos (x0 :: xs) ltac:(discriminate)) as N.
  assert (P : 0 <= Σ (map (fun xi => (qlen (x0 :: xs) * xi - Σ (x0 :: xs))
                                      * (qlen (x0 :: xs) * xi - Σ (x0 :: xs))) (x0 :: xs)))
    by (apply qsum_map_nonneg; intros; apply Qsq_nonneg).
  rewrite E in P. nra.
Qed.

(** A zero determinant means that every position equals the first one. *)
Lemma design_det_zero_const (c : Q) (xs : list Q) :
  design_det (c :: xs) == 0 -> forall xi, In xi (c :: xs) -> xi == c.
Proof.
  intros HD.
  pose proof (qlen_pos (c :: xs) ltac:(discriminate)) as N.
  assert (Z : forall xi, In xi (c :: xs) -> qlen (c :: xs) * xi - Σ (c :: xs) == 0).
  { intros xi Hi.
    assert (S0 : Σ (map (fun xi => (qlen (c :: xs) * xi - Σ (c :: xs))
                                   * (qlen (c :: xs) * xi - Σ (c :: xs))) (c :: xs)) == 0)
      by (rewrite spread_identity, HD; ring).
    destruct (Qmult_integral _ _ (qsum_map_nonneg_zero _ _ (fun _ _ => Qsq_nonneg _) S0 xi Hi));
      assumption. }
  intros xi Hi. pose proof (Z xi Hi). pose proof (Z c (or_introl eq_refl)). nra.
Qed.

(** When all positions equal [c], the sums of the fit reduce to [c]. *)
Lemma const_positions_sums (c : Q) (x y : list Q) :
  length x = length y -> (forall xi, In xi x -> xi == c) ->
  Σ x == qlen x * c /\ dot x x == qlen x * (c * c) /\ dot x y == c * Σ y.
Proof.
  intros Hl Hc. split; [|split].
  - rewrite <- (map_id x) at 1.
    rewrite (qsum_map_ext _ (fun _ => c) x Hc), qsum_map_const. reflexivity.
  - unfold dot. rewrite zip_with_diag.
    rewrite (qsum_map_ext _ (fun _ => c * c) x) by (intros xi Hi; rewrite (Hc xi Hi); reflexivity).
    rewrite qsum_map_const. reflexivity.
  - unfold dot, zip_with.
    rewrite (qsum_map_ext _ (fun p => c * snd p) (combine x y))
      by (intros p Hp; destruct p as [xi yi]; simpl;
          rewrite (Hc xi (in_combine_l _ _ _ _ Hp)); reflexivity).
    rewrite qsum_map_scal, <- (map_map snd (fun v => v)), map_id,
      map_snd_combine by exact Hl. reflexivity.
Qed.

(** ** What [polyfit1] returns *)

Lemma polyfit1_success (x y : list Q) (a b : Q) :
  polyfit1 x y = inr (a, b) ->
  x <> [] /\ length x = length y /\
  ((~ design_det x == 0 /\
    a = (qlen x * dot x y - Σ x * Σ y) / design_det x /\
    b = (dot x x * Σ y - Σ x * dot x y) / design_det x) \/
   (design_det x == 0 /\ ~ hd 0 x == 0 /\
    a = Σ y / (2 * qlen x * hd 0 x) /\ b = Σ y / (2 * qlen x))).
Proof.
  unfold polyfit1. destruct x as [|c xs]; [discriminate|].
  destruct (Nat.eqb_spec (length (c :: xs)) (length y)) as [Hl|Hl]; [|discriminate].
  cbv zeta; simpl negb; cbv iota. fold (design_det (c :: xs)).
  destruct (Qeq_bool (design_det (c :: xs)) 0) eqn:HD.
  - apply Qeq_bool_eq in HD.
    destruct (Qeq_bool c 0) eqn:Hc; [discriminate|]. apply Qeq_bool_neq in Hc.
    intros [= <- <-]. split; [discriminate|split; [exact Hl|]].
    right. repeat split; assumption.
  - apply Qeq_bool_neq in HD. intros [= <- <-].
    split; [discriminate|split; [exact Hl|]]. left. repeat split; assumption.
Qed.

(** ** The normal equations and least squares *)

Lemma qsum_residuals (x y : list Q) (s c : Q) :
  length x = length y -> Σ (residuals x y s c) == Σ y - s * Σ x - c * qlen x.
Proof. intros H. unfold residuals. zip_canon 0 0 0 (- s) 1 (- c). ring. Qed.

Lemma qsum_x_residuals (x y : list Q) (s c : Q) :
  length x = length y ->
  Σ (zip_with (fun xi yi => xi * (yi - (s * xi + c))) x y)
  == dot x y - s * dot x x - c * Σ x.
Proof. intros H. zip_canon (- s) 1 0 (- c) 0 0. ring. Qed.

Lemma sse_expand (x y : list Q) (s c : Q) :
  length x = length y ->
  sse x y s c == dot y y - 2 * s * dot x y - 2 * c * Σ y
                 + s * s * dot x x + 2 * s * c * Σ x + c * c * qlen x.
Proof.
  intros H. unfold sse, residuals. rewrite map_zip_with.
  zip_canon (s * s) (- 2 * s) 1 (2 * s * c) (- 2 * c) (c * c). ring.
Qed.

(** The squared gap between two lines, summed over the positions. *)
Definition line_gap (x : list Q) (d e : Q) : Q :=
  Σ (map (fun xi => (d * xi + e) * (d * xi + e)) x).

Lemma line_gap_expand (x : list Q) (d e : Q) :
  line_gap x d e == d * d * dot x x + 2 * d * e * Σ x + e * e * qlen x.
Proof. unfold line_gap. map_canon (d * d) (2 * d * e) (e * e). reflexivity. Qed.

Lemma line_gap_nonneg (x : list Q) (d e : Q) : 0 <= line_gap x d e.
Proof. apply qsum_map_nonneg. intros; apply Qsq_nonneg. Qed.

(** [sse] of any line is [sse] of [(a, b)] plus the gap between the lines,
    plus two terms that vanish when [(a, b)] solves the normal equations. *)
Lemma sse_decompose (x y : list Q) (a b s c : Q) :
  length x = length y ->
  sse x y s c == sse x y a b + line_gap x (a - s) (b - c)
                 + 2 * (a - s) * (dot x y - a * dot x x - b * Σ x)
                 + 2 * (b - c) * (Σ y - a * Σ x - b * qlen x).
Proof. intros H. rewrite !sse_expand, line_gap_expand by exact H. ring. Qed.

(** [n * gap] is a sum of two squares, the second weighted by the
    determinant. *)
Lemma line_gap_det (x : list Q) (d e : Q) :
  qlen x * line_gap x d e
  == (qlen x * e + d * Σ x) * (qlen x * e + d * Σ x) + d * d * design_det x.
Proof. rewrite line_gap_expand. unfold design_det. ring. Qed.

(** The two normal equations hold for every line [polyfit1] returns. *)
Lemma polyfit1_normal (x y : list Q) (a b : Q) :
  polyfit1 x y = inr (a, b) ->
  Σ y - a * Σ x - b * qlen x == 0 /\ dot x y - a * dot x x - b * Σ x == 0.
Proof.
  intros Hf. destruct (polyfit1_success x y a b Hf) as (Hne & Hl & [Full|Deg]).
  - destruct Full as (HD & -> & ->). unfold design_det in *.
    split; field; exact HD.
  - destruct x as [|c xs]; [congruence|]. simpl in Deg.
    destruct Deg as (HD & Hc & -> & ->).
    destruct (const_positions_sums c (c :: xs) y Hl (design_det_zero_const c xs HD))
      as (Sx & Sxx & Sxy).
    pose proof (qlen_pos (c :: xs) Hne) as N.
    assert (Nz : ~ qlen (c :: xs) == 0) by (intro; lra).
    rewrite Sx, Sxx, Sxy. split; field; tauto.
Qed.

(** ** Properties of [np.polyfit(x, y, deg=1)] *)

(** C3: whenever [polyfit] returns a line [(a, b)], no other line has a
    smaller sum of squared residuals: [polyfit] is a least-squares fit. *)
Theorem polyfit1_least_squares (x y : list Q) (a b : Q) :
  polyfit1 x y = inr (a, b) -> forall s c, sse x y a b <= sse x y s c.
Proof.
  intros Hf s c. destruct (polyfit1_normal x y a b Hf) as [N1 N2].
  destruct (polyfit1_success x y a b Hf) as (_ & Hl & _).
  rewrite (sse_decompose x y a b s c Hl), N1, N2.
  pose proof (line_gap_nonneg x (a - s) (b - c)). lra.
Qed.

(** C21: when two positions differ, [polyfit]'s line is the only
    least-squares line: a line whose sum of squares is no larger is that
    line. *)
Lemma polyfit1_unique_minimizer (x y : list Q) (a b s c : Q) :
  polyfit1 x y = inr (a, b) -> ~ design_det x == 0 ->
  sse x y s c <= sse x y a b -> s == a /\ c == b.
Proof.
  intros Hf HD Hle. destruct (polyfit1_normal x y a b Hf) as [N1 N2].
  destruct (polyfit1_success x y a b Hf) as (Hne & Hl & _).
  rewrite (sse_decompose x y a b s c Hl), N1, N2 in Hle.
  pose proof (line_gap_nonneg x (a - s) (b - c)) as G0.
  assert (G : line_gap x (a - s) (b - c) == 0) by lra.
  pose proof (line_gap_det x (a - s) (b - c)) as E. rewrite G in E.
  pose proof (design_det_nonneg x) as D0.
  pose proof (qlen_pos x Hne) as N.
  set (u := qlen x * (b - c) + (a - s) * Σ x) in E.
  assert (Hd : (a - s) * (a - s) == 0).
  { pose proof (Qsq_nonneg u). pose proof (Qsq_nonneg (a - s)).
    assert (P : (a - s) * (a - s) * design_det x == 0) by nra.
    destruct (Qmult_integral _ _ P) as [Z|Z]; [exact Z|contradiction]. }
  assert (Ha : a - s == 0) by (destruct (Qmult_integral _ _ Hd); assumption).
  assert (Hu : u * u == 0).
  { assert (Q0 : (a - s) * (a - s) * design_det x == 0) by (rewrite Ha; ring).
    rewrite Q0 in E. lra. }
  assert (Hu0 : u == 0) by (destruct (Qmult_integral _ _ Hu); assumption).
  unfold u in Hu0. rewrite Ha in Hu0.
  assert (Hb : qlen x * (b - c) == 0) by (rewrite <- Hu0; ring).
  destruct (Qmult_integral _ _ Hb) as [Z|Z]; [lra|]. split; lra.
Qed.

(** All positions 0: the rank-deficient branch with [c = 0] raises. *)
Lemma polyfit1_zero_positions (x y : list Q) :
  x <> [] -> length x = length y -> (forall xi, In xi x -> xi == 0) ->
  polyfit1 x y = inl LinAlgError.
Proof.
  destruct x as [|c xs]; [congruence|]. intros _ Hl Hz. unfold polyfit1.
  rewrite (proj2 (Nat.eqb_eq _ _) Hl). cbv zeta; simpl negb; cbv iota.
  fold (design_det (c :: xs)).
  destruct (const_positions_sums 0 (c :: xs) y Hl Hz) as (Sx & Sxx & _).
  assert (HD : design_det (c :: xs) == 0) by (unfold design_det; rewrite Sx, Sxx; ring).
  rewrite (Qeq_eq_bool _ _ HD), (Qeq_eq_bool _ _ (Hz c (or_introl eq_refl))). reflexivity.
Qed.

(** Some position not 0: one of the two branches returns a line. *)
Lemma polyfit1_returns (x y : list Q) :
  x <> [] -> length x = length y -> ~ (forall xi, In xi x -> xi == 0) ->
  exists a b, polyfit1 x y = inr (a, b).
Proof.
  destruct x as [|c xs]; [congruence|]. intros _ Hl Hz. unfold polyfit1.
  rewrite (proj2 (Nat.eqb_eq _ _) Hl). cbv zeta; simpl negb; cbv iota.
  fold (design_det (c :: xs)).
  destruct (Qeq_bool (design_det (c :: xs)) 0) eqn:HD; [|eexists _, _; reflexivity].
  destruct (Qeq_bool c 0) eqn:Hc; [|eexists _, _; reflexivity].
  exfalso. apply Hz. intros xi Hi.
  rewrite (design_det_zero_const c xs (Qeq_bool_eq _ _ HD) xi Hi).
  exact (Qeq_bool_eq _ _ Hc).
Qed.

(** C6: [polyfit] raises exactly in three cases: [TypeError] on an empty
    [x], [TypeError] on lengths that differ, and [LinAlgError] when every
    position is 0; otherwise it returns a line. *)
Theorem polyfit1_outcomes (x y : list Q) :
  (x = [] -> polyfit1 x y = inl TypeError_empty) /\
  (x <> [] -> length x <> length y -> polyfit1 x y = inl TypeError_length) /\
  (x <> [] -> length x = length y -> (forall xi, In xi x -> xi == 0) ->
     polyfit1 x y = inl LinAlgError) /\
  (x <> [] -> length x = length y -> ~ (forall xi, In xi x -> xi == 0) ->
     exists a b, polyfit1 x y = inr (a, b)).
Proof.
  split; [intros ->; reflexivity|].
  split; [|split; [apply polyfit1_zero_positions|apply polyfit1_returns]].
  destruct x as [|c xs]; [congruence|]. intros _ Hl. unfold polyfit1.
  apply Nat.eqb_neq in Hl. rewrite Hl. reflexivity.
Qed.

Lemma sse_nonneg (x y : list Q) (s c : Q) : 0 <= sse x y s c.
Proof. apply qsum_map_nonneg. intros; apply Qsq_nonneg. Qed.

Lemma zip_with_map_r {A B C} (f : A -> B -> C) (g : A -> B) l :
  zip_with f l (map g l) = map (fun a => f a (g a)) l.
Proof. induction l as [|a l IH]; simpl; [reflexivity|]. rewrite <- IH. reflexivity. Qed.

Lemma design_det_nil : design_det [] == 0.
Proof. reflexivity. Qed.

(** With aligned series and a regular design, [polyfit] takes its first
    branch: the closed form of the least-squares line. *)
Lemma polyfit1_regular (x y : list Q) :
  length x = length y -> ~ design_det x == 0 ->
  polyfit1 x y = inr ((qlen x * dot x y - Σ x * Σ y) / design_det x,
                      (dot x x * Σ y - Σ x * dot x y) / design_det x).
Proof.
  intros Hl HD. destruct x as [|c xs]; [destruct (HD design_det_nil)|]. unfold polyfit1.
  rewrite (proj2 (Nat.eqb_eq _ _) Hl). cbv zeta; simpl negb; cbv iota.
  fold (design_det (c :: xs)). rewrite Qeq_bool_false by exact HD. reflexivity.
Qed.

(** C20: on data that lie exactly on a line [y = m*x + k] with two distinct
    positions, [polyfit] returns that line. *)
Theorem polyfit1_exact (x : list Q) (m k : Q) :
  ~ design_det x == 0 ->
  exists a b, polyfit1 x (map (fun xi => m * xi + k) x) = inr (a, b) /\ a == m /\ b == k.
Proof.
  intros HD. rewrite polyfit1_regular; [|rewrite length_map; reflexivity|exact HD].
  eexists _, _; split; [reflexivity|].
  assert (Sy : Σ (map (fun xi => m * xi + k) x) == m * Σ x + k * qlen x) by (map_canon 0 m k; ring).
  assert (Sxy : dot x (map (fun xi => m * xi + k) x) == m * dot x x + k * Σ x)
    by (unfold dot; rewrite zip_with_map_r; map_canon m k 0; fold (dot x x); ring).
  rewrite Sy, Sxy. unfold design_det in *. split; field; exact HD.
Qed.

(** The end-to-end scenario of the specification: for positions
    [0, 1, 2, 3] and values [1.0, 2.0, 3.0, 4.1], [polyfit] returns slope
    [1.03] and intercept [0.98]. *)
Example polyfit1_spec_scenario :
  exists a b, polyfit1 [0; 1; 2; 3] [1; 2; 3; 41 # 10] = inr (a, b) /\
              a == 103 # 100 /\ b == 98 # 100.
Proof. eexists _, _. split; [reflexivity|]. split; reflexivity. Qed.

(** ** [polyfit] is linear in the values

    For fixed positions, the slope and the intercept are weighted sums of the
    values, with weights that depend on the positions only. *)

Definition slope_weight (x : list Q) (xi : Q) : Q :=
  if Qeq_bool (design_det x) 0 then 1 / (2 * qlen x * hd 0 x)
  else (qlen x * xi - Σ x) / design_det x.

Definition intercept_weight (x : list Q) (xi : Q) : Q :=
  if Qeq_bool (design_det x) 0 then 1 / (2 * qlen x)
  else (dot x x - Σ x * xi) / design_det x.

Lemma polyfit1_linear (x y : list Q) (a b : Q) :
  polyfit1 x y = inr (a, b) ->
  a == Σ (zip_with (fun xi yi => slope_weight x xi * yi) x y) /\
  b == Σ (zip_with (fun xi yi => intercept_weight x xi * yi) x y).
Proof.
  intros Hf. destruct (polyfit1_success x y a b Hf) as (Hne & Hl & [Full|Deg]).
  - destruct Full as (HD & -> & ->).
    unfold slope_weight, intercept_weight.
    rewrite (Qeq_bool_false _ _ HD).
    split.
    + zip_canon 0 (qlen x / design_det x) 0 0 (- Σ x / design_det x) 0. field. exact HD.
    + zip_canon 0 (- Σ x / design_det x) 0 0 (dot x x / design_det x) 0. field. exact HD.
  - destruct Deg as (HD & Hc & -> & ->).
    unfold slope_weight, intercept_weight. rewrite (Qeq_eq_bool _ _ HD).
    pose proof (qlen_pos x Hne) as N.
    split.
    + zip_canon 0 0 0 0 (1 / (2 * qlen x * hd 0 x)) 0. field. split; [exact Hc|intro; lra].
    + zip_canon 0 0 0 0 (1 / (2 * qlen x)) 0. field. intro; lra.
Qed.

(** Whether [polyfit] returns depends on the positions and on the number of
    values only. *)
Lemma polyfit1_ok_length (x y y' : list Q) (a b : Q) :
  polyfit1 x y = inr (a, b) -> length y' = length y ->
  exists a' b', polyfit1 x y' = inr (a', b').
Proof.
  intros Hf Hl'. destruct (polyfit1_success x y a b Hf) as (Hne & Hl & _).
  apply polyfit1_returns; [exact Hne|congruence|].
  intros Hall. rewrite (polyfit1_zero_positions x y Hne Hl Hall) in Hf. discriminate.
Qed.

(** ** Concrete fits *)

Lemma polyfit1_least_squares_witness :
  exists a b, polyfit1 [0; 1; 2; 3] [1; 2; 3; 41 # 10] = inr (a, b) /\
              sse [0; 1; 2; 3] [1; 2; 3; 41 # 10] a b <= sse [0; 1; 2; 3] [1; 2; 3; 41 # 10] 1 1.
Proof.
  destruct (polyfit1 [0; 1; 2; 3] [1; 2; 3; 41 # 10]) as [e|[a b]] eqn:F;
    [vm_compute in F; discriminate|].
  exists a, b. split; [reflexivity|]. exact (polyfit1_least_squares _ _ a b F 1 1).
Defined.

Lemma polyfit1_unique_minimizer_witness :
  exists a b, polyfit1 [0; 1; 2] [1; 2; 4] = inr (a, b) /\ ~ design_det [0; 1; 2] == 0 /\
              (sse [0; 1; 2] [1; 2; 4] a b <= sse [0; 1; 2] [1; 2; 4] a b -> a == a /\ b == b).
Proof.
  destruct (polyfit1 [0; 1; 2] [1; 2; 4]) as [e|[a b]] eqn:F; [vm_compute in F; discriminate|].
  assert (HD : ~ design_det [0; 1; 2] == 0) by (unfold Qeq; vm_compute; discriminate).
  exists a, b. split; [reflexivity|split; [exact HD|]].
  exact (polyfit1_unique_minimizer _ _ a b a b F HD).
Defined.

Lemma polyfit1_exact_witness :
  ~ design_det [0; 1; 2] == 0 /\
  exists a b, polyfit1 [0; 1; 2] (map (fun xi => 2 * xi + 1) [0; 1; 2]) = inr (a, b) /\
              a == 2 /\ b == 1.
Proof.
  assert (HD : ~ design_det [0; 1; 2] == 0) by (unfold Qeq; vm_compute; discriminate).
  split; [exact HD|]. exact (polyfit1_exact [0; 1; 2] 2 1 HD).
Defined.

Lemma polyfit1_outcomes_witness :
  polyfit1 [] [1] = inl TypeError_empty /\
  polyfit1 [1] [1; 2] = inl TypeError_length /\
  polyfit1 [0; 0] [1; 2] = inl LinAlgError /\
  exists a b, polyfit1 [5; 5] [1; 2] = inr (a, b).
Proof.
  destruct (polyfit1_outcomes [] [1]) as (E1 & _).
  destruct (polyfit1_outcomes [1] [1; 2]) as (_ & E2 & _).
  destruct (polyfit1_outcomes [0; 0] [1; 2]) as (_ & _ & E3 & _).
  destruct (polyfit1_outcomes [5; 5] [1; 2]) as (_ & _ & _ & E4).
  split; [exact (E1 eq_refl)|split; [exact (E2 ltac:(discriminate) ltac:(discriminate))|split]].
  - apply E3; [discriminate|reflexivity|]. intros xi [<-|[<-|[]]]; reflexivity.
  - apply E4; [discriminate|reflexivity|]. intros Hz.
    specialize (Hz 5 (or_introl eq_refl)). discriminate.
Defined.
