(* ===== verification/MonteCarlo.v ===== *)
(** * MonteCarlo: the Monte Carlo engine of src/Regressions_Notebook.py

    Lines 115-134 define
<<
      def regress_data(x, y):
          slope, intercept = np.polyfit(x, y, deg=1)
          return slope, intercept
      def jiggle_data(y, unc_y):
          y_jig = [np.random.uniform(val-unc, val+unc) for val, unc in zip(y, unc_y)]
          return y_jig
      def multi_OLS(x, y, unc_y, iterations):
          slope_list = []; intercept_list = []; model_list = []
          for v in range(iterations):
              s, i = regress_data(x, jiggle_data(y, unc_y))
              slope_list.append(s); intercept_list.append(i)
              mod = x*s+i
              model_list.append(mod)
          return(slope_list, intercept_list, model_list)
>>
    and line 145 calls [multi_OLS(x, y, 2*unc_y, 1000)].  The generator state
    of numpy's global [RandomState] and the exceptions of [polyfit] are
    threaded by the monad [rng] ([stateT] over [sum py_error], from ExtLib).

    The abstract specification [multi_OLS_spec] describes the ensemble as
    [iterations] independent samples, the [k]-th drawn from the generator
    state after [k * n] doubles ([n] values per iteration);
    [multi_OLS_refines] proves that the sequential loop implements it. *)

From Stdlib Require Import QArith Qabs Lqa List Lia ZArith.
From ExtLib Require Import Structures.Monad Data.Monads.StateMonad Data.Monads.EitherMonad.
From S2P Require Import Prelude Random Polyfit.
Import ListNotations MonadNotation.
Open Scope Q_scope.
Open Scope tex_scope.
Open Scope monad_scope.
#[local] Existing Instance Monad_stateT.

Section Engine.
Context {G : Type} `{BitGenerator G}.

(** ** The model *)

(** A computation that uses numpy's global generator and may raise. *)
Definition rng := stateT G (sum py_error).

(** [np.random.uniform(low, high)] *)
Definition draw_uniform (low high : Q) : rng Q :=
  mkStateT (fun g => inr (uniform low high g)).

(** Running a fallible call inside [rng]: an exception propagates. *)
Definition lift_result {A} (r : result A) : rng A :=
  mkStateT (fun g => match r with inl e => inl e | inr a => inr (a, g) end).

(** [regress_data(x, y)]: the pair [polyfit] returns. *)
Definition regress_data (x y : list Q) : result (Q * Q) := polyfit1 x y.

(** The list comprehension of [jiggle_data], left to right over the pairs
    of [zip(y, unc_y)]. *)
Fixpoint jiggle_loop (pairs : list (Q * Q)) : rng (list Q) :=
  match pairs with
  | [] => ret []
  | (val, unc) :: rest =>
      v <- draw_uniform (val - unc) (val + unc) ;;
      vs <- jiggle_loop rest ;;
      ret (v :: vs)
  end.

Definition jiggle_data (y unc_y : list Q) : rng (list Q) :=
  jiggle_loop (combine y unc_y).

(** The three lists [multi_OLS] appends to. *)
Record ensemble := mk_ensemble {
  slope_list : list Q;
  intercept_list : list Q;
  model_list : list (list Q)
}.

Definition empty_ensemble : ensemble := mk_ensemble [] [] [].

(** One iteration of the [for] loop appends [s], [i] and [mod = x*s+i]
    ([mod] is a keyword of Rocq: the model is [model]). *)
Definition append_fit (x : list Q) (acc : ensemble) (si : Q * Q) : ensemble :=
  let (s, i) := si in
  let model := map (fun xi => xi * s + i) x in
  mk_ensemble (slope_list acc ++ [s]) (intercept_list acc ++ [i]) (model_list acc ++ [model]).

(** [for v in range(k)] with the lists of the previous iterations. *)
Fixpoint multi_OLS_loop (x y unc_y : list Q) (k : nat) (acc : ensemble) : rng ensemble :=
  match k with
  | O => ret acc
  | S k' =>
      y_jig <- jiggle_data y unc_y ;;
      si <- lift_result (regress_data x y_jig) ;;
      multi_OLS_loop x y unc_y k' (append_fit x acc si)
  end.

(** [multi_OLS(x, y, unc_y, iterations)]; [range] of a negative count is
    empty, hence [Z.to_nat]. *)
Definition multi_OLS (x y unc_y : list Q) (iterations : Z)
  : rng (list Q * list Q * list (list Q)) :=
  e <- multi_OLS_loop x y unc_y (Z.to_nat iterations) empty_ensemble ;;
  ret (slope_list e, intercept_list e, model_list e).

(** ** The specification: independent samples *)

(** [jiggle_data] as a function of the generator state. *)
Fixpoint jiggle_pure (pairs : list (Q * Q)) (g : G) : list Q * G :=
  match pairs with
  | [] => ([], g)
  | (val, unc) :: rest =>
      let (v, g1) := uniform (val - unc) (val + unc) g in
      let (vs, g2) := jiggle_pure rest g1 in
      (v :: vs, g2)
  end.

(** Uniform draws made by one iteration. *)
Definition draws_per_iteration (y unc_y : list Q) : nat := length (combine y unc_y).

(** The [k]-th sample: a fit of the values perturbed from the state after
    the draws of the [k] earlier iterations. *)
Definition mc_sample (x y unc_y : list Q) (g : G) (k : nat) : result (Q * Q) :=
  regress_data x
    (fst (jiggle_pure (combine y unc_y) (advance (k * draws_per_iteration y unc_y) g))).

(** The first exception of a list of outcomes, or all the values. *)
Fixpoint all_ok {A} (l : list (result A)) : result (list A) :=
  match l with
  | [] => inr []
  | inl e :: _ => inl e
  | inr a :: rest => match all_ok rest with inl e => inl e | inr l' => inr (a :: l') end
  end.

Definition multi_OLS_spec (x y unc_y : list Q) (iterations : Z) (g : G)
  : result ((list Q * list Q * list (list Q)) * G) :=
  let K := Z.to_nat iterations in
  match all_ok (map (mc_sample x y unc_y g) (seq 0 K)) with
  | inl e => inl e
  | inr fits =>
      inr ((map fst fits, map snd fits,
            map (fun si => map (fun xi => xi * fst si + snd si) x) fits),
           advance (K * draws_per_iteration y unc_y) g)
  end.
End Engine.

Section Refinement.
Context {G : Type} `{BitGenerator G}.

(** ** The loop and the specification *)

Lemma jiggle_loop_run (pairs : list (Q * Q)) (g : G) :
  runStateT (jiggle_loop pairs) g = inr (jiggle_pure pairs g).
Proof.
  revert g; induction pairs as [|[v u] rest IH]; intros g; [reflexivity|].
  cbn. destruct (uniform (v - u) (v + u) g) as [w g1]. cbn.
  rewrite IH. destruct (jiggle_pure rest g1); reflexivity.
Qed.

Lemma jiggle_pure_state (pairs : list (Q * Q)) (g : G) :
  snd (jiggle_pure pairs g) = advance (length pairs) g.
Proof.
  revert g; induction pairs as [|[v u] rest IH]; intros g; [reflexivity|].
  cbn [jiggle_pure length]. rewrite advance_succ, <- (uniform_state (v - u) (v + u) g).
  destruct (uniform (v - u) (v + u) g) as [w g1]. specialize (IH g1).
  destruct (jiggle_pure rest g1). exact IH.
Qed.

Lemma jiggle_pure_length (pairs : list (Q * Q)) (g : G) :
  length (fst (jiggle_pure pairs g)) = length pairs.
Proof.
  revert g; induction pairs as [|[v u] rest IH]; intros g; [reflexivity|].
  cbn [jiggle_pure length]. destruct (uniform (v - u) (v + u) g) as [w g1].
  specialize (IH g1). destruct (jiggle_pure rest g1). simpl in *. congruence.
Qed.

(** The sample [k+1] from [g] is the sample [k] from the state after one
    iteration. *)
Lemma mc_sample_shift (x y u : list Q) (g : G) (k : nat) :
  mc_sample x y u g (S k) = mc_sample x y u (advance (draws_per_iteration y u) g) k.
Proof.
  unfold mc_sample. rewrite <- advance_add.
  replace (S k * draws_per_iteration y u)%nat
    with (draws_per_iteration y u + k * draws_per_iteration y u)%nat by lia.
  reflexivity.
Qed.

Lemma fold_append_fit (x : list Q) (fits : list (Q * Q)) (acc : ensemble) :
  fold_left (append_fit x) fits acc =
  mk_ensemble (slope_list acc ++ map fst fits) (intercept_list acc ++ map snd fits)
              (model_list acc ++ map (fun si => map (fun xi => xi * fst si + snd si) x) fits).
Proof.
  revert acc; induction fits as [|[s i] fits IH]; intros [sl il ml].
  - simpl. rewrite !app_nil_r. reflexivity.
  - simpl. rewrite IH. simpl. rewrite <- !app_assoc. reflexivity.
Qed.

Lemma multi_OLS_loop_run (x y u : list Q) (k : nat) (acc : ensemble) (g : G) :
  runStateT (multi_OLS_loop x y u k acc) g =
  match all_ok (map (mc_sample x y u g) (seq 0 k)) with
  | inl e => inl e
  | inr fits => inr (fold_left (append_fit x) fits acc,
                    advance (k * draws_per_iteration y u) g)
  end.
Proof.
  revert acc g; induction k as [|k IH]; intros acc g; [reflexivity|].
  cbn [multi_OLS_loop seq map]. rewrite <- seq_shift, map_map.
  rewrite (map_ext _ _ (mc_sample_shift x y u g)).
  cbn. unfold jiggle_data. rewrite jiggle_loop_run.
  pose proof (jiggle_pure_state (combine y u) g) as Hs.
  unfold mc_sample at 1. rewrite Nat.mul_0_l. cbn [advance].
  destruct (jiggle_pure (combine y u) g) as [yj g1]. simpl in Hs |- *. subst g1.
  destruct (regress_data x yj) as [e|[s i]]; [reflexivity|]. cbn.
  rewrite IH. fold (draws_per_iteration y u).
  destruct (all_ok _); [reflexivity|].
  rewrite <- advance_add. repeat f_equal; lia.
Qed.

(** C1: the sequential loop of [multi_OLS] implements the specification:
    its result is that of [iterations] independent samples, the [k]-th
    being the fit of [jiggle_data] run from the generator state after the
    [k * n] draws of the earlier iterations; the first exception of a
    sample is the exception of the run, and the final state is the state
    after [iterations * n] draws. *)
Theorem multi_OLS_refines (x y u : list Q) (iterations : Z) (g : G) :
  runStateT (multi_OLS x y u iterations) g = multi_OLS_spec x y u iterations g.
Proof.
  unfold multi_OLS, multi_OLS_spec. cbn. rewrite multi_OLS_loop_run.
  destruct (all_ok _) as [e|fits]; [reflexivity|].
  rewrite fold_append_fit. reflexivity.
Qed.
End Refinement.

(** ** Outcomes collected by [all_ok] *)

Lemma all_ok_inr {A} (l : list (result A)) (vs : list A) :
  all_ok l = inr vs -> Forall2 (fun r v => r = inr v) l vs.
Proof.
  revert vs; induction l as [|[e|a] l IH]; intros vs H; simpl in H.
  - injection H as <-. constructor.
  - discriminate.
  - destruct (all_ok l) eqn:E; [discriminate|]. injection H as <-.
    constructor; [reflexivity|apply IH; reflexivity].
Qed.

Lemma all_ok_ok {A B} (f : B -> result A) (l : list B) :
  (forall k, In k l -> exists v, f k = inr v) -> exists vs, all_ok (map f l) = inr vs.
Proof.
  induction l as [|k l IH]; intros H; [exists []; reflexivity|].
  destruct (H k (or_introl eq_refl)) as [v Hv].
  destruct IH as [vs Hvs]; [intros j Hj; apply H; right; exact Hj|].
  exists (v :: vs). simpl. rewrite Hv, Hvs. reflexivity.
Qed.

(** ** Properties of the engine *)

(** What [uniform(val-unc, val+unc)] promises about its value [w]. *)
Definition within (vh : Q * Q) (w : Q) : Prop :=
  (0 <= snd vh -> fst vh - snd vh <= w /\ w <= fst vh + snd vh) /\
  (0 < snd vh -> w < fst vh + snd vh) /\
  (snd vh < 0 -> fst vh + snd vh < w /\ w <= fst vh - snd vh).

Section Bounds.
Context {G : Type} `{BitGeneratorLaws G}.

Lemma jiggle_pure_within (pairs : list (Q * Q)) (g : G) :
  Forall2 within pairs (fst (jiggle_pure pairs g)).
Proof.
  revert g; induction pairs as [|[v h] rest IH]; intros g; [constructor|].
  cbn [jiggle_pure]. pose proof (affine_unit_bounds (v - h) (v + h) _ (next_double_unit g)) as B.
  rewrite <- uniform_value in B.
  destruct (uniform (v - h) (v + h) g) as [w g1]. specialize (IH g1).
  destruct (jiggle_pure rest g1) as [vs g2]. simpl in B, IH |- *.
  constructor; [|exact IH].
  destruct B as (B1 & B2 & B3). unfold within; simpl.
  split; [|split]; intros Hh.
  - apply B1. lra.
  - apply B2. lra.
  - apply B3. lra.
Qed.

(** C2: every value [jiggle_data(y, unc_y)] returns lies within its
    window: in [[v - h, v + h]] when [h >= 0], below [v + h] when
    [h > 0], and in [(v + h, v - h]] when [h < 0]; one value per pair of
    [zip(y, unc_y)]. *)
Theorem jiggle_data_bounds (y u : list Q) (g : G) (yj : list Q) (g' : G) :
  runStateT (jiggle_data y u) g = inr (yj, g') -> Forall2 within (combine y u) yj.
Proof.
  unfold jiggle_data. rewrite jiggle_loop_run. intros [= E].
  replace yj with (fst (jiggle_pure (combine y u) g)) by (rewrite E; reflexivity).
  apply jiggle_pure_within.
Qed.
End Bounds.

Lemma Forall2_In_r {A B} (R : A -> B -> Prop) l1 l2 b :
  Forall2 R l1 l2 -> In b l2 -> exists a, In a l1 /\ R a b.
Proof.
  induction 1 as [|a b' l1 l2 Hab _ IH]; intros Hb; [destruct Hb|].
  destruct Hb as [<-|Hb]; [exists a; split; [left|]; auto|].
  destruct (IH Hb) as (a' & Ha' & HR). exists a'. split; [right|]; assumption.
Qed.

(** A weighted sum of values that each moved by at most [h] moves by at most
    the weighted sum of the [h]. *)
Lemma weighted_diff_bound (w : Q -> Q) (x y u yj : list Q) :
  length x = length y -> length y = length u ->
  Forall2 within (combine y u) yj -> Forall (Qle 0) u ->
  Qabs (Σ (zip_with (fun xi yi => w xi * yi) x yj) - Σ (zip_with (fun xi yi => w xi * yi) x y))
  <= Σ (zip_with (fun xi h => Qabs (w xi) * h) x u).
Proof.
  revert y u yj; induction x as [|xi x IH]; intros y u yj Hxy Hyu Hw Hu.
  - destruct y; [|discriminate]. destruct u; [|discriminate].
    inversion Hw; subst. apply Qle_refl.
  - destruct y as [|v y]; [discriminate|]. destruct u as [|h u]; [discriminate|].
    simpl in Hxy, Hyu. inversion Hw as [|p w' ps yjs Hwi Hrest]; subst. inversion Hu as [|h' u' Hh Hu']; subst.
    rewrite !zip_with_cons, !qsum_cons.
    destruct Hwi as [Hwi _]; simpl in Hwi. destruct (Hwi Hh) as [Lo Hi].
    assert (Hd : Qabs (w' - v) <= h) by (apply Qabs_Qle_condition; lra).
    pose proof (IH y u yjs ltac:(lia) ltac:(lia) Hrest Hu') as Hr.
    setoid_replace (w xi * w' + Σ (zip_with (fun xi yi => w xi * yi) x yjs)
                    - (w xi * v + Σ (zip_with (fun xi yi => w xi * yi) x y)))
      with (w xi * (w' - v) + (Σ (zip_with (fun xi yi => w xi * yi) x yjs)
                               - Σ (zip_with (fun xi yi => w xi * yi) x y))) by ring.
    eapply Qle_trans; [apply Qabs_triangle|].
    rewrite Qabs_Qmult. apply Qplus_le_compat; [|exact Hr].
    pose proof (Qabs_nonneg (w xi)). nra.
Qed.

Section Ensemble.
Context {G : Type} `{BitGenerator G}.

(** A successful run is made of one successful sample per iteration. *)
Lemma multi_OLS_samples (x y u : list Q) (iterations : Z) (g : G)
      (sl il : list Q) (ml : list (list Q)) (g' : G) :
  runStateT (multi_OLS x y u iterations) g = inr ((sl, il, ml), g') ->
  exists fits,
    Forall2 (fun r si => r = inr si) (map (mc_sample x y u g) (seq 0 (Z.to_nat iterations))) fits /\
    sl = map fst fits /\ il = map snd fits /\
    ml = map (fun si => map (fun xi => xi * fst si + snd si) x) fits.
Proof.
  unfold multi_OLS. cbn. rewrite multi_OLS_loop_run.
  destruct (all_ok _) as [e|fits] eqn:E; [discriminate|]. rewrite fold_append_fit.
  intros [= <- <- <- _]. exists fits. repeat split. apply all_ok_inr. exact E.
Qed.

(** A property of every sample is a property of every slope and intercept
    of a run. *)
Lemma multi_OLS_fits (x y u : list Q) (iterations : Z) (g : G) (P1 P2 : Q -> Prop)
      (sl il : list Q) (ml : list (list Q)) (g' : G) :
  (forall k s i, mc_sample x y u g k = inr (s, i) -> P1 s /\ P2 i) ->
  runStateT (multi_OLS x y u iterations) g = inr ((sl, il, ml), g') ->
  Forall P1 sl /\ Forall P2 il.
Proof.
  intros HP Hr.
  destruct (multi_OLS_samples x y u iterations g sl il ml g' Hr) as (fits & F & -> & -> & _).
  assert (Hfit : forall si, In si fits -> P1 (fst si) /\ P2 (snd si)).
  { intros [s i] Hsi. destruct (Forall2_In_r _ _ _ _ F Hsi) as (r & Hr' & ->).
    apply in_map_iff in Hr' as (k & Hk & _). exact (HP k s i Hk). }
  split; apply Forall_forall; intros v Hv; apply in_map_iff in Hv as (si & <- & Hsi);
    apply (Hfit si Hsi).
Qed.

(** C16: a run of [multi_OLS] that returns gives exactly [iterations]
    slopes, intercepts and models (none for a negative count), each model
    with one value per position. *)
Theorem multi_OLS_size (x y u : list Q) (iterations : Z) (g : G)
      (sl il : list Q) (ml : list (list Q)) (g' : G) :
  runStateT (multi_OLS x y u iterations) g = inr ((sl, il, ml), g') ->
  length sl = Z.to_nat iterations /\ length il = Z.to_nat iterations /\
  length ml = Z.to_nat iterations /\ Forall (fun m => length m = length x) ml.
Proof.
  intros Hr. destruct (multi_OLS_samples x y u iterations g sl il ml g' Hr)
    as (fits & F & -> & -> & ->).
  apply Forall2_length in F. rewrite length_map, length_seq in F.
  rewrite !length_map. repeat split; try lia.
  apply Forall_forall. intros m Hm. apply in_map_iff in Hm as (si & <- & _).
  apply length_map.
Qed.

(** With aligned series and some position not 0, every sample is a line:
    [multi_OLS] returns. *)
Lemma multi_OLS_returns (x y u : list Q) (iterations : Z) (g : G) :
  x <> [] -> length x = length y -> length u = length y ->
  ~ (forall xi, In xi x -> xi == 0) ->
  exists res g', runStateT (multi_OLS x y u iterations) g = inr (res, g').
Proof.
  intros Hne Hxy Huy Hnz.
  assert (Hj : forall k, length x = length (fst (jiggle_pure (combine y u)
                          (advance (k * draws_per_iteration y u) g))))
    by (intros k; rewrite jiggle_pure_length, length_combine; lia).
  unfold multi_OLS. cbn. rewrite multi_OLS_loop_run.
  destruct (all_ok_ok (mc_sample x y u g) (seq 0 (Z.to_nat iterations))) as [fits Hf].
  - intros k _. unfold mc_sample, regress_data.
    destruct (polyfit1_returns x _ Hne (Hj k) Hnz) as (a & b & Hab).
    exists (a, b). exact Hab.
  - rewrite Hf. eexists _, _. reflexivity.
Qed.

(** C17: with as many values and uncertainties as positions, [multi_OLS]
    never raises when some position is not 0, whatever the generator
    state and the count; when every position is 0 and the count is
    positive, it raises [LinAlgError]. *)
Theorem multi_OLS_outcome (x y u : list Q) (iterations : Z) (g : G) :
  x <> [] -> length x = length y -> length u = length y ->
  (~ (forall xi, In xi x -> xi == 0) ->
     exists res g', runStateT (multi_OLS x y u iterations) g = inr (res, g')) /\
  ((forall xi, In xi x -> xi == 0) -> (0 < iterations)%Z ->
     runStateT (multi_OLS x y u iterations) g = inl LinAlgError).
Proof.
  intros Hne Hxy Huy. split; [exact (multi_OLS_returns x y u iterations g Hne Hxy Huy)|].
  assert (Hj : forall k, length x = length (fst (jiggle_pure (combine y u)
                          (advance (k * draws_per_iteration y u) g))))
    by (intros k; rewrite jiggle_pure_length, length_combine; lia).
  unfold multi_OLS. cbn. rewrite multi_OLS_loop_run.
  - intros Hz Hpos.
    destruct (Z.to_nat iterations) as [|K] eqn:EK; [lia|]. cbn [seq map all_ok].
    unfold mc_sample at 1, regress_data.
    rewrite (polyfit1_zero_positions x _ Hne (Hj 0%nat) Hz).
    reflexivity.
Qed.
End Ensemble.

Section Spread.
Context {G : Type} `{BitGeneratorLaws G}.

(** One sample lies within the weighted uncertainties of the fit of the
    unperturbed values. *)
Lemma sample_bound (x y u : list Q) (g : G) (k : nat) (a b s i : Q) :
  polyfit1 x y = inr (a, b) -> length u = length y -> Forall (Qle 0) u ->
  mc_sample x y u g k = inr (s, i) ->
  Qabs (s - a) <= Σ (zip_with (fun xi h => Qabs (slope_weight x xi) * h) x u) /\
  Qabs (i - b) <= Σ (zip_with (fun xi h => Qabs (intercept_weight x xi) * h) x u).
Proof.
  intros Hf Hl Hu Hs. unfold mc_sample, regress_data in Hs.
  set (yj := fst (jiggle_pure _ _)) in Hs.
  assert (Hw : Forall2 within (combine y u) yj) by apply jiggle_pure_within.
  destruct (polyfit1_success x y a b Hf) as (_ & Hxy & _).
  destruct (polyfit1_linear x y a b Hf) as [Ea Eb].
  destruct (polyfit1_linear x yj s i Hs) as [Es Ei].
  rewrite Ea, Eb, Es, Ei.
  split; apply weighted_diff_bound; auto.
Qed.

(** C8: every slope (and intercept) of a run of [multi_OLS] differs from
    the [polyfit] slope (and intercept) of the unperturbed values by at
    most [Σ |w_i| * unc_i], where [w_i] is the weight of value [i] in the
    fit: the spread of the ensemble is bounded by the perturbation. *)
Theorem multi_OLS_slope_bound (x y u : list Q) (iterations : Z) (g : G) (a b : Q)
      (sl il : list Q) (ml : list (list Q)) (g' : G) :
  polyfit1 x y = inr (a, b) -> length u = length y -> Forall (Qle 0) u ->
  runStateT (multi_OLS x y u iterations) g = inr ((sl, il, ml), g') ->
  Forall (fun s => Qabs (s - a) <= Σ (zip_with (fun xi h => Qabs (slope_weight x xi) * h) x u)) sl /\
  Forall (fun i => Qabs (i - b) <= Σ (zip_with (fun xi h => Qabs (intercept_weight x xi) * h) x u)) il.
Proof.
  intros Hf Hl Hu. apply multi_OLS_fits. intros k s i Hk.
  exact (sample_bound x y u g k a b s i Hf Hl Hu Hk).
Qed.

Lemma weighted_zero_sum (w : Q -> Q) (x u : list Q) :
  Forall (fun h => h == 0) u -> Σ (zip_with (fun xi h => Qabs (w xi) * h) x u) == 0.
Proof.
  intros Hu. unfold zip_with.
  rewrite (qsum_map_ext _ (fun _ => 0)).
  - rewrite qsum_map_const. ring.
  - intros [xi h] Hp. apply in_combine_r in Hp. rewrite Forall_forall in Hu.
    simpl. rewrite (Hu h Hp). ring.
Qed.

(** C26: with zero uncertainties the perturbation is a point mass: every
    slope and intercept of the ensemble equals the [polyfit] slope and
    intercept of the data. *)
Theorem multi_OLS_point_mass (x y u : list Q) (iterations : Z) (g : G) (a b : Q)
      (sl il : list Q) (ml : list (list Q)) (g' : G) :
  polyfit1 x y = inr (a, b) -> length u = length y -> Forall (fun h => h == 0) u ->
  runStateT (multi_OLS x y u iterations) g = inr ((sl, il, ml), g') ->
  Forall (fun s => s == a) sl /\ Forall (fun i => i == b) il.
Proof.
  intros Hf Hl Hz Hr.
  assert (Hu : Forall (Qle 0) u)
    by (apply (Forall_impl _ (fun h (E : h == 0) => proj2 (Qle_lteq 0 h) (or_intror (Qeq_sym _ _ E)))) ; exact Hz).
  pose proof (weighted_zero_sum (slope_weight x) x u Hz) as Zs.
  pose proof (weighted_zero_sum (intercept_weight x) x u Hz) as Zi.
  revert Hr. apply multi_OLS_fits. intros k s i Hk.
  destruct (sample_bound x y u g k a b s i Hf Hl Hu Hk) as [Bs Bi].
  apply Qabs_Qle_condition in Bs, Bi. split; lra.
Qed.
End Spread.

(** ** Concrete runs

    Positions [0, 1, 2], values [1, 2, 4], uncertainties [0.1] (doubled as
    at line 145 to [0.2]), and a recorded stream of generator words. *)

Definition run_x : list Q := [0; 1; 2].
Definition run_y : list Q := [1; 2; 4].
Definition run_u : list Q := [2 # 10; 2 # 10; 2 # 10].
Definition run_words : stream_gen :=
  [2654435769; 1013904223; 1664525; 22695477; 134775813; 214013; 2531011; 3039177861;
   1103515245; 12345; 69069; 4294967291]%Z.

Lemma jiggle_data_bounds_witness :
  exists yj g', runStateT (jiggle_data run_y run_u) run_words = inr (yj, g') /\
                Forall2 within (combine run_y run_u) yj.
Proof.
  destruct (runStateT (jiggle_data run_y run_u) run_words) as [e|[yj g']] eqn:E;
    [vm_compute in E; discriminate|].
  exists yj, g'. split; [reflexivity|]. exact (jiggle_data_bounds run_y run_u run_words yj g' E).
Defined.

Lemma multi_OLS_size_witness :
  exists sl il ml g', runStateT (multi_OLS run_x run_y run_u 2) run_words = inr ((sl, il, ml), g') /\
    length sl = 2%nat /\ length il = 2%nat /\ length ml = 2%nat /\
    Forall (fun m => length m = length run_x) ml.
Proof.
  destruct (runStateT (multi_OLS run_x run_y run_u 2) run_words) as [e|[[[sl il] ml] g']] eqn:E;
    [vm_compute in E; discriminate|].
  exists sl, il, ml, g'. split; [reflexivity|].
  exact (multi_OLS_size run_x run_y run_u 2 run_words sl il ml g' E).
Defined.

Lemma multi_OLS_outcome_witness :
  (exists res g', runStateT (multi_OLS run_x run_y run_u 3) run_words = inr (res, g')) /\
  runStateT (multi_OLS [0; 0; 0] run_y run_u 3) run_words = inl LinAlgError.
Proof.
  split.
  - apply (proj1 (multi_OLS_outcome run_x run_y run_u 3 run_words
                    ltac:(discriminate) eq_refl eq_refl)).
    intros Hz. specialize (Hz 1 (or_intror (or_introl eq_refl))). discriminate.
  - apply (proj2 (multi_OLS_outcome [0; 0; 0] run_y run_u 3 run_words
                    ltac:(discriminate) eq_refl eq_refl)); [|reflexivity].
    intros xi [<-|[<-|[<-|[]]]]; reflexivity.
Defined.

Lemma multi_OLS_slope_bound_witness :
  exists a b sl il ml g',
    polyfit1 run_x run_y = inr (a, b) /\
    runStateT (multi_OLS run_x run_y run_u 2) run_words = inr ((sl, il, ml), g') /\
    Forall (fun s => Qabs (s - a) <= Σ (zip_with (fun xi h => Qabs (slope_weight run_x xi) * h) run_x run_u)) sl.
Proof.
  destruct (polyfit1 run_x run_y) as [e|[a b]] eqn:F; [vm_compute in F; discriminate|].
  destruct (runStateT (multi_OLS run_x run_y run_u 2) run_words) as [e|[[[sl il] ml] g']] eqn:E;
    [vm_compute in E; discriminate|].
  exists a, b, sl, il, ml, g'. split; [reflexivity|split; [reflexivity|]].
  apply (multi_OLS_slope_bound run_x run_y run_u 2 run_words a b sl il ml g' F eq_refl); [|exact E].
  unfold run_u. repeat apply Forall_cons; try apply Forall_nil; unfold Qle; simpl; lia.
Defined.

Lemma multi_OLS_point_mass_witness :
  exists a b sl il ml g',
    polyfit1 run_x run_y = inr (a, b) /\
    runStateT (multi_OLS run_x run_y [0; 0; 0] 2) run_words = inr ((sl, il, ml), g') /\
    Forall (fun s => s == a) sl /\ Forall (fun i => i == b) il.
Proof.
  destruct (polyfit1 run_x run_y) as [e|[a b]] eqn:F; [vm_compute in F; discriminate|].
  destruct (runStateT (multi_OLS run_x run_y [0; 0; 0] 2) run_words) as [e|[[[sl il] ml] g']] eqn:E;
    [vm_compute in E; discriminate|].
  exists a, b, sl, il, ml, g'. split; [reflexivity|split; [reflexivity|]].
  apply (multi_OLS_point_mass run_x run_y [0; 0; 0] 2 run_words a b sl il ml g' F eq_refl); [|exact E].
  repeat constructor.
Defined.

(** A negative uncertainty does not collapse the window to a point:
    with [unc = -1] around [1] and the generator's first double [0],
    [jiggle_data] draws [2]. *)
Example jiggle_negative_unc_not_point_mass :
  exists w g', runStateT (jiggle_data [1] [-1]) ([] : stream_gen) = inr ([w], g') /\ w == 2.
Proof. eexists _, _. split; reflexivity. Qed.
