(* ===== verification/Loader.v ===== *)
(** * Loader: lines 13-23 of src/Regressions_Notebook.py

<<
      data_df = pd.read_csv('TEX_data.csv')
      analytical_unc = np.mean(data_df['TEX86_stdev'])
      data_df['TEX86_stdev'].fillna(analytical_unc, inplace=True)
      depth_mask = [19, 100]
      data_df = data_df.mask(data_df.mask(data_df['Depth_cmcd']>=min(depth_mask))
                             ['Depth_cmcd']<=max(depth_mask)).dropna()
      x = data_df['Depth_cmcd']; y = data_df['TEX86']; unc_y = data_df['TEX86_stdev']
>>
    The table is a list of rows; a cell is [option Q] ([None] is pandas'
    [NaN]).  Besides the three named columns a row keeps its other columns,
    because [dropna] looks at all of them.  pandas semantics modelled:
    [Series.mean] skips [NaN] (and is [NaN] when nothing is left); a
    comparison with [NaN] is [False]; [DataFrame.mask(cond)] replaces every
    cell of a row whose [cond] is [True] by [NaN], [cond] being aligned with
    the rows by index; [dropna] keeps the rows without a [NaN] cell. *)

From Stdlib Require Import QArith Qminmax Lqa List Lia Bool.
From S2P Require Import Prelude.
Import ListNotations.
Open Scope Q_scope.
Open Scope tex_scope.

(** ** The table *)

Record row := mk_row {
  Depth_cmcd : option Q;
  TEX86 : option Q;
  TEX86_stdev : option Q;
  other_cols : list (option Q)
}.

Definition frame := list row.

(** ** Column operations *)

(** The present values of a column. *)
Fixpoint present (col : list (option Q)) : list Q :=
  match col with
  | [] => []
  | Some v :: rest => v :: present rest
  | None :: rest => present rest
  end.

(** [np.mean(series)], that is [Series.mean(skipna=True)]. *)
Definition mean_skipna (col : list (option Q)) : option Q :=
  match present col with
  | [] => None
  | vs => Some (Σ vs / qlen vs)
  end.

(** [fillna(value)] of one cell. *)
Definition fill_cell (value : option Q) (cell : option Q) : option Q :=
  match cell with
  | Some v => Some v
  | None => value
  end.

(** [data_df['TEX86_stdev'].fillna(analytical_unc, inplace=True)] *)
Definition fillna_stdev (value : option Q) (df : frame) : frame :=
  map (fun r => mk_row (Depth_cmcd r) (TEX86 r) (fill_cell value (TEX86_stdev r)) (other_cols r)) df.

(** [series >= c] and [series <= c]: [False] on [NaN]. *)
Definition ge_cell (cell : option Q) (c : Q) : bool :=
  match cell with Some v => Qle_bool c v | None => false end.

Definition le_cell (cell : option Q) (c : Q) : bool :=
  match cell with Some v => Qle_bool v c | None => false end.

(** A row of [NaN] of the same width. *)
Definition nan_row (r : row) : row :=
  mk_row None None None (map (fun _ => @None Q) (other_cols r)).

(** [df.mask(cond)] with [cond] aligned with the rows. *)
Definition mask (cond : list bool) (df : frame) : frame :=
  zip_with (fun (c : bool) (r : row) => if c then nan_row r else r) cond df.

Definition complete (r : row) : bool :=
  match Depth_cmcd r, TEX86 r, TEX86_stdev r with
  | Some _, Some _, Some _ => forallb (fun c => match c with Some _ => true | None => false end)
                                      (other_cols r)
  | _, _, _ => false
  end.

(** [df.dropna()] *)
Definition dropna (df : frame) : frame := filter complete df.

(** ** The loader *)

Definition depth_mask : list Q := [19; 100].

(** Python's [min] and [max] of a non-empty list. *)
Definition py_min (l : list Q) : Q := match l with [] => 0 | a :: rest => fold_left Qmin rest a end.
Definition py_max (l : list Q) : Q := match l with [] => 0 | a :: rest => fold_left Qmax rest a end.

(** Line 19 for an arbitrary window [[lo, hi]]. *)
Definition depth_filter (lo hi : Q) (df : frame) : frame :=
  let inner := mask (map (fun r => ge_cell (Depth_cmcd r) lo) df) df in
  let cond := map (fun r => le_cell (Depth_cmcd r) hi) inner in
  dropna (mask cond df).

(** Lines 16-19. *)
Definition load (df : frame) : frame :=
  let analytical_unc := mean_skipna (map TEX86_stdev df) in
  let df1 := fillna_stdev analytical_unc df in
  depth_filter (py_min depth_mask) (py_max depth_mask) df1.

(** Lines 21-23: the columns, read after [dropna] (where no cell is missing). *)
Definition column (f : row -> option Q) (df : frame) : list Q :=
  map (fun r => match f r with Some v => v | None => 0 end) df.

Definition columns (df : frame) : list Q * list Q * list Q :=
  (column Depth_cmcd df, column TEX86 df, column TEX86_stdev df).

(** ** What the double mask keeps *)

Lemma mask_map (f : row -> bool) (df : frame) :
  mask (map f df) df = map (fun r => if f r then nan_row r else r) df.
Proof. induction df as [|r df IH]; simpl; [reflexivity|]. rewrite <- IH. reflexivity. Qed.

Lemma nan_row_incomplete (r : row) : complete (nan_row r) = false.
Proof. reflexivity. Qed.

(** [dropna] after a map that blanks some rows and keeps the others. *)
Lemma dropna_map_blank (h : row -> row) (df : frame) :
  (forall r, complete (h r) = true -> h r = r) ->
  dropna (map h df) = filter (fun r => complete (h r)) df.
Proof.
  intros Hh. unfold dropna. induction df as [|r df IH]; simpl; [reflexivity|].
  destruct (complete (h r)) eqn:E; [rewrite (Hh r E)|]; rewrite IH; reflexivity.
Qed.

(** For a window with [lo <= hi] the double mask removes exactly the rows
    whose depth is below [lo] or missing, and [dropna] the incomplete ones. *)
Lemma depth_filter_spec (lo hi : Q) (df : frame) :
  lo <= hi ->
  depth_filter lo hi df = filter (fun r => ge_cell (Depth_cmcd r) lo && complete r) df.
Proof.
  intros Hlh. unfold depth_filter. rewrite mask_map, map_map, mask_map.
  rewrite dropna_map_blank.
  - apply filter_ext. intros [[d|] t s o]; unfold ge_cell, le_cell; simpl; [|reflexivity].
    destruct (Qle_bool lo d) eqn:E; simpl; [reflexivity|].
    assert (Hd : Qle_bool d hi = true).
    { apply Qle_bool_iff.
      assert (~ lo <= d) by (intro C; apply Qle_bool_iff in C; congruence). lra. }
    rewrite Hd. reflexivity.
  - intros r. match goal with |- complete (if ?b then _ else _) = true -> _ => destruct b end;
      [discriminate|reflexivity].
Qed.

Lemma depth_mask_bounds : py_min depth_mask = 19 /\ py_max depth_mask = 100.
Proof. split; reflexivity. Qed.


Lemma complete_cells (r : row) :
  complete r = true ->
  exists d t s, Depth_cmcd r = Some d /\ TEX86 r = Some t /\ TEX86_stdev r = Some s.
Proof.
  unfold complete. destruct (Depth_cmcd r) as [d|], (TEX86 r) as [t|], (TEX86_stdev r) as [s|];
    try discriminate. intros _. exists d, t, s. auto.
Qed.

(** The loader is a filter of the filled table: rows whose depth is at
    least [min(depth_mask) = 19] and whose cells are all present. *)
Lemma load_filter (df : frame) :
  load df = filter (fun r => ge_cell (Depth_cmcd r) 19 && complete r)
                   (fillna_stdev (mean_skipna (map TEX86_stdev df)) df).
Proof.
  unfold load. rewrite (proj1 depth_mask_bounds), (proj2 depth_mask_bounds).
  apply depth_filter_spec. unfold Qle; simpl; lia.
Qed.

Lemma load_complete (df : frame) : Forall (fun r => complete r = true) (load df).
Proof.
  rewrite load_filter.
  apply Forall_forall. intros r Hr. apply filter_In in Hr as [_ Hr].
  apply andb_true_iff in Hr. tauto.
Qed.

(** C5: a row is in the loaded table exactly when it is a row of the
    file, with its missing uncertainty filled by the mean of the present
    ones, whose depth is at least [min(depth_mask) = 19] and whose cells
    are all present: the window [[19, 100]] is not excluded, and depths
    above [100] are kept. *)
Theorem load_spec (df : frame) (r : row) :
  In r (load df) <->
  exists r0, In r0 df /\
    r = mk_row (Depth_cmcd r0) (TEX86 r0)
               (fill_cell (mean_skipna (map TEX86_stdev df)) (TEX86_stdev r0)) (other_cols r0) /\
    ge_cell (Depth_cmcd r) 19 = true /\ complete r = true.
Proof.
  rewrite load_filter, filter_In, andb_true_iff. unfold fillna_stdev. rewrite in_map_iff.
  split.
  - intros ((r0 & <- & H0) & Hge & Hc). exists r0. auto.
  - intros (r0 & H0 & -> & Hge & Hc). split; [exists r0; auto|auto].
Qed.

Definition obs (d t s : Q) : row := mk_row (Some d) (Some t) (Some s) [].

(** Three complete observations at depths 10, 50 and 150: the one
    inside the window [[19, 100]] and the one beyond it are kept, the one
    above the window is removed. *)
Example load_keeps_window :
  load [obs 10 (1 # 2) (1 # 100); obs 50 (1 # 2) (1 # 100); obs 150 (1 # 2) (1 # 100)]
  = [obs 50 (1 # 2) (1 # 100); obs 150 (1 # 2) (1 # 100)].
Proof. reflexivity. Qed.

(** The three columns taken after the filter are index-aligned: they
    have the same length and their [k]-th entries are the cells of the
    [k]-th kept row. *)
Theorem load_columns_aligned (df : frame) :
  let '(x, y, u) := columns (load df) in
  length x = length (load df) /\ length y = length (load df) /\ length u = length (load df) /\
  forall k r, nth_error (load df) k = Some r ->
    exists d t s, Depth_cmcd r = Some d /\ TEX86 r = Some t /\ TEX86_stdev r = Some s /\
      nth_error x k = Some d /\ nth_error y k = Some t /\ nth_error u k = Some s.
Proof.
  unfold columns, column. rewrite !length_map. split; [reflexivity|split; [reflexivity|split; [reflexivity|]]].
  intros k r Hk.
  pose proof (proj1 (Forall_forall _ _) (load_complete df) r (nth_error_In _ _ Hk)) as Hc.
  destruct (complete_cells r Hc) as (d & t & s & Hd & Ht & Hs).
  exists d, t, s. rewrite !nth_error_map, Hk. simpl. rewrite Hd, Ht, Hs. auto 6.
Qed.

(** C28: a complete row whose only missing cell is its uncertainty, at a
    depth of at least 19, is kept with the mean of the present
    uncertainties in place of the missing one. *)
Theorem load_imputes_missing (df : frame) (r : row) (m : Q) :
  In r df -> TEX86_stdev r = None -> ge_cell (Depth_cmcd r) 19 = true ->
  complete (mk_row (Depth_cmcd r) (TEX86 r) (Some m) (other_cols r)) = true ->
  mean_skipna (map TEX86_stdev df) = Some m ->
  In (mk_row (Depth_cmcd r) (TEX86 r) (Some m) (other_cols r)) (load df).
Proof.
  intros Hin Hs Hge Hc Hm. rewrite load_filter, Hm. apply filter_In. split.
  - unfold fillna_stdev. apply in_map_iff. exists r. rewrite Hs. split; [reflexivity|exact Hin].
  - simpl. rewrite Hge, Hc. reflexivity.
Qed.

(** An uncertainty of 0 is not replaced: the loader keeps it. *)
Example load_keeps_zero_stdev :
  load [obs 50 (1 # 2) 0; obs 60 (1 # 2) (1 # 100)] = [obs 50 (1 # 2) 0; obs 60 (1 # 2) (1 # 100)].
Proof. reflexivity. Qed.

Lemma load_imputes_missing_witness :
  let df := [mk_row (Some 50) (Some (1 # 2)) None []; obs 60 (1 # 2) (1 # 100)] in
  exists m, mean_skipna (map TEX86_stdev df) = Some m /\ m == 1 # 100 /\
            In (mk_row (Some 50) (Some (1 # 2)) (Some m) []) (load df).
Proof.
  cbv zeta.
  destruct (mean_skipna (map TEX86_stdev [mk_row (Some 50) (Some (1 # 2)) None []; obs 60 (1 # 2) (1 # 100)]))
    as [m|] eqn:Hm; [|discriminate].
  exists m. split; [reflexivity|]. split; [injection Hm as <-; reflexivity|].
  apply (load_imputes_missing _ (mk_row (Some 50) (Some (1 # 2)) None []) m);
    [left; reflexivity|reflexivity|reflexivity|reflexivity|exact Hm].
Defined.
