(* ===== verification/Matrix.v ===== *)
(** * Matrix: the numpy array operations of lines 63-70

    Lines 63-70 of src/Regressions_Notebook.py build the design matrix with
    [np.c_[np.ones(n), x]], transpose it with [.T], multiply with [@],
    build a diagonal matrix with [np.diag] and invert with [np.linalg.inv].
    A 2-D array is a record of its shape and its rows; an entry outside the
    rows reads as 0, which never happens for the arrays built here.  [@]
    raises [ValueError] on shapes that do not match, as numpy does.

    [np.linalg.inv] calls LAPACK's [gesv] (LU factorisation with partial
    pivoting, then solves against the identity).  In exact arithmetic the
    inverse it returns is the unique one, and it raises [LinAlgError] when
    the matrix is singular or not square.  [inv_rows] computes it by
    recursive Gaussian elimination: the first row with a non-zero leading
    entry is the pivot, the trailing block is updated by the Schur
    complement (a row whose multiplier is 0 is left as it is, as the
    reference BLAS [dger] does), and the inverse is assembled from the
    inverse of the Schur complement. *)

From Stdlib Require Import QArith Lqa List Lia Bool.
From S2P Require Import Prelude.
Import ListNotations.
Open Scope Q_scope.
Open Scope tex_scope.

(** ** Arrays *)

Record mat := mk_mat { nrows : nat; ncols : nat; rows : list (list Q) }.

Definition entry (A : mat) (i j : nat) : Q := nth j (nth i (rows A) []) 0.

(** [np.c_[np.ones(x.shape[0]), x]] *)
Definition c_ones (x : list Q) : mat := mk_mat (length x) 2 (map (fun xi => [1; xi]) x).

(** [A.T] *)
Definition transpose (A : mat) : mat :=
  mk_mat (ncols A) (nrows A)
    (map (fun j => map (fun i => entry A i j) (seq 0 (nrows A))) (seq 0 (ncols A))).

(** [A @ B] for two 2-D arrays. *)
Definition matmul (A B : mat) : result mat :=
  if Nat.eqb (ncols A) (nrows B) then
    inr (mk_mat (nrows A) (ncols B)
           (map (fun i => map (fun j => Σ (map (fun k => entry A i k * entry B k j)
                                               (seq 0 (ncols A))))
                              (seq 0 (ncols B)))
                (seq 0 (nrows A))))
  else inl ValueError_shape.

(** [A @ v] for a 2-D array and a 1-D array. *)
Definition matvec (A : mat) (v : list Q) : result (list Q) :=
  if Nat.eqb (ncols A) (length v) then
    inr (map (fun i => Σ (map (fun k => entry A i k * nth k v 0) (seq 0 (ncols A))))
             (seq 0 (nrows A)))
  else inl ValueError_shape.

(** The rows of the diagonal matrix of [d]. *)
Fixpoint diag_rows (d : list Q) : list (list Q) :=
  match d with
  | [] => []
  | d0 :: ds => (d0 :: repeat 0 (length ds)) :: map (cons 0) (diag_rows ds)
  end.

(** [np.diag(d)] for a 1-D [d]. *)
Definition np_diag (d : list Q) : mat := mk_mat (length d) (length d) (diag_rows d).

(** ** Inversion *)

(** Index of the first row whose leading entry is not 0. *)
Fixpoint pivot_index (A : list (list Q)) : option nat :=
  match A with
  | [] => None
  | row :: rest =>
      if Qeq_bool (hd 0 row) 0 then option_map S (pivot_index rest) else Some 0%nat
  end.

(** Exchange the elements [0] and [p] of a list. *)
Definition swap0 {X} (p : nat) (l : list X) : list X :=
  match p, l with
  | O, _ => l
  | S _, [] => l
  | S _, x0 :: rest =>
      match nth_error l p with
      | Some xp => xp :: firstn (pred p) rest ++ x0 :: skipn p rest
      | None => l
      end
  end.

(** [r @ S] for a row vector [r] and the rows of [S]. *)
Definition row_times (r : list Q) (S : list (list Q)) (n : nat) : list Q :=
  map (fun j => Σ (zip_with (fun rk Sk => rk * nth j Sk 0) r S)) (seq 0 n).

(** [S @ c] for the rows of [S] and a column [c]. *)
Definition times_col (S : list (list Q)) (c : list Q) : list Q :=
  map (fun Si => Σ (zip_with Qmult Si c)) S.

Fixpoint inv_rows (n : nat) (A : list (list Q)) : result (list (list Q)) :=
  match n with
  | O => inr []
  | S n' =>
      match pivot_index A with
      | None => inl LinAlgError
      | Some p =>
          let A1 := swap0 p A in
          let row0 := hd [] A1 in
          let rest := tl A1 in
          let a := hd 0 row0 in
          let r := tl row0 in
          let c := map (hd 0) rest in
          let M := map (@tl Q) rest in
          let S := zip_with (fun ci Mi =>
                               if Qeq_bool ci 0 then Mi
                               else zip_with (fun rj mij => mij - ci * rj / a) r Mi) c M in
          match inv_rows n' S with
          | inl e => inl e
          | inr Sinv =>
              let u := row_times r Sinv n' in
              let v := times_col Sinv c in
              let top := (1 / a + Σ (zip_with Qmult u c) / (a * a)) :: map (fun uj => - uj / a) u in
              let bottom := zip_with (fun vi Si => (- vi / a) :: Si) v Sinv in
              inr (map (swap0 p) (top :: bottom))
          end
      end
  end.

(** [np.linalg.inv(A)] *)
Definition linalg_inv (A : mat) : result mat :=
  if Nat.eqb (nrows A) (ncols A) then
    match inv_rows (nrows A) (rows A) with
    | inl e => inl e
    | inr B => inr (mk_mat (nrows A) (nrows A) B)
    end
  else inl LinAlgError.

(** ** Entries *)

(** Entry-wise [Qeq] of two lists of rows. *)
Definition qmat_eq : list (list Q) -> list (list Q) -> Prop := Forall2 qlist_eq.

Lemma qlist_eq_nth (l1 l2 : list Q) (j : nat) :
  qlist_eq l1 l2 -> nth j l1 0 == nth j l2 0.
Proof.
  intros H. revert j; induction H as [|x y l1 l2 Hxy _ IH]; intros [|j]; simpl;
    [reflexivity|reflexivity|exact Hxy|apply IH].
Qed.

Lemma qmat_eq_entry (A B : list (list Q)) (i j : nat) :
  qmat_eq A B -> nth j (nth i A []) 0 == nth j (nth i B []) 0.
Proof.
  intros H. revert i; induction H as [|r1 r2 A B Hr _ IH]; intros [|i]; simpl;
    [reflexivity|reflexivity|apply qlist_eq_nth; exact Hr|apply IH].
Qed.

Lemma nth_map_cons0 (R : list (list Q)) (i j : nat) :
  nth j (nth i (map (cons 0) R) []) 0 = match j with O => 0 | S j' => nth j' (nth i R []) 0 end.
Proof.
  revert i; induction R as [|row R IH]; intros [|i]; simpl;
    [destruct j as [|[|j]]; reflexivity|destruct j as [|[|j]]; reflexivity|destruct j; reflexivity|apply IH].
Qed.

(** The entries of [np.diag(d)]. *)
Lemma entry_diag_rows (d : list Q) (i j : nat) :
  nth j (nth i (diag_rows d) []) 0 = if Nat.eqb i j then nth i d 0 else 0.
Proof.
  revert i j; induction d as [|d0 ds IH]; intros i j.
  - destruct i, j; simpl; try reflexivity. destruct (Nat.eqb i j); reflexivity.
  - destruct i as [|i]; simpl.
    + destruct j as [|j]; [reflexivity|]. simpl. apply nth_repeat.
    + rewrite nth_map_cons0. destruct j as [|j]; [reflexivity|]. apply IH.
Qed.

Lemma length_diag_rows (d : list Q) : length (diag_rows d) = length d.
Proof. induction d; simpl; [reflexivity|]. rewrite length_map, IHd. reflexivity. Qed.

(** ** The inverse of a diagonal matrix *)

Lemma qsum_zip_repeat0 {B} (f : Q -> B -> Q) (n : nat) (l : list B) :
  (forall b, f 0 b == 0) -> Σ (zip_with f (repeat 0 n) l) == 0.
Proof.
  intros Hf. revert l; induction n as [|n IH]; intros [|b l]; simpl; try reflexivity.
  unfold qsum in *; simpl. rewrite Hf. specialize (IH l). simpl in IH. rewrite IH. ring.
Qed.

Lemma qsum_zip_mult_zeros (l : list Q) {B} (R : list B) :
  Σ (zip_with Qmult l (map (fun _ => 0) R)) == 0.
Proof.
  revert R; induction l as [|a l IH]; intros [|b R]; simpl; try reflexivity.
  unfold qsum in *; simpl. specialize (IH R). simpl in IH. rewrite IH. ring.
Qed.

Lemma qlist_eq_zeros (l : list Q) (n : nat) :
  length l = n -> (forall x, In x l -> x == 0) -> qlist_eq l (repeat 0 n).
Proof.
  revert n; induction l as [|x l IH]; intros [|n] Hl Hz; simpl in Hl; try discriminate;
    constructor; [apply Hz; left; reflexivity|apply IH; [lia|intros y Hy; apply Hz; right; exact Hy]].
Qed.

(** The Schur update skips the rows whose multiplier is 0. *)
Lemma schur_skip_zero (F : Q -> list Q -> list Q) (R : list (list Q)) :
  zip_with (fun ci Mi => if Qeq_bool ci 0 then Mi else F ci Mi) (map (fun _ => 0) R) R = R.
Proof. induction R as [|Mi R IH]; [reflexivity|]. cbn [map]. rewrite zip_with_cons. f_equal. exact IH. Qed.

Lemma zip_with_map_l_self {X Y} (g : X -> list Y -> Y) (h : list Y -> X) (S : list (list Y)) :
  zip_with (fun vi Si => g vi Si :: Si) (map h S) S = map (fun Si => g (h Si) Si :: Si) S.
Proof. induction S as [|Si S IH]; [reflexivity|]. cbn [map]. rewrite zip_with_cons. f_equal. exact IH. Qed.

(** [np.linalg.inv(np.diag(d))] is [np.diag(1/d)] when no entry of [d] is 0. *)
Lemma inv_rows_diag (d : list Q) :
  (forall x, In x d -> ~ x == 0) ->
  exists B, inv_rows (length d) (diag_rows d) = inr B /\
            qmat_eq B (diag_rows (map (fun x => 1 / x) d)).
Proof.
  induction d as [|d0 ds IH]; intros Hnz; [exists []; split; constructor|].
  destruct IH as (Sinv & HS & Heq); [intros x Hx; apply Hnz; right; exact Hx|].
  assert (Hd0 : ~ d0 == 0) by (apply Hnz; left; reflexivity).
  cbn [length diag_rows inv_rows pivot_index hd]. rewrite (Qeq_bool_false _ _ Hd0).
  cbn [swap0 hd tl]. rewrite !map_map. cbn [hd tl]. rewrite map_id, schur_skip_zero, HS.
  eexists. split; [reflexivity|].
  rewrite (map_ext (swap0 0) (fun l => l)) by reflexivity. rewrite map_id.
  cbn [map diag_rows]. rewrite length_map.
  constructor.
  - constructor.
    + rewrite qsum_zip_mult_zeros. field. exact Hd0.
    + apply qlist_eq_zeros; [unfold row_times; rewrite !length_map, length_seq; reflexivity|].
      intros y Hy. apply in_map_iff in Hy as (uj & <- & Hu).
      unfold row_times in Hu. apply in_map_iff in Hu as (j & <- & _).
      rewrite qsum_zip_repeat0 by (intros; ring). field. exact Hd0.
  - unfold times_col. rewrite zip_with_map_l_self.
    clear HS. induction Heq as [|Si Ti S T HST _ IHS]; [constructor|].
    cbn [map]. constructor; [constructor; [|exact HST]|exact IHS].
    rewrite qsum_zip_mult_zeros. field. exact Hd0.
Qed.

(** ** The inverse of a 2x2 matrix *)

(** Case analysis on the [Qeq_bool] tests the elimination makes, turned into
    [Qeq] facts. *)
Ltac split_qeq :=
  repeat match goal with
  | |- context [Qeq_bool ?x 0] =>
      let H := fresh "E" in destruct (Qeq_bool x 0) eqn:H; cbn
  end;
  repeat match goal with
  | H : Qeq_bool _ _ = true |- _ => apply Qeq_bool_eq in H
  | H : Qeq_bool _ _ = false |- _ => apply Qeq_bool_neq in H
  end.

Definition inv2 (a b c d : Q) : list (list Q) :=
  let D := a * d - b * c in [[d / D; - b / D]; [- c / D; a / D]].

(** Substitute the variables known to be 0. *)
Ltac rewrite_zeros :=
  repeat match goal with H : ?v == 0 |- _ => is_var v; rewrite H in *; clear H end.

(** [np.linalg.inv] of [[a, b], [c, d]] is the adjugate divided by the
    determinant, and raises [LinAlgError] exactly when the determinant is 0. *)
Lemma inv_rows_2x2_regular (a b c d : Q) :
  ~ a * d - b * c == 0 ->
  exists B, inv_rows 2 [[a; b]; [c; d]] = inr B /\ qmat_eq B (inv2 a b c d).
Proof.
  intros HD. unfold inv2.
  cbn; destruct (Qeq_bool a 0) eqn:Ha, (Qeq_bool c 0) eqn:Hc; cbn; rewrite ?Ha, ?Hc; cbn; split_qeq.
  all: try (eexists; split; [reflexivity|]; repeat constructor; rewrite_zeros; field; auto; fail).
  all: exfalso; apply HD; try (rewrite_zeros; ring).
  setoid_replace (a * d - b * c) with (a * (d - c * b / a)) by (field; exact Ha).
  rewrite E. ring.
Qed.

Lemma inv_rows_2x2_singular (a b c d : Q) :
  a * d - b * c == 0 -> inv_rows 2 [[a; b]; [c; d]] = inl LinAlgError.
Proof.
  intros HD.
  cbn; destruct (Qeq_bool a 0) eqn:Ha, (Qeq_bool c 0) eqn:Hc; cbn; rewrite ?Ha, ?Hc; cbn; split_qeq;
    try reflexivity.
  all: exfalso; rewrite_zeros.
  - assert (Z : b * c == 0) by (setoid_replace (b * c) with (- (0 * d - b * c)) by ring; rewrite HD; reflexivity).
    destruct (Qmult_integral _ _ Z); contradiction.
  - assert (Z : a * d == 0) by (setoid_replace (a * d) with (a * d - b * 0) by ring; exact HD).
    destruct (Qmult_integral _ _ Z); contradiction.
  - assert (Z : a * (d - c * b / a) == 0)
      by (setoid_replace (a * (d - c * b / a)) with (a * d - b * c) by (field; exact Ha); exact HD).
    destruct (Qmult_integral _ _ Z); contradiction.
Qed.

(** ** Sums over indices *)

Lemma map_nth_seq_self {X} (l : list X) (d : X) :
  map (fun k => nth k l d) (seq 0 (length l)) = l.
Proof.
  induction l as [|a l IH]; [reflexivity|]. cbn [length seq map nth].
  rewrite <- seq_shift, map_map. cbn [nth]. rewrite IH. reflexivity.
Qed.

Lemma map_seq_nth (f : Q -> Q) (x : list Q) :
  map (fun k => f (nth k x 0)) (seq 0 (length x)) = map f x.
Proof. rewrite <- (map_map (fun k => nth k x 0) f), map_nth_seq_self. reflexivity. Qed.

Lemma map_seq_nth2 (g : Q -> Q -> Q) (x y : list Q) :
  length x = length y ->
  map (fun k => g (nth k x 0) (nth k y 0)) (seq 0 (length x)) = zip_with g x y.
Proof.
  revert y; induction x as [|a x IH]; intros [|b y] H; simpl in H; try discriminate; [reflexivity|].
  cbn [length seq map nth]. rewrite <- seq_shift, map_map. cbn [nth].
  rewrite zip_with_cons, IH by lia. reflexivity.
Qed.

(** A sum against a column of a diagonal matrix picks one term. *)
Lemma qsum_seq_delta (f : nat -> Q) (c : Q) (n j : nat) :
  (j < n)%nat ->
  Σ (map (fun k => f k * (if Nat.eqb k j then c else 0)) (seq 0 n)) == f j * c.
Proof.
  intros Hj. revert j Hj f; induction n as [|n IH]; intros j Hj f; [lia|].
  cbn [seq map]. rewrite qsum_cons, <- seq_shift, map_map.
  destruct j as [|j].
  - cbn [Nat.eqb]. rewrite (qsum_map_ext_all _ (fun _ => 0)).
    + rewrite qsum_map_const. ring.
    + intros k. cbn [Nat.eqb]. ring.
  - cbn [Nat.eqb]. rewrite (IH j ltac:(lia) (fun k => f (S k))). ring.
Qed.

(** ** Entries of the arrays the code builds *)

Lemma entry_tabulate (r c : nat) (F : nat -> nat -> Q) (i j : nat) :
  (i < r)%nat -> (j < c)%nat ->
  entry (mk_mat r c (map (fun i => map (fun j => F i j) (seq 0 c)) (seq 0 r))) i j = F i j.
Proof. intros Hi Hj. unfold entry; simpl. rewrite !nth_map_seq by assumption. reflexivity. Qed.

Lemma entry_c_ones (x : list Q) (k j : nat) :
  (k < length x)%nat -> entry (c_ones x) k j = nth j [1; nth k x 0] 0.
Proof.
  intros Hk. unfold entry, c_ones; simpl.
  rewrite nth_indep with (d' := [1; 0]) by (rewrite length_map; exact Hk).
  rewrite (map_nth (fun xi => [1; xi]) x 0 k). reflexivity.
Qed.

Lemma entry_transpose (A : mat) (i k : nat) :
  (i < ncols A)%nat -> (k < nrows A)%nat -> entry (transpose A) i k = entry A k i.
Proof. intros Hi Hk. apply (entry_tabulate (ncols A) (nrows A) (fun j i => entry A i j)); assumption. Qed.

(** The entries of [X.T] for the design [X = c_[ones, x]]: a row of ones
    and the row of positions. *)
Lemma entry_design_T (x : list Q) (i k : nat) :
  (k < length x)%nat ->
  entry (transpose (c_ones x)) 0 k = 1 /\ entry (transpose (c_ones x)) 1 k = nth k x 0.
Proof.
  intros Hk. rewrite !entry_transpose by (simpl; lia).
  rewrite !entry_c_ones by exact Hk. split; reflexivity.
Qed.

Lemma matmul_entry (A B C : mat) :
  matmul A B = inr C ->
  nrows C = nrows A /\ ncols C = ncols B /\ ncols A = nrows B /\
  forall i j, (i < nrows A)%nat -> (j < ncols B)%nat ->
    entry C i j = Σ (map (fun k => entry A i k * entry B k j) (seq 0 (ncols A))).
Proof.
  unfold matmul. destruct (PeanoNat.Nat.eqb_spec (ncols A) (nrows B)) as [E|E]; [|discriminate].
  intros [= <-]. repeat split; [exact E|]. intros i j Hi Hj. apply entry_tabulate; assumption.
Qed.

Lemma matmul_ok (A B : mat) :
  ncols A = nrows B -> exists C, matmul A B = inr C.
Proof. intros E. unfold matmul. rewrite (proj2 (PeanoNat.Nat.eqb_eq _ _) E). eexists; reflexivity. Qed.

Lemma matvec_nth (A : mat) (v r : list Q) :
  matvec A v = inr r ->
  length r = nrows A /\ ncols A = length v /\
  forall i, (i < nrows A)%nat ->
    nth i r 0 = Σ (map (fun k => entry A i k * nth k v 0) (seq 0 (ncols A))).
Proof.
  unfold matvec. destruct (PeanoNat.Nat.eqb_spec (ncols A) (length v)) as [E|E]; [|discriminate].
  intros [= <-]. rewrite length_map, length_seq. repeat split; [exact E|].
  intros i Hi. rewrite nth_map_seq by exact Hi. reflexivity.
Qed.

Lemma matvec_ok (A : mat) (v : list Q) :
  ncols A = length v -> exists r, matvec A v = inr r.
Proof. intros E. unfold matvec. rewrite (proj2 (PeanoNat.Nat.eqb_eq _ _) E). eexists; reflexivity. Qed.

(** A list of length 2 is its two entries. *)
Lemma list2_nth (r : list Q) : length r = 2%nat -> r = [nth 0 r 0; nth 1 r 0].
Proof. destruct r as [|a [|b [|c r]]]; simpl; intros H; try discriminate; reflexivity. Qed.

(** The rows of a 2x2 matrix built by [@]. *)
Lemma matmul_2x2_rows (A B C : mat) :
  matmul A B = inr C -> nrows A = 2%nat -> ncols B = 2%nat ->
  rows C = [[entry C 0 0; entry C 0 1]; [entry C 1 0; entry C 1 1]].
Proof.
  unfold matmul. destruct (Nat.eqb (ncols A) (nrows B)); [|discriminate].
  intros [= <-] HA HB. simpl. rewrite HA, HB. reflexivity.
Qed.

(** [np.linalg.inv] of a 2x2 array: the adjugate over the determinant,
    or [LinAlgError] when the determinant is 0. *)
Lemma linalg_inv_2x2 (G : mat) :
  nrows G = 2%nat -> ncols G = 2%nat ->
  rows G = [[entry G 0 0; entry G 0 1]; [entry G 1 0; entry G 1 1]] ->
  ~ entry G 0 0 * entry G 1 1 - entry G 0 1 * entry G 1 0 == 0 ->
  exists B, linalg_inv G = inr (mk_mat 2 2 B) /\
            qmat_eq B (inv2 (entry G 0 0) (entry G 0 1) (entry G 1 0) (entry G 1 1)).
Proof.
  intros Hr Hc Hrows HD. unfold linalg_inv. rewrite Hr, Hc. cbn [Nat.eqb]. rewrite Hrows.
  destruct (inv_rows_2x2_regular _ _ _ _ HD) as (B & HB & HE). rewrite HB. eauto.
Qed.

Lemma linalg_inv_2x2_singular (G : mat) :
  nrows G = 2%nat -> ncols G = 2%nat ->
  rows G = [[entry G 0 0; entry G 0 1]; [entry G 1 0; entry G 1 1]] ->
  entry G 0 0 * entry G 1 1 - entry G 0 1 * entry G 1 0 == 0 ->
  linalg_inv G = inl LinAlgError.
Proof.
  intros Hr Hc Hrows HD. unfold linalg_inv. rewrite Hr, Hc. cbn [Nat.eqb]. rewrite Hrows.
  rewrite inv_rows_2x2_singular by exact HD. reflexivity.
Qed.

Lemma nth_map_inv (d : list Q) (k : nat) : nth k (map (fun x => 1 / x) d) 0 == 1 / nth k d 0.
Proof. revert k; induction d as [|a d IH]; intros [|k]; simpl; try reflexivity. apply IH. Qed.

(** [np.linalg.inv(np.diag(d))] for a [d] without zeros is the diagonal
    matrix of the reciprocals. *)
Lemma linalg_inv_diag (d : list Q) :
  (forall x, In x d -> ~ x == 0) ->
  exists U, linalg_inv (np_diag d) = inr U /\ nrows U = length d /\ ncols U = length d /\
    forall k j, entry U k j == if Nat.eqb k j then 1 / nth j d 0 else 0.
Proof.
  intros Hd. unfold linalg_inv, np_diag; cbn [nrows ncols rows].
  rewrite PeanoNat.Nat.eqb_refl.
  destruct (inv_rows_diag d Hd) as (B & HB & HE). rewrite HB.
  eexists; repeat split; [reflexivity..|]. intros k j. unfold entry; cbn [rows].
  rewrite (qmat_eq_entry _ _ k j HE), entry_diag_rows.
  destruct (PeanoNat.Nat.eqb_spec k j) as [<-|_]; [apply nth_map_inv | reflexivity].
Qed.
