(* ===== verification/NormalEq.v ===== *)
(** * NormalEq: the normal-equation fits of lines 63-73

<<
      X = np.c_[np.ones(x.shape[0]),x]
      BA = np.linalg.inv(X.T @ X) @ X.T @ y
      unc = np.diag([1/val for val in unc_y])
      BA_w = np.linalg.inv(X.T @ np.linalg.inv(unc) @ X) @ (X.T @ np.linalg.inv(unc) @ y)
      model_w = BA_w[0] + BA_w[1]*x
>>
    [BA] and [BA_w] hold [[intercept, slope]].  Python evaluates the left
    operand of the last [@] of line 70 before the right one, so
    [np.linalg.inv(unc)] is computed twice, and an exception of the left
    operand is the one raised.  Iterating a pandas Series yields Python
    floats, so [1/val] raises [ZeroDivisionError] on a zero uncertainty.

    The reference [wls x y w] is the closed-form weighted least-squares line
    for the weights [w]: the line minimising [wsse], [Σ w_i (y_i - s x_i - c)^2].

    The pipelines are evaluated stage by stage ([weighted_U], [weighted_A],
    [weighted_B], [weighted_r], [normal_P], [normal_v]): every entry of an
    intermediate array is an index sum over the positions, and the 2x2
    inverse is the adjugate over the determinant ([Matrix.linalg_inv_2x2]).
    The theorems: [BA] equals [np.polyfit]'s line or raises on equal
    positions; [BA_w] minimises the residuals weighted by [unc_y] (not by
    [1/unc_y]), raises on a zero uncertainty, equals [BA] for uniform
    uncertainties and returns the exact line on collinear data. *)

From Stdlib Require Import QArith Lqa List Lia Bool.
From ExtLib Require Import Structures.Monad Data.Monads.EitherMonad.
From S2P Require Import Prelude Polyfit Matrix.
Import ListNotations MonadNotation.
Open Scope Q_scope.
Open Scope tex_scope.
Open Scope monad_scope.

(** ** The model *)

(** Line 64. *)
Definition normal_BA (x y : list Q) : result (list Q) :=
  let X := c_ones x in
  XtX <- matmul (transpose X) X ;;
  XtX_inv <- linalg_inv XtX ;;
  P <- matmul XtX_inv (transpose X) ;;
  matvec P y.

(** [[1/val for val in unc_y]], raising at the first zero. *)
Fixpoint reciprocals (u : list Q) : result (list Q) :=
  match u with
  | [] => ret []
  | val :: rest =>
      if Qeq_bool val 0 then inl ZeroDivisionError
      else rest' <- reciprocals rest ;; ret (1 / val :: rest')
  end.

(** Lines 69-70. *)
Definition weighted_BA (x y unc_y : list Q) : result (list Q) :=
  let X := c_ones x in
  d <- reciprocals unc_y ;;
  let unc := np_diag d in
  U1 <- linalg_inv unc ;;
  A <- matmul (transpose X) U1 ;;
  B <- matmul A X ;;
  Binv <- linalg_inv B ;;
  U2 <- linalg_inv unc ;;
  C <- matmul (transpose X) U2 ;;
  r <- matvec C y ;;
  matvec Binv r.

(** Line 73. *)
Definition model_w (BA_w x : list Q) : list Q :=
  map (fun xi => nth 0 BA_w 0 + nth 1 BA_w 0 * xi) x.

(** ** The reference: weighted least squares *)

(** [Σ_k f(x_k, y_k, w_k)] over the positions. *)
Definition wsum (f : Q -> Q -> Q -> Q) (x y w : list Q) : Q :=
  Σ (map (fun k => f (nth k x 0) (nth k y 0) (nth k w 0)) (seq 0 (length x))).

(** The weighted least-squares line [(slope, intercept)] for weights [w]. *)
Definition wls (x y w : list Q) : Q * Q :=
  let Sw := wsum (fun _ _ wk => wk) x y w in
  let Swx := wsum (fun xk _ wk => wk * xk) x y w in
  let Swy := wsum (fun _ yk wk => wk * yk) x y w in
  let Swxx := wsum (fun xk _ wk => wk * (xk * xk)) x y w in
  let Swxy := wsum (fun xk yk wk => wk * (xk * yk)) x y w in
  let D := Sw * Swxx - Swx * Swx in
  ((Sw * Swxy - Swx * Swy) / D, (Swxx * Swy - Swx * Swxy) / D).

(** Its determinant. *)
Definition wdet (x w : list Q) : Q :=
  let Sw := wsum (fun _ _ wk => wk) x x w in
  let Swx := wsum (fun xk _ wk => wk * xk) x x w in
  let Swxx := wsum (fun xk _ wk => wk * (xk * xk)) x x w in
  Sw * Swxx - Swx * Swx.

(** The weighted sum of squared residuals of the line [y = s*x + c]. *)
Definition wsse (x y w : list Q) (s c : Q) : Q :=
  wsum (fun xk yk wk => wk * ((yk - (s * xk + c)) * (yk - (s * xk + c)))) x y w.

(** ** The list comprehension of line 69 *)

Lemma reciprocals_ok (u : list Q) :
  (forall v, In v u -> ~ v == 0) -> reciprocals u = inr (map (fun v => 1 / v) u).
Proof.
  induction u as [|v u IH]; intros Hu; [reflexivity|]. cbn [reciprocals].
  rewrite Qeq_bool_false by (apply Hu; left; reflexivity).
  rewrite IH by (intros w Hw; apply Hu; right; exact Hw). reflexivity.
Qed.

Lemma reciprocals_zero (u : list Q) :
  (exists v, In v u /\ v == 0) -> reciprocals u = inl ZeroDivisionError.
Proof.
  induction u as [|v u IH]; intros (w & Hin & Hw); [destruct Hin|]. cbn [reciprocals].
  destruct (Qeq_bool v 0) eqn:E; [reflexivity|].
  destruct Hin as [<-|Hin].
  - apply Qeq_bool_iff in Hw. congruence.
  - rewrite IH by eauto. reflexivity.
Qed.

(** ** Entries of the design *)

(** Row [i] of [X.T] at position [xk]: [1] for the intercept, [xk] for the slope. *)
Definition xrow (i : nat) (xk : Q) : Q := nth i [1; xk] 0.

Lemma entry_XT (x : list Q) (i k : nat) :
  (i < 2)%nat -> (k < length x)%nat -> entry (transpose (c_ones x)) i k = xrow i (nth k x 0).
Proof. intros Hi Hk. rewrite entry_transpose by (simpl; lia). apply entry_c_ones, Hk. Qed.

Lemma entry_X (x : list Q) (k l : nat) :
  (k < length x)%nat -> entry (c_ones x) k l = xrow l (nth k x 0).
Proof. apply entry_c_ones. Qed.

Lemma in_seq0 (n k : nat) : In k (seq 0 n) -> (k < n)%nat.
Proof. rewrite in_seq. lia. Qed.

(** ** The weighted fit, stage by stage *)

Section Weighted.
Variables (x y u : list Q).
Hypothesis Hyx : length y = length x.
Hypothesis Hux : length u = length x.
Hypothesis Hnz : forall v, In v u -> ~ v == 0.

(** [np.linalg.inv(unc)] is [diag(unc_y)]. *)
Lemma weighted_U :
  exists U, linalg_inv (np_diag (map (fun v => 1 / v) u)) = inr U /\
    nrows U = length x /\ ncols U = length x /\
    forall k j, entry U k j == if Nat.eqb k j then nth j u 0 else 0.
Proof.
  destruct (linalg_inv_diag (map (fun v => 1 / v) u)) as (U & HU & Hr & Hc & He).
  { intros d Hd. apply in_map_iff in Hd as (v & <- & Hv). intros H0.
    apply (Hnz v Hv). rewrite <- (Qinv_involutive v). unfold Qdiv in H0.
    rewrite Qmult_1_l in H0. rewrite H0. reflexivity. }
  rewrite length_map, Hux in *. exists U; repeat split; [exact HU|exact Hr|exact Hc|].
  intros k j. rewrite He. destruct (Nat.eqb k j); [|reflexivity].
  rewrite nth_map_inv. unfold Qdiv. rewrite !Qmult_1_l. apply Qinv_involutive.
Qed.

(** [X.T @ np.linalg.inv(unc)] scales column [j] of [X.T] by [unc_y[j]]. *)
Lemma weighted_A (U : mat) :
  nrows U = length x -> ncols U = length x ->
  (forall k j, entry U k j == if Nat.eqb k j then nth j u 0 else 0) ->
  exists A, matmul (transpose (c_ones x)) U = inr A /\ nrows A = 2%nat /\ ncols A = length x /\
    forall i j, (i < 2)%nat -> (j < length x)%nat ->
      entry A i j == xrow i (nth j x 0) * nth j u 0.
Proof.
  intros Hr Hc He. destruct (matmul_ok (transpose (c_ones x)) U) as (A & HA); [simpl; congruence|].
  destruct (matmul_entry _ _ _ HA) as (Ar & Ac & _ & Ae). cbn [nrows ncols transpose c_ones] in Ar, Ac, Ae.
  exists A; repeat split; [exact HA|exact Ar|congruence|]. intros i j Hi Hj.
  rewrite Ae by lia.
  rewrite (qsum_map_ext _ (fun k => xrow i (nth k x 0) * (if Nat.eqb k j then nth j u 0 else 0))).
  - apply qsum_seq_delta. lia.
  - intros k Hk%in_seq0. rewrite He, entry_XT by lia. reflexivity.
Qed.

(** [X.T @ W @ X]: the weighted sums of the normal equations. *)
Lemma weighted_B (A : mat) :
  nrows A = 2%nat -> ncols A = length x ->
  (forall i j, (i < 2)%nat -> (j < length x)%nat -> entry A i j == xrow i (nth j x 0) * nth j u 0) ->
  exists B, matmul A (c_ones x) = inr B /\ nrows B = 2%nat /\ ncols B = 2%nat /\
    rows B = [[entry B 0 0; entry B 0 1]; [entry B 1 0; entry B 1 1]] /\
    forall i l, (i < 2)%nat -> (l < 2)%nat ->
      entry B i l == Σ (map (fun j => xrow i (nth j x 0) * nth j u 0 * xrow l (nth j x 0))
                            (seq 0 (length x))).
Proof.
  intros Ar Ac Ae. destruct (matmul_ok A (c_ones x)) as (B & HB); [simpl; congruence|].
  destruct (matmul_entry _ _ _ HB) as (Br & Bc & _ & Be). cbn [nrows ncols c_ones] in Br, Bc, Be.
  exists B; repeat split; [exact HB|congruence|exact Bc| |].
  - apply (matmul_2x2_rows _ _ _ HB); [exact Ar|reflexivity].
  - intros i l Hi Hl. rewrite Be, Ac by lia. apply qsum_map_ext. intros j Hj%in_seq0.
    rewrite Ae, entry_X by lia. reflexivity.
Qed.

(** [X.T @ W @ y]: the weighted right-hand side. *)
Lemma weighted_r (A : mat) :
  nrows A = 2%nat -> ncols A = length x ->
  (forall i j, (i < 2)%nat -> (j < length x)%nat -> entry A i j == xrow i (nth j x 0) * nth j u 0) ->
  exists r, matvec A y = inr r /\ length r = 2%nat /\
    forall i, (i < 2)%nat ->
      nth i r 0 == Σ (map (fun j => xrow i (nth j x 0) * nth j u 0 * nth j y 0) (seq 0 (length x))).
Proof.
  intros Ar Ac Ae. destruct (matvec_ok A y) as (r & Hr); [congruence|].
  destruct (matvec_nth _ _ _ Hr) as (Len & _ & Re).
  exists r; repeat split; [exact Hr|congruence|]. intros i Hi.
  rewrite Re, Ac by lia. apply qsum_map_ext. intros j Hj%in_seq0. rewrite Ae by lia. reflexivity.
Qed.

End Weighted.

(** The index sums of the stages are the sums of [wls]. *)
Lemma weighted_sums (x y u : list Q) :
  let S i l := Σ (map (fun j => xrow i (nth j x 0) * nth j u 0 * xrow l (nth j x 0)) (seq 0 (length x))) in
  let R i := Σ (map (fun j => xrow i (nth j x 0) * nth j u 0 * nth j y 0) (seq 0 (length x))) in
  S 0%nat 0%nat == wsum (fun _ _ wk => wk) x y u /\
  S 0%nat 1%nat == wsum (fun xk _ wk => wk * xk) x y u /\
  S 1%nat 0%nat == wsum (fun xk _ wk => wk * xk) x y u /\
  S 1%nat 1%nat == wsum (fun xk _ wk => wk * (xk * xk)) x y u /\
  R 0%nat == wsum (fun _ yk wk => wk * yk) x y u /\
  R 1%nat == wsum (fun xk yk wk => wk * (xk * yk)) x y u.
Proof. unfold wsum, xrow; cbn zeta; repeat split; apply qsum_map_ext_all; intros; simpl; ring. Qed.

(** The last product of line 70, [Binv @ r], for a 2x2 [Binv] close to
    [inv2] of the entries of [B]. *)
Lemma solve_2x2 (Bi : list (list Q)) (b00 b01 b10 b11 : Q) (r : list Q) :
  length r = 2%nat -> qmat_eq Bi (inv2 b00 b01 b10 b11) ->
  exists v, matvec (mk_mat 2 2 Bi) r = inr v /\
    qlist_eq v [(b11 * nth 0 r 0 - b01 * nth 1 r 0) / (b00 * b11 - b01 * b10);
                (b00 * nth 1 r 0 - b10 * nth 0 r 0) / (b00 * b11 - b01 * b10)].
Proof.
  intros Hr HB. destruct (matvec_ok (mk_mat 2 2 Bi) r) as (v & Hv); [simpl; congruence|].
  destruct (matvec_nth _ _ _ Hv) as (Hlen & _ & Hn). exists v; split; [exact Hv|].
  rewrite (list2_nth v Hlen). cbn [nrows ncols] in Hn.
  rewrite (Hn 0%nat), (Hn 1%nat) by lia. unfold entry; cbn [rows seq map].
  repeat constructor; rewrite !qsum_cons, qsum_nil, !(qmat_eq_entry _ _ _ _ HB);
    unfold inv2; cbn [nth]; unfold Qdiv; ring.
Qed.

(** The fit the code reports.  With [W = np.linalg.inv(np.diag(1/unc_y)) =
    diag(unc_y)], [BA_w] is the weighted least-squares line whose weights
    are the uncertainties themselves. *)
Lemma weighted_BA_closed (x y u : list Q) :
  length y = length x -> length u = length x -> (forall v, In v u -> ~ v == 0) ->
  ~ wdet x u == 0 ->
  exists v, weighted_BA x y u = inr v /\ qlist_eq v [snd (wls x y u); fst (wls x y u)].
Proof.
  intros Hyx Hux Hnz HD.
  destruct (weighted_U x u Hux Hnz) as (U & HU & Ur & Uc & Ue).
  destruct (weighted_A x y u Hyx Hux U Ur Uc Ue) as (A & HA & Ar & Ac & Ae).
  destruct (weighted_B x y u Hyx Hux A Ar Ac Ae) as (B & HB & Br & Bc & Brows & Be).
  destruct (weighted_r x y u Hyx Hux A Ar Ac Ae) as (r & Hr & Hrl & Re).
  destruct (weighted_sums x y u) as (S00 & S01 & S10 & S11 & R0 & R1).
  assert (HBD : ~ entry B 0 0 * entry B 1 1 - entry B 0 1 * entry B 1 0 == 0).
  { rewrite (Be 0%nat 0%nat), (Be 0%nat 1%nat), (Be 1%nat 0%nat), (Be 1%nat 1%nat) by lia.
    rewrite S00, S01, S10, S11. exact HD. }
  destruct (linalg_inv_2x2 B Br Bc Brows HBD) as (Bi & HBi & Bie).
  destruct (solve_2x2 Bi _ _ _ _ r Hrl Bie) as (v & Hv & Ve).
  exists v. unfold weighted_BA. rewrite reciprocals_ok by exact Hnz. cbn [bind Monad_either].
  rewrite HU; cbv beta iota. rewrite HA; cbv beta iota. rewrite HB; cbv beta iota.
  rewrite HBi; cbv beta iota. rewrite Hr; cbv beta iota. split; [exact Hv|].
  rewrite Ve. unfold wls; cbn [fst snd]. repeat constructor;
    rewrite (Re 0%nat), (Re 1%nat), (Be 0%nat 0%nat), (Be 0%nat 1%nat), (Be 1%nat 0%nat),
      (Be 1%nat 1%nat) by lia;
    rewrite S00, S01, S10, S11, R0, R1; unfold Qdiv; ring.
Qed.

(** ** The unweighted fit of line 64 *)

Lemma nth_repeat_lt (c : Q) (n k : nat) : (k < n)%nat -> nth k (repeat c n) 0 = c.
Proof. revert k; induction n as [|n IH]; intros [|k] Hk; simpl; try lia; [reflexivity|]. apply IH. lia. Qed.

Section Normal.
Variables (x y : list Q).
Hypothesis Hyx : length y = length x.

(** The weights of the plain fit: all 1. *)
Let ones := repeat 1 (length x).

(** [X.T] is [X.T @ diag(ones)]. *)
Lemma normal_XT :
  forall i j, (i < 2)%nat -> (j < length x)%nat ->
    entry (transpose (c_ones x)) i j == xrow i (nth j x 0) * nth j ones 0.
Proof. intros i j Hi Hj. unfold ones. rewrite entry_XT, nth_repeat_lt by lia. ring. Qed.

(** [np.linalg.inv(X.T @ X) @ X.T]: row [i] is [g_i0 + g_i1 x_k]. *)
Lemma normal_P (Gi : list (list Q)) :
  exists P, matmul (mk_mat 2 2 Gi) (transpose (c_ones x)) = inr P /\
    nrows P = 2%nat /\ ncols P = length x /\
    forall i k, (i < 2)%nat -> (k < length x)%nat ->
      entry P i k == entry (mk_mat 2 2 Gi) i 0 * xrow 0 (nth k x 0)
                     + entry (mk_mat 2 2 Gi) i 1 * xrow 1 (nth k x 0).
Proof.
  destruct (matmul_ok (mk_mat 2 2 Gi) (transpose (c_ones x))) as (P & HP); [reflexivity|].
  destruct (matmul_entry _ _ _ HP) as (Pr & Pc & _ & Pe). cbn [nrows ncols transpose c_ones] in Pr, Pc, Pe.
  exists P; split; [exact HP|]. split; [exact Pr|]. split; [exact Pc|].
  intros i k Hi Hk. rewrite Pe by lia. cbn [seq map]. rewrite !qsum_cons, qsum_nil, !entry_XT by lia.
  ring.
Qed.

(** [... @ y]. *)
Lemma normal_v (P : mat) (g00 g01 g10 g11 : Q) :
  nrows P = 2%nat -> ncols P = length x ->
  (forall k, (k < length x)%nat -> entry P 0 k == g00 * xrow 0 (nth k x 0) + g01 * xrow 1 (nth k x 0)) ->
  (forall k, (k < length x)%nat -> entry P 1 k == g10 * xrow 0 (nth k x 0) + g11 * xrow 1 (nth k x 0)) ->
  let R i := Σ (map (fun j => xrow i (nth j x 0) * nth j ones 0 * nth j y 0) (seq 0 (length x))) in
  exists v, matvec P y = inr v /\ qlist_eq v [g00 * R 0%nat + g01 * R 1%nat; g10 * R 0%nat + g11 * R 1%nat].
Proof.
  intros Pr Pc P0 P1 R. destruct (matvec_ok P y) as (v & Hv); [congruence|].
  destruct (matvec_nth _ _ _ Hv) as (Hlen & _ & Hn). exists v; split; [exact Hv|].
  rewrite Pr in Hlen. rewrite (list2_nth v Hlen), (Hn 0%nat), (Hn 1%nat), Pc by lia.
  unfold R, ones. repeat constructor; rewrite <- !qsum_map_scal, <- qsum_map_plus;
    apply qsum_map_ext; intros k Hk%in_seq0; rewrite ?P0, ?P1, nth_repeat_lt by lia; ring.
Qed.

End Normal.

(** With all weights 1, the sums of [wls] are the sums of [polyfit]. *)
Lemma ones_sums (x y : list Q) :
  length y = length x ->
  let ones := repeat 1 (length x) in
  wsum (fun _ _ wk => wk) x y ones == qlen x /\
  wsum (fun xk _ wk => wk * xk) x y ones == Σ x /\
  wsum (fun _ yk wk => wk * yk) x y ones == Σ y /\
  wsum (fun xk _ wk => wk * (xk * xk)) x y ones == dot x x /\
  wsum (fun xk yk wk => wk * (xk * yk)) x y ones == dot x y.
Proof.
  intros Hyx ones. unfold wsum, ones.
  assert (W : forall f : nat -> Q,
    Σ (map (fun k => nth k (repeat 1 (length x)) 0 * f k) (seq 0 (length x)))
    == Σ (map f (seq 0 (length x)))).
  { intros f. apply qsum_map_ext. intros k Hk%in_seq0. rewrite nth_repeat_lt by lia. ring. }
  split; [|split; [|split; [|split]]].
  - rewrite (qsum_map_ext _ (fun _ => 1)) by (intros k Hk%in_seq0; rewrite nth_repeat_lt by lia; reflexivity).
    rewrite qsum_map_const, length_seq. unfold qlen. ring.
  - rewrite W, (map_seq_nth (fun a => a)), map_id. reflexivity.
  - rewrite W, <- Hyx, (map_seq_nth (fun a => a)), map_id. reflexivity.
  - rewrite W, (map_seq_nth (fun a => a * a)). unfold dot. rewrite zip_with_diag. reflexivity.
  - rewrite W, (map_seq_nth2 Qmult) by congruence. reflexivity.
Qed.

(** The Gram matrix [X.T @ X] of the design and its determinant. *)
Lemma normal_gram (x y : list Q) :
  length y = length x ->
  exists G, matmul (transpose (c_ones x)) (c_ones x) = inr G /\ nrows G = 2%nat /\ ncols G = 2%nat /\
    rows G = [[entry G 0 0; entry G 0 1]; [entry G 1 0; entry G 1 1]] /\
    entry G 0 0 == qlen x /\ entry G 0 1 == Σ x /\ entry G 1 0 == Σ x /\ entry G 1 1 == dot x x.
Proof.
  intros Hyx.
  destruct (weighted_B x y (repeat 1 (length x)) Hyx (repeat_length _ _) (transpose (c_ones x))
              eq_refl eq_refl (normal_XT x y Hyx)) as (G & HG & Gr & Gc & Grows & Ge).
  destruct (weighted_sums x y (repeat 1 (length x))) as (S00 & S01 & S10 & S11 & _).
  destruct (ones_sums x y Hyx) as (O0 & O1 & _ & O3 & _).
  exists G; do 4 (split; [assumption|]).
  rewrite (Ge 0%nat 0%nat), (Ge 0%nat 1%nat), (Ge 1%nat 0%nat), (Ge 1%nat 1%nat) by lia.
  rewrite S00, S01, S10, S11, O0, O1, O3. repeat split; reflexivity.
Qed.

(** A singular [X.T @ X] makes [np.linalg.inv] raise at line 64. *)
Lemma gram_singular_raises (x y : list Q) :
  length y = length x -> design_det x == 0 -> normal_BA x y = inl LinAlgError.
Proof.
  intros Hyx HD. destruct (normal_gram x y Hyx) as (G & HG & Gr & Gc & Grows & G00 & G01 & G10 & G11).
  unfold normal_BA; cbn [bind Monad_either]. rewrite HG; cbv beta iota.
  rewrite linalg_inv_2x2_singular by (try assumption; rewrite G00, G01, G10, G11; exact HD).
  reflexivity.
Qed.

(** So a normal-equation solution exists only for a regular design. *)
Lemma normal_BA_regular (x y : list Q) (v : list Q) :
  length y = length x -> normal_BA x y = inr v -> ~ design_det x == 0.
Proof. intros Hl Hv HD. rewrite (gram_singular_raises x y Hl HD) in Hv. discriminate. Qed.

(** C25: line 64 raises [LinAlgError] whenever the Gram determinant of
    the design is 0, that is when the positions are all equal or there
    are none: [X.T @ X] is then singular. *)
Theorem normal_BA_singular (x y : list Q) :
  length y = length x -> design_det x == 0 -> normal_BA x y = inl LinAlgError.
Proof. exact (gram_singular_raises x y). Qed.

(** Line 64 on aligned series with a regular design: the closed form. *)
Lemma normal_BA_closed (x y : list Q) :
  length y = length x -> ~ design_det x == 0 ->
  exists v, normal_BA x y = inr v /\
    qlist_eq v [(dot x x * Σ y - Σ x * dot x y) / design_det x;
                (qlen x * dot x y - Σ x * Σ y) / design_det x].
Proof.
  intros Hl HD.
  destruct (normal_gram x y Hl) as (G & HG & Gr & Gc & Grows & G00 & G01 & G10 & G11).
  assert (HGD : ~ entry G 0 0 * entry G 1 1 - entry G 0 1 * entry G 1 0 == 0)
    by (rewrite G00, G01, G10, G11; exact HD).
  destruct (linalg_inv_2x2 G Gr Gc Grows HGD) as (Gi & HGi & Gie).
  destruct (normal_P x y Hl Gi) as (P & HP & Pr & Pc & Pe).
  destruct (normal_v x y Hl P (entry (mk_mat 2 2 Gi) 0 0) (entry (mk_mat 2 2 Gi) 0 1)
              (entry (mk_mat 2 2 Gi) 1 0) (entry (mk_mat 2 2 Gi) 1 1) Pr Pc
              (fun k Hk => Pe 0%nat k ltac:(lia) Hk) (fun k Hk => Pe 1%nat k ltac:(lia) Hk))
    as (v & Hv & Ve).
  destruct (weighted_sums x y (repeat 1 (length x))) as (_ & _ & _ & _ & R0 & R1).
  destruct (ones_sums x y Hl) as (_ & _ & O2 & _ & O4).
  exists v. unfold normal_BA; cbn [bind Monad_either].
  rewrite HG; cbv beta iota. rewrite HGi; cbv beta iota. rewrite HP; cbv beta iota.
  split; [exact Hv|]. rewrite Ve. unfold entry; cbn [rows].
  repeat constructor; rewrite R0, R1, O2, O4, !(qmat_eq_entry _ _ _ _ Gie); unfold inv2; cbn [nth];
    fold (entry G 0 0) (entry G 0 1) (entry G 1 0) (entry G 1 1);
    rewrite G00, G01, G10, G11; unfold design_det, Qdiv; ring.
Qed.

(** C7: where [np.polyfit] has a unique solution, the normal-equation
    fit of line 64 agrees with it: [BA = [intercept, slope]] of the
    [np.polyfit] line. *)
Theorem normal_BA_polyfit (x y : list Q) (a b : Q) :
  polyfit1 x y = inr (a, b) -> ~ design_det x == 0 ->
  exists v, normal_BA x y = inr v /\ qlist_eq v [b; a].
Proof.
  intros Hf HD. destruct (polyfit1_success x y a b Hf) as (_ & Hl & [(_ & -> & ->)|(HD0 & _)]);
    [|contradiction].
  exact (normal_BA_closed x y (eq_sym Hl) HD).
Qed.

(** ** What the weighted fit minimises *)

(** The weighted residuals of any line split into those of [(a, b)], a
    non-negative gap, and two multiples of the weighted normal equations. *)
Lemma wsse_decompose (x y w : list Q) (a b s c : Q) :
  wsse x y w s c ==
  wsse x y w a b
  + wsum (fun xk _ wk => wk * (((a - s) * xk + (b - c)) * ((a - s) * xk + (b - c)))) x y w
  + 2 * (a - s) * (wsum (fun xk yk wk => wk * (xk * yk)) x y w
                   - a * wsum (fun xk _ wk => wk * (xk * xk)) x y w
                   - b * wsum (fun xk _ wk => wk * xk) x y w)
  + 2 * (b - c) * (wsum (fun _ yk wk => wk * yk) x y w
                   - a * wsum (fun xk _ wk => wk * xk) x y w
                   - b * wsum (fun _ _ wk => wk) x y w).
Proof.
  unfold wsse, wsum. cbv beta.
  rewrite (qsum_map_ext_all _ (fun k =>
      nth k w 0 * ((nth k y 0 - (a * nth k x 0 + b)) * (nth k y 0 - (a * nth k x 0 + b)))
      + nth k w 0 * (((a - s) * nth k x 0 + (b - c)) * ((a - s) * nth k x 0 + (b - c)))
      + 2 * (a - s) * (nth k w 0 * (nth k x 0 * nth k y 0) - a * (nth k w 0 * (nth k x 0 * nth k x 0))
                       - b * (nth k w 0 * nth k x 0))
      + 2 * (b - c) * (nth k w 0 * nth k y 0 - a * (nth k w 0 * nth k x 0) - b * nth k w 0)))
    by (intros; ring).
  qsum_simpl. reflexivity.
Qed.

Lemma wsum_nonneg (f : Q -> Q -> Q -> Q) (x y w : list Q) :
  length w = length x -> (forall v, In v w -> 0 < v) ->
  (forall a b v, 0 < v -> 0 <= f a b v) -> 0 <= wsum f x y w.
Proof.
  intros Hwx Hw Hf. unfold wsum. apply qsum_map_nonneg. intros k Hk%in_seq0.
  apply Hf, Hw, nth_In. lia.
Qed.

(** C4: with positive uncertainties and a regular weighted design, [BA_w]
    is the line that minimises [Σ unc_y[i] * (y[i] - s*x[i] - c)^2]: each
    residual is weighted by its uncertainty, so the most uncertain values
    weigh most. *)
Theorem weighted_BA_least_squares (x y u : list Q) :
  length y = length x -> length u = length x -> (forall v, In v u -> 0 < v) ->
  ~ wdet x u == 0 ->
  exists v, weighted_BA x y u = inr v /\
    forall s c, wsse x y u (nth 1 v 0) (nth 0 v 0) <= wsse x y u s c.
Proof.
  intros Hyx Hux Hpos HW.
  assert (Hnz : forall v, In v u -> ~ v == 0) by (intros v Hv E; pose proof (Hpos v Hv); lra).
  destruct (weighted_BA_closed x y u Hyx Hux Hnz HW) as (v & Hv & Ve).
  exists v. split; [exact Hv|]. intros s c.
  inversion Ve as [|p b0 v' l0 Hp Ve' E1 E2]; subst.
  inversion Ve' as [|q a0 v'' l1 Hq Ve'' E3 E4]; subst. inversion Ve''; subst. cbn [nth].
  rewrite (wsse_decompose x y u q p s c).
  assert (N1 : wsum (fun xk yk wk => wk * (xk * yk)) x y u
               - q * wsum (fun xk _ wk => wk * (xk * xk)) x y u
               - p * wsum (fun xk _ wk => wk * xk) x y u == 0).
  { rewrite Hp, Hq. unfold wls, wdet in *; cbn [fst snd]. field. exact HW. }
  assert (N2 : wsum (fun _ yk wk => wk * yk) x y u
               - q * wsum (fun xk _ wk => wk * xk) x y u
               - p * wsum (fun _ _ wk => wk) x y u == 0).
  { rewrite Hp, Hq. unfold wls, wdet in *; cbn [fst snd]. field. exact HW. }
  rewrite N1, N2.
  assert (G : 0 <= wsum (fun xk _ wk => wk * (((q - s) * xk + (p - c)) * ((q - s) * xk + (p - c)))) x y u)
    by (apply wsum_nonneg; [exact Hux|exact Hpos|intros; pose proof (Qsq_nonneg ((q - s) * a + (p - c))); nra]).
  lra.
Qed.

(** ** The weighted fit on special data *)

(** Sums whose summand is linear in the weight scale with a constant weight. *)
Lemma wsum_const_weight (f : Q -> Q -> Q -> Q) (x y u : list Q) (c : Q) :
  (forall a b w, f a b w == w * f a b 1) ->
  length u = length x -> (forall v, In v u -> v == c) ->
  wsum f x y u == c * wsum f x y (repeat 1 (length x)).
Proof.
  intros Hf Hux Hc. unfold wsum. rewrite <- qsum_map_scal. apply qsum_map_ext.
  intros k Hk%in_seq0. rewrite nth_repeat_lt by lia.
  rewrite (Hf _ _ (nth k u 0)), (Hc (nth k u 0)) by (apply nth_In; lia). ring.
Qed.

Lemma nth_map_lt (f : Q -> Q) (l : list Q) (j : nat) :
  (j < length l)%nat -> nth j (map f l) 0 = f (nth j l 0).
Proof. revert j; induction l as [|a l IH]; intros [|j] Hj; simpl in *; try lia; auto with arith. Qed.

(** Sums over the values of an exact line. *)
Lemma wsum_line (f : Q -> Q -> Q -> Q) (x u : list Q) (m k : Q) :
  wsum f x (map (fun xi => m * xi + k) x) u
  == wsum (fun xk _ wk => f xk (m * xk + k) wk) x x u.
Proof.
  unfold wsum. apply qsum_map_ext. intros j Hj%in_seq0.
  rewrite (nth_map_lt (fun xi => m * xi + k)) by exact Hj. reflexivity.
Qed.

Lemma wsum_ext (f g : Q -> Q -> Q -> Q) (x y u : list Q) :
  (forall a b w, f a b w == g a b w) -> wsum f x y u == wsum g x y u.
Proof. intros E. unfold wsum. apply qsum_map_ext_all. intros k. apply E. Qed.

Lemma wsum_plus_scal (f g : Q -> Q -> Q -> Q) (x y u : list Q) (a b : Q) :
  wsum (fun xk yk wk => a * f xk yk wk + b * g xk yk wk) x y u
  == a * wsum f x y u + b * wsum g x y u.
Proof. unfold wsum. qsum_simpl. reflexivity. Qed.

(** C22: a zero uncertainty makes line 69 raise [ZeroDivisionError]
    (the loader keeps such values). *)
Theorem weighted_BA_zero_unc (x y u : list Q) :
  (exists v, In v u /\ v == 0) -> weighted_BA x y u = inl ZeroDivisionError.
Proof. intros Hz. unfold weighted_BA. rewrite reciprocals_zero by exact Hz. reflexivity. Qed.

Lemma Qsq_nonzero (c : Q) : ~ c == 0 -> ~ c * c == 0.
Proof. intros Hc E. apply Qmult_integral in E as [E|E]; exact (Hc E). Qed.

Lemma Qmult_nonzero (a b : Q) : ~ a == 0 -> ~ b == 0 -> ~ a * b == 0.
Proof. intros Ha Hb E. apply Qmult_integral in E as [E|E]; [exact (Ha E)|exact (Hb E)]. Qed.

(** C23: with the same uncertainty [c <> 0] on every value, the weighted
    fit of line 70 and the plain fit of line 64 coincide. *)
Theorem weighted_BA_uniform (x y u : list Q) (c : Q) :
  length y = length x -> length u = length x -> ~ design_det x == 0 ->
  (forall v, In v u -> v == c) -> ~ c == 0 ->
  exists v w, weighted_BA x y u = inr v /\ normal_BA x y = inr w /\ qlist_eq v w.
Proof.
  intros Hyx Hux HD Hc Hc0.
  assert (Hnz : forall v, In v u -> ~ v == 0) by (intros v Hv E; apply Hc0; rewrite <- (Hc v Hv); exact E).
  destruct (normal_BA_closed x y Hyx HD) as (w & Hw & We).
  destruct (ones_sums x y Hyx) as (O0 & O1 & O2 & O3 & O4).
  destruct (ones_sums x x eq_refl) as (P0 & P1 & _ & P3 & _).
  assert (Hs : forall f, (forall a b w, f a b w == w * f a b 1) ->
            forall y', wsum f x y' u == c * wsum f x y' (repeat 1 (length x)))
    by (intros f Hf' y'; apply wsum_const_weight; assumption).
  pose proof (Qmult_nonzero _ _ (Qsq_nonzero c Hc0) HD) as HcD. unfold design_det in HcD, HD.
  assert (HW : ~ wdet x u == 0).
  { unfold wdet. rewrite !Hs by (intros; ring). rewrite P0, P1, P3. intros E. apply HcD.
    rewrite <- E. ring. }
  destruct (weighted_BA_closed x y u Hyx Hux Hnz HW) as (v & Hv & Ve).
  exists v, w. split; [exact Hv|]. split; [exact Hw|]. rewrite Ve, We.
  unfold wls; cbn [fst snd].
  apply Forall2_cons; [|apply Forall2_cons; [|apply Forall2_nil]]; rewrite ?Hs by (intros; ring);
    rewrite ?O0, ?O1, ?O2, ?O3, ?O4; unfold design_det; field;
    repeat split; try exact HD; intros E; apply HcD; rewrite <- E; ring.
Qed.

(** C24: on values that lie exactly on a line, the weighted fit returns
    that line for any non-zero uncertainties whose weighted design is
    regular ([wdet x unc_y] not 0): on such data the weighting changes
    nothing, uniform uncertainties or not. *)
Theorem weighted_BA_exact (x u : list Q) (m k : Q) :
  length u = length x -> (forall v, In v u -> ~ v == 0) -> ~ wdet x u == 0 ->
  exists v, weighted_BA x (map (fun xi => m * xi + k) x) u = inr v /\ qlist_eq v [k; m].
Proof.
  intros Hux Hnz HW.
  destruct (weighted_BA_closed x _ u (length_map (fun xi => m * xi + k) x) Hux Hnz HW) as (v & Hv & Ve).
  exists v; split; [exact Hv|]. rewrite Ve. unfold wls; cbn [fst snd].
  assert (Sy : wsum (fun xk _ wk => wk * (m * xk + k)) x x u
               == m * wsum (fun xk _ wk => wk * xk) x x u + k * wsum (fun _ _ wk => wk) x x u)
    by (rewrite <- wsum_plus_scal; apply wsum_ext; intros; ring).
  assert (Sxy : wsum (fun xk _ wk => wk * (xk * (m * xk + k))) x x u
                == m * wsum (fun xk _ wk => wk * (xk * xk)) x x u + k * wsum (fun xk _ wk => wk * xk) x x u)
    by (rewrite <- wsum_plus_scal; apply wsum_ext; intros; ring).
  unfold wdet in HW.
  apply Forall2_cons; [|apply Forall2_cons; [|apply Forall2_nil]]; rewrite !wsum_line; cbv beta;
    rewrite Sy, Sxy; field; exact HW.
Qed.

(** On positions [0, 1, 2], values [0, 0, 3] and uncertainties
    [1, 1, 2], line 70 gives the slope [18/11]: the weighted least-squares
    slope for the weights [unc_y], not the [9/7] of the weights [1/unc_y]
    of the specification (nor the [3/2] of the plain fit). *)
Example weighted_BA_weights_example :
  exists v, weighted_BA [0; 1; 2] [0; 0; 3] [1; 1; 2] = inr v /\ nth 1 v 0 == 18 # 11 /\
    fst (wls [0; 1; 2] [0; 0; 3] [1; 1; 2]) == 18 # 11 /\
    fst (wls [0; 1; 2] [0; 0; 3] (map (fun h => 1 / h) [1; 1; 2])) == 9 # 7 /\
    exists a b, polyfit1 [0; 1; 2] [0; 0; 3] = inr (a, b) /\ a == 3 # 2.
Proof.
  eexists; split; [vm_compute; reflexivity|].
  split; [vm_compute; reflexivity|]. split; [vm_compute; reflexivity|].
  split; [vm_compute; reflexivity|]. eexists _, _. split; [vm_compute; reflexivity|].
  vm_compute. reflexivity.
Qed.

(** ** Concrete fits *)

Lemma normal_BA_polyfit_witness :
  exists a b, polyfit1 [0; 1; 2; 3] [1; 2; 3; 41 # 10] = inr (a, b) /\
    ~ design_det [0; 1; 2; 3] == 0 /\
    exists v, normal_BA [0; 1; 2; 3] [1; 2; 3; 41 # 10] = inr v /\ qlist_eq v [b; a].
Proof.
  destruct (polyfit1 [0; 1; 2; 3] [1; 2; 3; 41 # 10]) as [e|[a b]] eqn:F;
    [vm_compute in F; discriminate|].
  assert (HD : ~ design_det [0; 1; 2; 3] == 0) by (vm_compute; discriminate).
  exists a, b. split; [reflexivity|]. split; [exact HD|].
  exact (normal_BA_polyfit _ _ a b F HD).
Defined.

Lemma normal_BA_singular_witness :
  design_det [5; 5] == 0 /\ normal_BA [5; 5] [1; 2] = inl LinAlgError.
Proof.
  assert (HD : design_det [5; 5] == 0) by (vm_compute; reflexivity).
  split; [exact HD|]. exact (normal_BA_singular [5; 5] [1; 2] eq_refl HD).
Defined.

Lemma weighted_BA_zero_unc_witness :
  weighted_BA [0; 1; 2] [0; 0; 3] [1; 0; 2] = inl ZeroDivisionError.
Proof. apply weighted_BA_zero_unc. exists 0. split; [right; left; reflexivity|reflexivity]. Defined.

Lemma weighted_BA_uniform_witness :
  ~ design_det [0; 1; 2; 3] == 0 /\
  exists v w, weighted_BA [0; 1; 2; 3] [1; 2; 3; 41 # 10] [1 # 10; 1 # 10; 1 # 10; 1 # 10] = inr v /\
    normal_BA [0; 1; 2; 3] [1; 2; 3; 41 # 10] = inr w /\ qlist_eq v w.
Proof.
  assert (HD : ~ design_det [0; 1; 2; 3] == 0) by (vm_compute; discriminate).
  split; [exact HD|]. apply (weighted_BA_uniform [0; 1; 2; 3] [1; 2; 3; 41 # 10] [1 # 10; 1 # 10; 1 # 10; 1 # 10] (1 # 10) eq_refl eq_refl HD).
  - intros v Hv. repeat destruct Hv as [<-|Hv]; [reflexivity..|destruct Hv].
  - vm_compute; discriminate.
Defined.

Lemma weighted_BA_exact_witness :
  ~ wdet [0; 1; 2] [1; 2; 3] == 0 /\
  exists v, weighted_BA [0; 1; 2] (map (fun xi => 2 * xi + 1) [0; 1; 2]) [1; 2; 3] = inr v /\
    qlist_eq v [1; 2].
Proof.
  assert (HW : ~ wdet [0; 1; 2] [1; 2; 3] == 0) by (vm_compute; discriminate).
  split; [exact HW|]. apply (weighted_BA_exact [0; 1; 2] [1; 2; 3] 2 1 eq_refl); [|exact HW].
  intros v Hv. repeat destruct Hv as [<-|Hv]; [discriminate..|destruct Hv].
Defined.

Lemma weighted_BA_least_squares_witness :
  ~ wdet [0; 1; 2] [1; 1; 2] == 0 /\
  exists v, weighted_BA [0; 1; 2] [0; 0; 3] [1; 1; 2] = inr v /\
    wsse [0; 1; 2] [0; 0; 3] [1; 1; 2] (nth 1 v 0) (nth 0 v 0)
    <= wsse [0; 1; 2] [0; 0; 3] [1; 1; 2] (9 # 7) (- 3 # 7).
Proof.
  assert (HW : ~ wdet [0; 1; 2] [1; 1; 2] == 0) by (vm_compute; discriminate).
  split; [exact HW|].
  destruct (weighted_BA_least_squares [0; 1; 2] [0; 0; 3] [1; 1; 2] eq_refl eq_refl) as (v & Hv & Hmin);
    [intros v Hv; repeat destruct Hv as [<-|Hv]; [unfold Qlt; simpl; lia..|destruct Hv]|exact HW|].
  exists v. split; [exact Hv|apply Hmin].
Defined.
