(* ===== verification/Report.v ===== *)
(** * Report: the statistics and the figures of src/Regressions_Notebook.py

    Line 202 prints [np.mean(slopes)] and [np.std(slopes)].  numpy's [std]
    is the population standard deviation (default [ddof=0]), the square
    root of [np_var] below; the root itself, over the reals, is in [Std].

    The figures (lines 30-48, 80-98, 147-170, 189-199) are modelled as the
    data they draw, as the specification's design notes ask: the artists of
    each [Axes] in the order matplotlib records them, and the pairing of
    [legend(labels)] with them.  [errorbar] keeps matplotlib's checks: a
    [yerr] with a negative value raises [ValueError] after the marker line
    is drawn ([errorbar_call]; [Notebook.plt_errorbar] follows the same
    steps through pyplot's state). *)

From Stdlib Require Import String QArith Qabs Qminmax Lqa List Lia ZArith.
From ExtLib Require Import Structures.Monad Data.Monads.StateMonad Data.Monads.EitherMonad.
From S2P Require Import Prelude Random Polyfit MonteCarlo Matrix NormalEq.
Import ListNotations.
Open Scope Q_scope.
Open Scope tex_scope.

(** ** Summary statistics of line 202 *)

(** [np.mean(l)]; numpy returns [nan] (with a warning) on an empty list. *)
Definition np_mean (l : list Q) : option Q :=
  match l with [] => None | _ => Some (Σ l / qlen l) end.

(** [np.var(l)] with [ddof=0]: the mean squared deviation from the mean. *)
Definition np_var (l : list Q) : option Q :=
  match np_mean l with
  | None => None
  | Some m => Some (Σ (map (fun s => (s - m) * (s - m)) l) / qlen l)
  end.

(** The sample variance ([ddof=1]) the specification names. *)
Definition sample_var (l : list Q) : option Q :=
  match l with
  | [] | [_] => None
  | _ => match np_mean l with
         | None => None
         | Some m => Some (Σ (map (fun s => (s - m) * (s - m)) l) / (qlen l - 1))
         end
  end.

(** ** The figures *)

Inductive linestyle := Solid | Dashed | DashDot.

(** The artists an [Axes] keeps, in the order the calls add them. *)
Inductive artist :=
| ErrorbarData (xs ys : list Q)                          (** [errorbar]'s marker line *)
| ErrorbarBars (xs ys errs : list Q)                     (** [errorbar]'s bar collection *)
| Line (xs ys : list Q) (style : linestyle) (color : string)       (** [plot] *)
| Hist (data : list Q) (color : string)                  (** [hist]; its bars are [Histogram.np_histogram data] *)
| VLine (pos ymin ymax : Q) (style : linestyle).         (** [vlines] *)

(** The containers an [Axes] keeps beside its artists. *)
Inductive container :=
| ErrorbarContainer (xs ys errs : list Q)       (** returned by [errorbar] *)
| BarContainer (data : list Q).                  (** returned by [hist]: its bars *)

Record axes := mk_axes { artists : list artist; containers : list container }.

Definition empty_axes : axes := mk_axes [] [].

(** [ax.errorbar(x, y, yerr)] runs in three steps (matplotlib's
    [Axes.errorbar]): it checks that [x] and [y] have the same size, adds
    the marker line, then checks [yerr] (it must broadcast to the data: one
    value, or one per point, and [np.less(err, -err)] must hold nowhere:
    no negative value) and adds the bar collection and the
    [ErrorbarContainer].  The marker line and the bars are labelled
    ['_nolegend_']; the container is kept apart. *)
Definition errorbar_size_check (xs ys : list Q) : result unit :=
  if Nat.eqb (length xs) (length ys) then inr tt else inl ValueError_size.

Definition errorbar_line (xs ys : list Q) (ax : axes) : axes :=
  mk_axes (artists ax ++ [ErrorbarData xs ys]) (containers ax).

Definition errorbar_yerr_check (ys errs : list Q) : result unit :=
  if negb (Nat.eqb (length errs) (length ys) || Nat.eqb (length errs) 1) then inl ValueError_size
  else if existsb (fun e => negb (Qle_bool (- e) e)) errs then inl ValueError_negative
  else inr tt.

Definition errorbar_bars (xs ys errs : list Q) (ax : axes) : axes :=
  mk_axes (artists ax ++ [ErrorbarBars xs ys errs]) (containers ax ++ [ErrorbarContainer xs ys errs]).

(** What a call that passes both checks leaves on the axes. *)
Definition errorbar (xs ys errs : list Q) (ax : axes) : axes :=
  errorbar_bars xs ys errs (errorbar_line xs ys ax).

(** The whole call on an axes of its own: the axes it leaves, or the
    exception it raises. *)
Definition errorbar_call (xs ys errs : list Q) (ax : axes) : result axes :=
  match errorbar_size_check xs ys with
  | inl e => inl e
  | inr _ =>
      match errorbar_yerr_check ys errs with
      | inl e => inl e
      | inr _ => inr (errorbar xs ys errs ax)
      end
  end.

Definition plot (xs ys : list Q) (style : linestyle) (color : string) (ax : axes) : axes :=
  mk_axes (artists ax ++ [Line xs ys style color]) (containers ax).

Definition hist (data : list Q) (color : string) (ax : axes) : axes :=
  mk_axes (artists ax ++ [Hist data color]) (containers ax ++ [BarContainer data]).

Definition vlines (pos ymin ymax : Q) (style : linestyle) (ax : axes) : axes :=
  mk_axes (artists ax ++ [VLine pos ymin ymax style]) (containers ax).

(** What a legend entry points to. *)
Inductive handle := HArtist (a : artist) | HContainer (c : container).

(** The artists that have a legend entry: all but the ['_nolegend_'] parts
    of an errorbar. *)
Definition legend_artist (a : artist) : bool :=
  match a with ErrorbarData _ _ | ErrorbarBars _ _ _ => false | _ => true end.

(** matplotlib's [_get_legend_handles]: the artists first, then the containers. *)
Definition legend_handles (ax : axes) : list handle :=
  map HArtist (filter legend_artist (artists ax)) ++ map HContainer (containers ax).

(** [ax.legend(labels)]: the handles zipped with the labels. *)
Definition legend (labels : list string) (ax : axes) : list (handle * string) :=
  combine (legend_handles ax) labels.

(** [a*x + b] (lines 45, 94, 167). *)
Definition model_line (a b : Q) (x : list Q) : list Q := map (fun xi => a * xi + b) x.

(** Lines 30-48. *)
Definition figure1 (x y unc_y : list Q) (a b : Q) : result (axes * list (handle * string)) :=
  match errorbar_call x y unc_y empty_axes with
  | inl e => inl e
  | inr ax =>
      let ax := plot x (model_line a b x) Dashed "k"%string ax in
      inr (ax, legend ["Data"%string; "OLS Trend (no weights)"%string] ax)
  end.

(** Lines 80-98. *)
Definition figure2 (x y unc_y : list Q) (a b : Q) (mw : list Q) : result (axes * list (handle * string)) :=
  match errorbar_call x y unc_y empty_axes with
  | inl e => inl e
  | inr ax =>
      let ax := plot x (model_line a b x) Dashed "grey"%string ax in
      let ax := plot x mw DashDot "k"%string ax in
      inr (ax, legend ["OLS Trend (no weights)"%string; "OLS Trend (weighted)"%string; "Data"%string] ax)
  end.

(** Lines 158-164: [for ind, val in enumerate(slopes): plot(x, models[ind])]. *)
Fixpoint plot_models (x : list Q) (models : list (list Q)) (inds : list nat) (ax : axes)
  : result axes :=
  match inds with
  | [] => inr ax
  | ind :: rest =>
      match nth_error models ind with
      | None => inl IndexError
      | Some m => plot_models x models rest (plot x m Solid "grey"%string ax)
      end
  end.

(** Lines 147-170. *)
Definition figure3 (x y unc_y : list Q) (a b : Q) (mw slopes : list Q) (models : list (list Q))
  : result axes :=
  match errorbar_call x y unc_y empty_axes with
  | inl e => inl e
  | inr ax =>
      match plot_models x models (seq 0 (length slopes)) ax with
      | inl e => inl e
      | inr ax =>
          let ax := plot x (model_line a b x) Dashed "k"%string ax in
          inr (plot x mw DashDot "k"%string ax)
      end
  end.

(** Lines 189-199; [ylims] of each panel is what [get_ylim] returns after
    the histogram is drawn. *)
Definition figure4 (slopes intercepts : list Q) (a b : Q) (BA : list Q) (ylims0 ylims1 : Q * Q)
  : result (axes * axes) :=
  match nth_error BA 1, nth_error BA 0 with
  | Some BA1, Some BA0 =>
      let ax0 := hist slopes "peru"%string empty_axes in
      let ax0 := vlines a (Qmin (fst ylims0) (snd ylims0)) (Qmax (fst ylims0) (snd ylims0)) Dashed ax0 in
      let ax0 := vlines BA1 (Qmin (fst ylims0) (snd ylims0)) (Qmax (fst ylims0) (snd ylims0)) DashDot ax0 in
      let ax1 := hist intercepts "mediumslateblue"%string empty_axes in
      let ax1 := vlines b (Qmin (fst ylims1) (snd ylims1)) (Qmax (fst ylims1) (snd ylims1)) Dashed ax1 in
      let ax1 := vlines BA0 (Qmin (fst ylims1) (snd ylims1)) (Qmax (fst ylims1) (snd ylims1)) DashDot ax1 in
      inr (ax0, ax1)
  | _, _ => inl IndexError
  end.

(** ** Lemmas on the statistics *)

(** Squared deviations from any [c] split into those from the mean and the
    squared distance of the mean to [c]. *)
Lemma sq_dev_shift (l : list Q) (c : Q) :
  l <> [] ->
  Σ (map (fun s => (s - c) * (s - c)) l)
  == Σ (map (fun s => (s - Σ l / qlen l) * (s - Σ l / qlen l)) l)
     + qlen l * ((Σ l / qlen l - c) * (Σ l / qlen l - c)).
Proof.
  intros Hl. pose proof (qlen_pos l Hl) as N.
  set (m := Σ l / qlen l).
  assert (Hm : Σ l == qlen l * m) by (unfold m; field; lra).
  rewrite (qsum_map_ext_all _ (fun s => (s * s) + (-2 * c) * s + (c * c))) by (intros; ring).
  rewrite (qsum_map_ext_all (fun s => (s - m) * (s - m)) (fun s => (s * s) + (-2 * m) * s + (m * m)))
    by (intros; ring).
  qsum_simpl. rewrite map_id. change (inject_Z (Z.of_nat (length l))) with (qlen l). rewrite Hm. ring.
Qed.

Lemma np_mean_some (l : list Q) : l <> [] -> np_mean l = Some (Σ l / qlen l).
Proof. destruct l; [congruence|reflexivity]. Qed.

Lemma np_var_some (l : list Q) :
  l <> [] ->
  np_var l = Some (Σ (map (fun s => (s - Σ l / qlen l) * (s - Σ l / qlen l)) l) / qlen l).
Proof. intros Hl. unfold np_var. rewrite np_mean_some by exact Hl. reflexivity. Qed.

(** The mean minimises the mean squared deviation. *)
Lemma np_var_le (l : list Q) (c v : Q) :
  np_var l = Some v -> v <= Σ (map (fun s => (s - c) * (s - c)) l) / qlen l.
Proof.
  intros Hv. assert (Hl : l <> []) by (intros ->; discriminate).
  rewrite np_var_some in Hv by exact Hl. assert (Ev := eq_sym (f_equal (fun o => match o with Some q => q | None => 0 end) Hv)).
  cbv beta iota in Ev. subst v. clear Hv.
  pose proof (qlen_pos l Hl) as N.
  rewrite (sq_dev_shift l c) by exact Hl.
  set (d := (Σ l / qlen l - c) * (Σ l / qlen l - c)).
  assert (Hd : 0 <= d) by apply Qsq_nonneg.
  set (S := Σ (map _ l)).
  setoid_replace ((S + qlen l * d) / qlen l) with (S / qlen l + d) by (field; lra).
  rewrite <- (Qplus_0_r (S / qlen l)) at 1. apply Qplus_le_compat; [apply Qle_refl|exact Hd].
Qed.

(** Values within [B] of [c] have their mean within [B] of [c]. *)
Lemma np_mean_within (l : list Q) (c B m : Q) :
  Forall (fun s => Qabs (s - c) <= B) l -> np_mean l = Some m -> Qabs (m - c) <= B.
Proof.
  intros HB Hm. assert (Hl : l <> []) by (intros ->; discriminate).
  rewrite np_mean_some in Hm by exact Hl. injection Hm as <-.
  pose proof (qlen_pos l Hl) as N.
  assert (E : Σ l / qlen l - c == Σ (map (fun s => s - c) l) / qlen l).
  { rewrite qsum_map_minus, qsum_map_const, map_id. fold (qlen l). field. lra. }
  rewrite E. unfold Qdiv. rewrite Qabs_Qmult, Qabs_Qinv, (Qabs_pos (qlen l)) by lra.
  apply Qle_shift_div_r; [exact N|].
  eapply Qle_trans; [apply qsum_map_abs|].
  eapply Qle_trans; [apply (qsum_map_le _ (fun _ => B))|].
  - intros s Hs. exact (proj1 (Forall_forall _ _) HB s Hs).
  - rewrite qsum_map_const. fold (qlen l). rewrite Qmult_comm. apply Qle_refl.
Qed.

(** Values within [B] of [c] have a variance of at most [B^2]. *)
Lemma np_var_within (l : list Q) (c B v : Q) :
  Forall (fun s => Qabs (s - c) <= B) l -> np_var l = Some v -> v <= B * B.
Proof.
  intros HB Hv. pose proof (np_var_le l c v Hv) as Hle.
  assert (Hl : l <> []) by (intros ->; discriminate).
  pose proof (qlen_pos l Hl) as N.
  eapply Qle_trans; [exact Hle|]. apply Qle_shift_div_r; [exact N|].
  eapply Qle_trans; [apply (qsum_map_le _ (fun _ => B * B))|].
  - intros s Hs. pose proof (proj1 (Forall_forall _ _) HB s Hs) as Hs'. cbv beta in Hs'.
    apply Qabs_Qle_condition in Hs'. nra.
  - rewrite qsum_map_const. fold (qlen l). rewrite Qmult_comm. apply Qle_refl.
Qed.

(** ** The printed summary of a Monte Carlo run *)

Section Summary.
Context {G : Type} `{BitGeneratorLaws G}.

(** The slopes of a run of [multi_OLS] with [iterations > 0] and
    non-negative uncertainties: there is at least one, and each is within
    [B = Σ |w_i| * unc_i] of the [polyfit] slope [a]. *)
Lemma multi_OLS_slopes_within (x y u : list Q) (iterations : Z) (g : G) (a b : Q)
      (sl il : list Q) (ml : list (list Q)) (g' : G) :
  polyfit1 x y = inr (a, b) -> length u = length y -> Forall (Qle 0) u ->
  (0 < iterations)%Z ->
  runStateT (multi_OLS x y u iterations) g = inr ((sl, il, ml), g') ->
  sl <> [] /\
  Forall (fun s => Qabs (s - a) <= Σ (zip_with (fun xi h => Qabs (slope_weight x xi) * h) x u)) sl.
Proof.
  intros Hf Hl Hu Hit Hr. split.
  - destruct (multi_OLS_samples x y u iterations g sl il ml g' Hr) as (fits & F & -> & _).
    apply Forall2_length in F. rewrite length_map, length_seq in F.
    intros E. apply map_eq_nil in E. subst fits. simpl in F. lia.
  - refine (proj1 (multi_OLS_fits x y u iterations g _ (fun _ => True) sl il ml g' _ Hr)).
    intros k s i Hk. split; [|exact I]. exact (proj1 (sample_bound x y u g k a b s i Hf Hl Hu Hk)).
Qed.

End Summary.

(** [np.std] is the population standard deviation: on [n >= 2]
    values its square is [(n-1)/n] times the sample variance the
    specification names. *)
Theorem np_var_ddof (l : list Q) (v w : Q) :
  np_var l = Some v -> sample_var l = Some w -> v * qlen l == w * (qlen l - 1).
Proof.
  intros Hv Hw. destruct l as [|s0 [|s1 l]]; try discriminate.
  unfold sample_var in Hw. unfold np_var in Hv. simpl np_mean in Hv, Hw.
  injection Hv as <-. injection Hw as <-.
  assert (N : 1 < qlen (s0 :: s1 :: l)).
  { unfold qlen. simpl length. rewrite !Nat2Z.inj_succ. unfold Qlt; simpl. lia. }
  field. lra.
Qed.

(** ** What the figures draw *)

(** ** The checks of [errorbar] *)

Lemma errorbar_size_ok (xs ys : list Q) :
  length xs = length ys -> errorbar_size_check xs ys = inr tt.
Proof. intros H. unfold errorbar_size_check. rewrite H, Nat.eqb_refl. reflexivity. Qed.

Lemma errorbar_yerr_ok (ys errs : list Q) :
  length errs = length ys -> Forall (Qle 0) errs -> errorbar_yerr_check ys errs = inr tt.
Proof.
  intros Hl Hn. unfold errorbar_yerr_check. rewrite Hl, Nat.eqb_refl. cbn [orb negb].
  destruct (existsb _ errs) eqn:E; [|reflexivity].
  apply existsb_exists in E. destruct E as (e & He & Hb). rewrite Forall_forall in Hn.
  pose proof (Hn e He). rewrite (proj2 (Qle_bool_iff (- e) e)) in Hb by lra. discriminate.
Qed.

Lemma errorbar_yerr_negative (ys errs : list Q) :
  length errs = length ys -> Exists (fun e => e < 0) errs ->
  errorbar_yerr_check ys errs = inl ValueError_negative.
Proof.
  intros Hl Hn. unfold errorbar_yerr_check. rewrite Hl, Nat.eqb_refl. cbn [orb negb].
  replace (existsb _ errs) with true; [reflexivity|]. symmetry. apply existsb_exists.
  apply Exists_exists in Hn. destruct Hn as (e & He & Hneg). exists e. split; [exact He|].
  destruct (Qle_bool (- e) e) eqn:E; [|reflexivity]. apply Qle_bool_iff in E. lra.
Qed.

(** On aligned data, [errorbar] draws exactly when no uncertainty is
    negative, and raises [ValueError] otherwise. *)
Lemma errorbar_call_ok (xs ys errs : list Q) (ax : axes) :
  length xs = length ys -> length errs = length ys -> Forall (Qle 0) errs ->
  errorbar_call xs ys errs ax = inr (errorbar xs ys errs ax).
Proof.
  intros H1 H2 H3. unfold errorbar_call.
  rewrite (errorbar_size_ok xs ys H1), (errorbar_yerr_ok ys errs H2 H3). reflexivity.
Qed.

Lemma errorbar_call_negative (xs ys errs : list Q) (ax : axes) :
  length xs = length ys -> length errs = length ys -> Exists (fun e => e < 0) errs ->
  errorbar_call xs ys errs ax = inl ValueError_negative.
Proof.
  intros H1 H2 H3. unfold errorbar_call.
  rewrite (errorbar_size_ok xs ys H1), (errorbar_yerr_negative ys errs H2 H3). reflexivity.
Qed.

(** ** What the figures draw *)

(** The legend of the first figure pairs ['Data'] with the dashed trend
    line and ['OLS Trend (no weights)'] with the data points: the errorbar
    container comes after the line in matplotlib's handle order, so the two
    labels are swapped. *)
Lemma figure1_legend_swapped (x y unc_y : list Q) (a b : Q) (ax : axes) (leg : list (handle * string)) :
  figure1 x y unc_y a b = inr (ax, leg) ->
  leg = [(HArtist (Line x (model_line a b x) Dashed "k"%string), "Data"%string);
         (HContainer (ErrorbarContainer x y unc_y), "OLS Trend (no weights)"%string)].
Proof.
  unfold figure1. destruct (errorbar_call x y unc_y empty_axes) as [e|ax0] eqn:E; [discriminate|].
  unfold errorbar_call in E.
  destruct (errorbar_size_check x y); [discriminate|]. destruct (errorbar_yerr_check y unc_y); [discriminate|].
  injection E as <-. intros F. injection F as _ <-. reflexivity.
Qed.

Lemma skipn_nth_error {X} (l : list X) (k : nat) (m : X) :
  nth_error l k = Some m -> skipn k l = m :: skipn (S k) l.
Proof.
  revert l; induction k as [|k IH]; intros [|h l] E; simpl in *; try discriminate.
  - injection E as ->. reflexivity.
  - exact (IH l E).
Qed.

Lemma plot_models_seq (x : list Q) (models : list (list Q)) (k n : nat) (ax : axes) :
  (k + n)%nat = length models ->
  plot_models x models (seq k n) ax =
  inr (mk_axes (artists ax ++ map (fun m => Line x m Solid "grey"%string) (skipn k models))
               (containers ax)).
Proof.
  revert k ax; induction n as [|n IH]; intros k ax Hk.
  - rewrite PeanoNat.Nat.add_0_r in Hk. subst k. rewrite skipn_all.
    destruct ax; simpl. rewrite app_nil_r. reflexivity.
  - cbn [seq plot_models]. destruct (nth_error models k) as [m|] eqn:E.
    + rewrite IH by lia. cbn [artists containers plot]. rewrite <- app_assoc.
      rewrite (skipn_nth_error _ _ _ E). reflexivity.
    + apply nth_error_None in E. lia.
Qed.

Section Figure3.
Context {G : Type} `{BitGenerator G}.

(** C30: for a run of [multi_OLS] (line 145) and aligned columns [x],
    [y], [unc_y], the third figure (lines 147-170) draws the data, then one
    grey line per Monte Carlo model in the order of the run, then the
    dashed unweighted and the dash-dotted weighted trend, when no
    uncertainty is negative; with a negative uncertainty [errorbar]
    (line 148) raises [ValueError] and nothing more is drawn. *)
Theorem figure3_run (x y u unc_y : list Q) (iterations : Z) (g : G) (a b : Q) (mw : list Q)
      (sl il : list Q) (ml : list (list Q)) (g' : G) :
  runStateT (multi_OLS x y u iterations) g = inr ((sl, il, ml), g') ->
  length x = length y -> length unc_y = length y ->
  (Forall (Qle 0) unc_y ->
   figure3 x y unc_y a b mw sl ml =
   inr (mk_axes ([ErrorbarData x y; ErrorbarBars x y unc_y]
                 ++ map (fun m => Line x m Solid "grey"%string) ml
                 ++ [Line x (model_line a b x) Dashed "k"%string; Line x mw DashDot "k"%string])
                [ErrorbarContainer x y unc_y])) /\
  (Exists (fun e => e < 0) unc_y -> figure3 x y unc_y a b mw sl ml = inl ValueError_negative).
Proof.
  intros Hr H1 H2. split; intros Hu; unfold figure3;
    [rewrite (errorbar_call_ok x y unc_y empty_axes H1 H2 Hu)
    |rewrite (errorbar_call_negative x y unc_y empty_axes H1 H2 Hu); reflexivity].
  destruct (multi_OLS_samples x y u iterations g sl il ml g' Hr) as (fits & _ & -> & _ & ->).
  rewrite plot_models_seq by (rewrite !length_map; reflexivity).
  cbn [skipn errorbar errorbar_bars errorbar_line empty_axes artists containers plot app].
  unfold plot; cbn [artists containers app].
  rewrite <- !app_assoc. reflexivity.
Qed.

End Figure3.

(** C29: the dash-dotted reference lines of the histograms (the style of
    the weighted trend in figures 2 and 3) are drawn at [BA[1]] and
    [BA[0]], the unweighted fit of line 64: where [polyfit] has a unique
    solution each coincides with the dashed line at [a] or [b]. *)
Theorem figure4_reference_lines (x y : list Q) (a b : Q) (BA sl il : list Q) (yl0 yl1 : Q * Q) :
  polyfit1 x y = inr (a, b) -> ~ design_det x == 0 -> normal_BA x y = inr BA ->
  exists s i, s == a /\ i == b /\
    figure4 sl il a b BA yl0 yl1 =
    inr (mk_axes [Hist sl "peru"%string;
                  VLine a (Qmin (fst yl0) (snd yl0)) (Qmax (fst yl0) (snd yl0)) Dashed;
                  VLine s (Qmin (fst yl0) (snd yl0)) (Qmax (fst yl0) (snd yl0)) DashDot] [BarContainer sl],
         mk_axes [Hist il "mediumslateblue"%string;
                  VLine b (Qmin (fst yl1) (snd yl1)) (Qmax (fst yl1) (snd yl1)) Dashed;
                  VLine i (Qmin (fst yl1) (snd yl1)) (Qmax (fst yl1) (snd yl1)) DashDot] [BarContainer il]).
Proof.
  intros Hf HD HBA. destruct (polyfit1_success x y a b Hf) as (_ & Hl & [(_ & -> & ->)|(HD0 & _)]);
    [|contradiction].
  destruct (normal_BA_closed x y (eq_sym Hl) HD) as (v & Hv & Ve).
  rewrite HBA in Hv. injection Hv as <-.
  inversion Ve as [|p b0 v' l0 Hp Ve' E1 E2]; subst.
  inversion Ve' as [|q a0 v'' l1 Hq Ve'' E3 E4]; subst. inversion Ve''; subst.
  exists q, p. split; [exact Hq|]. split; [exact Hp|]. reflexivity.
Qed.

(** ** Concrete reports and figures *)

Lemma np_var_ddof_witness :
  exists v w, np_var [1; 3] = Some v /\ sample_var [1; 3] = Some w /\ v == 1 /\ w == 2 /\
    v * qlen [1; 3] == w * (qlen [1; 3] - 1).
Proof.
  destruct (np_var [1; 3]) as [v|] eqn:V; [|discriminate].
  destruct (sample_var [1; 3]) as [w|] eqn:W; [|discriminate].
  exists v, w. split; [reflexivity|]. split; [reflexivity|].
  split; [vm_compute in V; injection V as <-; reflexivity|].
  split; [vm_compute in W; injection W as <-; reflexivity|].
  exact (np_var_ddof [1; 3] v w V W).
Defined.

Lemma figure3_run_witness :
  exists sl il ml g', runStateT (multi_OLS run_x run_y run_u 2) run_words = inr ((sl, il, ml), g') /\
    length run_x = length run_y /\ length run_u = length run_y /\ Forall (Qle 0) run_u /\
    figure3 run_x run_y run_u 1 1 [] sl ml =
    inr (mk_axes ([ErrorbarData run_x run_y; ErrorbarBars run_x run_y run_u]
                  ++ map (fun m => Line run_x m Solid "grey"%string) ml
                  ++ [Line run_x (model_line 1 1 run_x) Dashed "k"%string;
                      Line run_x [] DashDot "k"%string])
                 [ErrorbarContainer run_x run_y run_u]) /\
    figure3 run_x run_y [1; -1; 1] 1 1 [] sl ml = inl ValueError_negative.
Proof.
  destruct (runStateT (multi_OLS run_x run_y run_u 2) run_words) as [e|[[[sl il] ml] g']] eqn:E;
    [vm_compute in E; discriminate|].
  assert (Hu : Forall (Qle 0) run_u)
    by (unfold run_u; repeat apply Forall_cons; try apply Forall_nil; unfold Qle; simpl; lia).
  exists sl, il, ml, g'. split; [reflexivity|]. split; [reflexivity|]. split; [reflexivity|].
  split; [exact Hu|]. split.
  - exact (proj1 (figure3_run run_x run_y run_u run_u 2 run_words 1 1 [] sl il ml g' E
                    eq_refl eq_refl) Hu).
  - apply (proj2 (figure3_run run_x run_y run_u [1; -1; 1] 2 run_words 1 1 [] sl il ml g' E
                    eq_refl eq_refl)).
    apply Exists_cons_tl, Exists_cons_hd. reflexivity.
Defined.

Lemma figure4_reference_lines_witness :
  exists a b BA, polyfit1 [0; 1; 2; 3] [1; 2; 3; 41 # 10] = inr (a, b) /\
    ~ design_det [0; 1; 2; 3] == 0 /\ normal_BA [0; 1; 2; 3] [1; 2; 3; 41 # 10] = inr BA /\
    exists s i, s == a /\ i == b /\ exists ax0 ax1, figure4 [1] [1] a b BA (0, 1) (0, 1) = inr (ax0, ax1).
Proof.
  destruct (polyfit1 [0; 1; 2; 3] [1; 2; 3; 41 # 10]) as [e|[a b]] eqn:F;
    [vm_compute in F; discriminate|].
  destruct (normal_BA [0; 1; 2; 3] [1; 2; 3; 41 # 10]) as [e|BA] eqn:N;
    [vm_compute in N; discriminate|].
  assert (HD : ~ design_det [0; 1; 2; 3] == 0) by (vm_compute; discriminate).
  exists a, b, BA. split; [reflexivity|]. split; [exact HD|]. split; [reflexivity|].
  destruct (figure4_reference_lines _ _ a b BA [1] [1] (0, 1) (0, 1) F HD N) as (s & i & Hs & Hi & Hfig).
  exists s, i. split; [exact Hs|]. split; [exact Hi|]. eexists _, _. exact Hfig.
Defined.
