(* ===== verification/Histogram.v ===== *)
(** * Histogram: [np.histogram] and the autoscaled limits of a histogram

    Lines 190 and 195 call [axes4[k].hist(data)] with matplotlib's default
    [bins = rcParams['hist.bins'] = 10]; matplotlib counts the bars with
    [np.histogram(data, 10)] and draws one rectangle of that height per bin,
    standing on [y = 0] (a sticky edge).  Lines 191 and 196 then read the
    limits [get_ylim()], which autoscaling sets to the data interval
    [[0, M]] of the bars ([M] the highest count) widened by the default
    margin [axes.ymargin = 0.05] and clipped at the sticky edge [0]: the
    interval [[0, 21/20 * M]].

    [np.histogram] with an integer [bins] (numpy's [_histograms_impl]):
    - [_get_outer_edges]: the range is [(a.min(), a.max())], [(0, 1)] on an
      empty array, widened to [(v - 0.5, v + 0.5)] when both are [v];
    - the edges are [np.linspace(first_edge, last_edge, bins + 1)];
    - each value kept ([first_edge <= v <= last_edge]) goes to the bin
      [int((v - first_edge) / (last_edge - first_edge) * bins)], moved from
      [bins] to [bins - 1], then down by one if it lies below the bin's left
      edge and up by one if it reaches the next edge (except from the last
      bin); [np.bincount] counts the bins.
    On exact rationals the two corrections never fire ([bin_index_spec]):
    the fast computation agrees with the definition of a histogram by its
    half-open bins ([hist_ref]). *)

From Stdlib Require Import String QArith Qround Qminmax Lqa List Lia ZArith.
From S2P Require Import Prelude Report.
Import ListNotations.

Open Scope Q_scope.

(** ** The bins of [np.histogram] *)

(** [np.linspace(start, stop, num)]: [arange(num) * step + start] with
    [step = (stop - start) / (num - 1)], the last entry set to [stop]. *)
Definition linspace (start stop : Q) (num : nat) : list Q :=
  let div := inject_Z (Z.of_nat (num - 1)) in
  let step := (stop - start) / div in
  map (fun i => if Nat.eqb i (num - 1) then stop else inject_Z (Z.of_nat i) * step + start)
      (seq 0 num).

(** [_get_outer_edges(a, None)]. *)
Definition outer_edges (a : list Q) : Q * Q :=
  let '(first_edge, last_edge) :=
    match a with
    | [] => (0, 1)
    | v :: rest => (fold_left Qmin rest v, fold_left Qmax rest v)
    end in
  if Qeq_bool first_edge last_edge
  then (first_edge - (1 # 2), last_edge + (1 # 2))
  else (first_edge, last_edge).

(** The bin of one value: the scaled index, truncated, then corrected
    against the edges as numpy does. *)
Definition bin_index (first_edge last_edge : Q) (n_equal_bins : nat) (bin_edges : list Q) (v : Q)
  : nat :=
  let f_index := (v - first_edge) / (last_edge - first_edge) * inject_Z (Z.of_nat n_equal_bins) in
  let i := Z.to_nat (Qfloor f_index) in
  let i := if Nat.eqb i n_equal_bins then (i - 1)%nat else i in
  let i := if negb (Qle_bool (nth i bin_edges 0) v) then (i - 1)%nat else i in
  if Qle_bool (nth (S i) bin_edges 0) v && negb (Nat.eqb i (n_equal_bins - 1))
  then S i else i.

(** [np.histogram(a, bins)]: the counts and the edges. *)
Definition np_histogram (a : list Q) (bins : nat) : list nat * list Q :=
  let '(first_edge, last_edge) := outer_edges a in
  let bin_edges := linspace first_edge last_edge (S bins) in
  let keep := filter (fun v => Qle_bool first_edge v && Qle_bool v last_edge) a in
  let indices := map (bin_index first_edge last_edge bins bin_edges) keep in
  (map (count_occ Nat.eq_dec indices) (seq 0 bins), bin_edges).

(** The definition of a histogram: bin [k] holds the values in
    [[edge k, edge (k+1))], the last bin also its right edge. *)
Definition in_bin (bin_edges : list Q) (n : nat) (k : nat) (v : Q) : bool :=
  Qle_bool (nth k bin_edges 0) v &&
  (if Nat.eqb k (n - 1) then Qle_bool v (nth (S k) bin_edges 0)
   else negb (Qle_bool (nth (S k) bin_edges 0) v)).

Definition hist_ref (a : list Q) (n : nat) : list nat :=
  let '(first_edge, last_edge) := outer_edges a in
  let bin_edges := linspace first_edge last_edge (S n) in
  map (fun k => length (filter (in_bin bin_edges n k) a)) (seq 0 n).

(** ** The limits of an [Axes] holding histograms *)

(** [rcParams['hist.bins']]. *)
Definition hist_bins : nat := 10.

(** The top of the bars of one artist: the highest count of its
    histogram; the axes queried by lines 191 and 196 hold one histogram. *)
Definition artist_ymax (a : artist) : Q :=
  match a with
  | Hist data _ => inject_Z (Z.of_nat (list_max (fst (np_histogram data hist_bins))))
  | _ => 0
  end.

(** [ax.get_ylim()] after autoscaling: the data interval [[0, M]] widened
    by the margin [0.05] on each side, the lower end held at the sticky
    edge [0] of the bars. *)
Definition mpl_get_ylim (ax : axes) : Q * Q :=
  let M := fold_left Qmax (map artist_ymax (artists ax)) 0 in
  let margin := 1 # 20 in
  (Qmax 0 (0 - margin * (M - 0)), M + margin * (M - 0)).

(** ** Lemmas on the edges *)

Lemma length_linspace (start stop : Q) (num : nat) : length (linspace start stop num) = num.
Proof. unfold linspace. rewrite length_map, length_seq. reflexivity. Qed.

Section UniformBins.
Variables (lo hi : Q) (n : nat).
Hypothesis Hlohi : lo < hi.
Hypothesis Hn : (1 <= n)%nat.

(** The width of a bin, and the left edge of bin [i]. *)
Definition bin_width : Q := (hi - lo) / inject_Z (Z.of_nat n).
Definition edge (i : nat) : Q := inject_Z (Z.of_nat i) * bin_width + lo.

Lemma n_pos : 0 < inject_Z (Z.of_nat n).
Proof. unfold Qlt; simpl. lia. Qed.

Lemma bin_width_pos : 0 < bin_width.
Proof.
  unfold bin_width. apply Qlt_shift_div_l; [exact n_pos|]. rewrite Qmult_0_l. lra.
Qed.

Lemma linspace_nth (i : nat) : (i <= n)%nat -> nth i (linspace lo hi (S n)) 0 == edge i.
Proof.
  intros Hi. unfold linspace. rewrite nth_map_seq by lia.
  replace (S n - 1)%nat with n by lia. unfold edge, bin_width.
  destruct (Nat.eqb_spec i n) as [->|_]; [|reflexivity].
  pose proof n_pos. field. intros E. rewrite E in H. discriminate.
Qed.

Lemma edge_le_iff (i : nat) (t : Q) : edge i <= t * bin_width + lo <-> inject_Z (Z.of_nat i) <= t.
Proof.
  unfold edge. pose proof bin_width_pos.
  rewrite Qplus_le_l. exact (Qmult_le_r _ _ _ H).
Qed.

Lemma edge_lt_iff (i : nat) (t : Q) : t * bin_width + lo < edge i <-> t < inject_Z (Z.of_nat i).
Proof.
  unfold edge. pose proof bin_width_pos.
  rewrite Qplus_lt_l. exact (Qmult_lt_r _ _ _ H).
Qed.

Lemma edge_n : edge n == hi.
Proof. unfold edge, bin_width. pose proof n_pos. field. intros E. rewrite E in H. discriminate. Qed.

(** Every value is [t * bin_width + lo] for [t] its scaled position. *)
Lemma value_scaled (v : Q) :
  v == (v - lo) / (hi - lo) * inject_Z (Z.of_nat n) * bin_width + lo.
Proof.
  unfold bin_width. pose proof n_pos. field. split; [intros E; rewrite E in H; discriminate|].
  intros E. lra.
Qed.

Lemma edge_ge_iff (i : nat) (t : Q) : t * bin_width + lo <= edge i <-> t <= inject_Z (Z.of_nat i).
Proof.
  unfold edge. pose proof bin_width_pos.
  rewrite Qplus_le_l. exact (Qmult_le_r _ _ _ H).
Qed.

Lemma edge_mono (i j : nat) : (i <= j)%nat -> edge i <= edge j.
Proof.
  intros H. unfold edge. pose proof bin_width_pos. rewrite Qplus_le_l.
  apply Qmult_le_compat_r; [rewrite <- Zle_Qle; lia|lra].
Qed.

Lemma edge_0 : edge 0 == lo.
Proof. unfold edge. cbn [Z.of_nat]. ring. Qed.

Lemma qle_nth_edge (i : nat) (w : Q) :
  (i <= n)%nat -> Qle_bool (nth i (linspace lo hi (S n)) 0) w = true <-> edge i <= w.
Proof. intros H. rewrite Qle_bool_iff, (linspace_nth i H). reflexivity. Qed.

Lemma qle_nth_edge_r (i : nat) (w : Q) :
  (i <= n)%nat -> Qle_bool w (nth i (linspace lo hi (S n)) 0) = true <-> w <= edge i.
Proof. intros H. rewrite Qle_bool_iff, (linspace_nth i H). reflexivity. Qed.

Lemma qle_nth_edge_false (i : nat) (w : Q) :
  (i <= n)%nat -> Qle_bool (nth i (linspace lo hi (S n)) 0) w = false <-> w < edge i.
Proof.
  intros H. split; intros Hw.
  - apply Qnot_le_lt. intros Hle. apply (qle_nth_edge i w H) in Hle. congruence.
  - destruct (Qle_bool _ w) eqn:E; [|reflexivity]. apply (qle_nth_edge i w H) in E. lra.
Qed.

(** numpy's index lands in the half-open bin of the value: the scaled
    position truncated, [n] moved to [n - 1], and neither correction fires. *)
Lemma bin_index_spec (v : Q) :
  lo <= v <= hi ->
  (bin_index lo hi n (linspace lo hi (S n)) v < n)%nat /\
  edge (bin_index lo hi n (linspace lo hi (S n)) v) <= v /\
  (v < edge (S (bin_index lo hi n (linspace lo hi (S n)) v)) \/
   (bin_index lo hi n (linspace lo hi (S n)) v = (n - 1)%nat /\
    v <= edge (S (bin_index lo hi n (linspace lo hi (S n)) v)))).
Proof.
  intros [Hlo Hhi]. unfold bin_index.
  set (f := (v - lo) / (hi - lo) * inject_Z (Z.of_nat n)).
  assert (Hv : v == f * bin_width + lo) by apply value_scaled.
  assert (Hf0 : 0 <= f).
  { apply (edge_le_iff 0 f). rewrite <- Hv, edge_0. exact Hlo. }
  assert (Hfn : f <= inject_Z (Z.of_nat n)).
  { apply edge_ge_iff. rewrite <- Hv, edge_n. exact Hhi. }
  pose proof (Qfloor_le f) as Hfl. pose proof (Qlt_floor f) as Hfu.
  assert (Hz0 : (0 <= Qfloor f)%Z) by exact (Qfloor_resp_le 0 f Hf0).
  assert (Hzn : (Qfloor f <= Z.of_nat n)%Z) by (rewrite Zle_Qle; exact (Qle_trans _ _ _ Hfl Hfn)).
  set (i0 := Z.to_nat (Qfloor f)).
  assert (Hi0 : Z.of_nat i0 = Qfloor f) by (unfold i0; lia).
  destruct (Nat.eqb_spec i0 n) as [Ei|Ni].
  - assert (Hge : edge (n - 1) <= v).
    { rewrite Hv. apply edge_le_iff. apply Qle_trans with (inject_Z (Qfloor f)); [|exact Hfl].
      rewrite <- Zle_Qle. lia. }
    replace (i0 - 1)%nat with (n - 1)%nat by lia.
    rewrite (proj2 (qle_nth_edge (n - 1) v ltac:(lia)) Hge), Nat.eqb_refl, andb_false_r. cbn [negb].
    split; [lia|]. split; [exact Hge|]. right. split; [reflexivity|].
    replace (S (n - 1)) with n by lia. rewrite edge_n. exact Hhi.
  - assert (Hge : edge i0 <= v) by (rewrite Hv; apply edge_le_iff; rewrite Hi0; exact Hfl).
    assert (Hlt : v < edge (S i0)).
    { rewrite Hv. apply edge_lt_iff. rewrite Nat2Z.inj_succ, Hi0, <- Z.add_1_r. exact Hfu. }
    rewrite (proj2 (qle_nth_edge i0 v ltac:(lia)) Hge). cbn [negb].
    rewrite (proj2 (qle_nth_edge_false (S i0) v ltac:(lia)) Hlt). cbn [andb].
    split; [lia|]. split; [exact Hge|]. left. exact Hlt.
Qed.

Lemma in_bin_iff (k : nat) (v : Q) :
  (k < n)%nat ->
  in_bin (linspace lo hi (S n)) n k v = true <->
  edge k <= v /\ (if Nat.eqb k (n - 1) then v <= edge (S k) else v < edge (S k)).
Proof.
  intros Hk. unfold in_bin. rewrite andb_true_iff, (qle_nth_edge k v ltac:(lia)).
  destruct (Nat.eqb k (n - 1)).
  - rewrite (qle_nth_edge_r (S k) v ltac:(lia)). reflexivity.
  - rewrite negb_true_iff, (qle_nth_edge_false (S k) v ltac:(lia)). reflexivity.
Qed.

(** The bins are disjoint and cover [[lo, hi]]: numpy's index is the one
    bin that holds the value. *)
Lemma bin_index_in_bin (v : Q) (k : nat) :
  lo <= v <= hi -> (k < n)%nat ->
  Nat.eqb (bin_index lo hi n (linspace lo hi (S n)) v) k = in_bin (linspace lo hi (S n)) n k v.
Proof.
  intros Hv Hk. destruct (bin_index_spec v Hv) as (Hb & Hge & Hr).
  set (b := bin_index lo hi n (linspace lo hi (S n)) v) in *.
  destruct (Nat.eqb_spec b k) as [<-|Nb].
  - symmetry. apply (in_bin_iff b v Hb). split; [exact Hge|].
    destruct (Nat.eqb_spec b (n - 1)); destruct Hr as [Hr|[Hr Hr']]; try lra; congruence.
  - symmetry. destruct (in_bin _ _ k v) eqn:E; [|reflexivity].
    apply (in_bin_iff k v Hk) in E. destruct E as [Hk1 Hk2]. exfalso.
    destruct (proj1 (Nat.lt_gt_cases b k) Nb) as [Lt|Gt].
    + pose proof (edge_mono (S b) k Lt).
      destruct Hr as [Hr|[Hr _]]; [lra|lia].
    + pose proof (edge_mono (S k) b Gt).
      destruct (Nat.eqb_spec k (n - 1)); [lia|lra].
Qed.

End UniformBins.

(** ** The outer edges *)

Lemma fold_min_le (rest : list Q) (v : Q) :
  fold_left Qmin rest v <= v /\ Forall (fun w => fold_left Qmin rest v <= w) rest.
Proof.
  revert v; induction rest as [|w rest IH]; intros v; cbn [fold_left].
  - split; [lra|constructor].
  - destruct (IH (Qmin v w)) as [H1 H2]. split; [|constructor; [|exact H2]].
    + eapply Qle_trans; [exact H1|apply Q.le_min_l].
    + eapply Qle_trans; [exact H1|apply Q.le_min_r].
Qed.

Lemma fold_max_ge (rest : list Q) (v : Q) :
  v <= fold_left Qmax rest v /\ Forall (fun w => w <= fold_left Qmax rest v) rest.
Proof.
  revert v; induction rest as [|w rest IH]; intros v; cbn [fold_left].
  - split; [lra|constructor].
  - destruct (IH (Qmax v w)) as [H1 H2]. split; [|constructor; [|exact H2]].
    + eapply Qle_trans; [apply Q.le_max_l|exact H1].
    + eapply Qle_trans; [apply Q.le_max_r|exact H1].
Qed.

(** The range of [np.histogram] is a proper interval holding every value. *)
Lemma outer_edges_spec (a : list Q) :
  fst (outer_edges a) < snd (outer_edges a) /\
  forall v, In v a -> fst (outer_edges a) <= v /\ v <= snd (outer_edges a).
Proof.
  destruct a as [|v0 rest].
  - split; [reflexivity|intros v []].
  - set (lo0 := fold_left Qmin rest v0). set (hi0 := fold_left Qmax rest v0).
    destruct (fold_min_le rest v0) as [Hl Hls]. destruct (fold_max_ge rest v0) as [Hh Hhs].
    fold lo0 in Hl, Hls. fold hi0 in Hh, Hhs. rewrite Forall_forall in Hls, Hhs.
    assert (Hin : forall v, In v (v0 :: rest) -> lo0 <= v /\ v <= hi0)
      by (intros v [<-|Hv]; [split; assumption|split; auto]).
    change (outer_edges (v0 :: rest))
      with (if Qeq_bool lo0 hi0 then (lo0 - (1 # 2), hi0 + (1 # 2)) else (lo0, hi0)).
    destruct (Qeq_bool lo0 hi0) eqn:E; cbn [fst snd].
    + split; [lra|]. intros v Hv. destruct (Hin v Hv). split; lra.
    + rewrite <- not_true_iff_false, Qeq_bool_iff in E. split; [|exact Hin].
      destruct (Qle_lt_or_eq lo0 hi0); [lra|assumption|contradiction].
Qed.

Lemma filter_all {X} (p : X -> bool) (l : list X) :
  (forall x, In x l -> p x = true) -> filter p l = l.
Proof.
  induction l as [|x l IH]; intros H; [reflexivity|]. cbn [filter].
  rewrite (H x (or_introl eq_refl)), IH by (intros y Hy; apply H; right; exact Hy). reflexivity.
Qed.

(** With [range=None] no value is dropped: [np.histogram] counts the bin
    index of every value. *)
Lemma np_histogram_unfold (a : list Q) (n : nat) (lo hi : Q) :
  outer_edges a = (lo, hi) ->
  np_histogram a n =
  (map (count_occ Nat.eq_dec (map (bin_index lo hi n (linspace lo hi (S n))) a)) (seq 0 n),
   linspace lo hi (S n)).
Proof.
  intros E. destruct (outer_edges_spec a) as [_ Hin]. rewrite E in Hin. cbn [fst snd] in Hin.
  unfold np_histogram. rewrite E. f_equal. f_equal. f_equal. f_equal.
  apply filter_all. intros v Hv. destruct (Hin v Hv) as [H1 H2].
  rewrite (proj2 (Qle_bool_iff _ _) H1), (proj2 (Qle_bool_iff _ _) H2). reflexivity.
Qed.

(** ** Counting *)

Lemma count_occ_map {X} (f : X -> nat) (l : list X) (k : nat) :
  count_occ Nat.eq_dec (map f l) k = length (filter (fun x => Nat.eqb (f x) k) l).
Proof.
  induction l as [|x l IH]; [reflexivity|]. cbn [map count_occ filter].
  destruct (Nat.eq_dec (f x) k), (Nat.eqb_spec (f x) k); try contradiction;
    cbn [length]; rewrite IH; reflexivity.
Qed.

Lemma list_sum_map_add {X} (f g : X -> nat) (l : list X) :
  list_sum (map (fun k => f k + g k)%nat l) = (list_sum (map f l) + list_sum (map g l))%nat.
Proof. induction l as [|x l IH]; [reflexivity|]. simpl in *. lia. Qed.

Lemma sum_indicator (x n : nat) :
  list_sum (map (fun k => if Nat.eq_dec x k then 1 else 0)%nat (seq 0 n)) = if Nat.ltb x n then 1%nat else 0%nat.
Proof.
  induction n as [|n IH]; [reflexivity|].
  rewrite seq_S, map_app, list_sum_app, IH. cbn [map list_sum fold_right].
  destruct (Nat.eq_dec x (0 + n)), (Nat.ltb_spec x n), (Nat.ltb_spec x (S n)); lia.
Qed.

(** Counting every bin below [n] counts every index below [n] once. *)
Lemma list_sum_count_occ (l : list nat) (n : nat) :
  Forall (fun i => (i < n)%nat) l -> list_sum (map (count_occ Nat.eq_dec l) (seq 0 n)) = length l.
Proof.
  induction l as [|x l IH]; intros Hl.
  - cbn [count_occ]. clear. induction (seq 0 n); cbn; auto.
  - inversion Hl as [|? ? Hx Hl']; subst.
    rewrite (map_ext (count_occ Nat.eq_dec (x :: l))
                     (fun k => (if Nat.eq_dec x k then 1 else 0) + count_occ Nat.eq_dec l k)%nat)
      by (intros k; cbn [count_occ]; destruct (Nat.eq_dec x k); reflexivity).
    rewrite list_sum_map_add, sum_indicator, IH by exact Hl'.
    destruct (Nat.ltb_spec x n); [cbn [length]; lia|lia].
Qed.

(** Every value of the array is counted once. *)
Lemma np_histogram_sum (a : list Q) (n : nat) :
  (1 <= n)%nat -> list_sum (fst (np_histogram a n)) = length a.
Proof.
  intros Hn. destruct (outer_edges_spec a) as [Hlt Hin].
  destruct (outer_edges a) as [lo hi] eqn:E. cbn [fst snd] in Hlt, Hin.
  rewrite (np_histogram_unfold a n lo hi E). cbn [fst].
  rewrite list_sum_count_occ, length_map; [reflexivity|].
  apply Forall_forall. intros i Hi. apply in_map_iff in Hi. destruct Hi as (v & <- & Hv).
  exact (proj1 (bin_index_spec lo hi n Hlt Hn v (Hin v Hv))).
Qed.

Lemma list_max_pos (l : list nat) : (0 < list_sum l)%nat -> (0 < list_max l)%nat.
Proof.
  intros H. apply Nat.neq_0_lt_0. intros E.
  assert (Hz : Forall (fun k => k <= 0)%nat l) by (apply list_max_le; lia).
  clear E. unfold list_sum in *. induction Hz as [|x l Hx _ IH]; simpl in *; lia.
Qed.

(** ** The limits read by lines 191 and 196 *)

(** The highest bar of a histogram drawn alone on fresh axes. *)
Lemma hist_ymax (data : list Q) (color : string) :
  fold_left Qmax (map artist_ymax (artists (hist data color empty_axes))) 0
  == inject_Z (Z.of_nat (list_max (fst (np_histogram data hist_bins)))).
Proof.
  cbn [artists hist empty_axes app map fold_left artist_ymax].
  apply Q.max_r. unfold Qle; simpl. lia.
Qed.

(** After [hist] on a non-empty array, [get_ylim()] is [(0, 21/20 * M)]
    for the highest count [M >= 1]: every bar ends strictly below the top. *)
Lemma hist_ylim_bars (data : list Q) (color : string) :
  data <> [] ->
  let yl := mpl_get_ylim (hist data color empty_axes) in
  Qmin (fst yl) (snd yl) == 0 /\
  Qmax (fst yl) (snd yl) == (21 # 20) * inject_Z (Z.of_nat (list_max (fst (np_histogram data hist_bins)))) /\
  forall c, In c (fst (np_histogram data hist_bins)) -> inject_Z (Z.of_nat c) < Qmax (fst yl) (snd yl).
Proof.
  intros Hd yl. unfold yl, mpl_get_ylim. cbn [fst snd]. rewrite hist_ymax.
  set (M := list_max (fst (np_histogram data hist_bins))).
  assert (HM : (0 < M)%nat).
  { apply list_max_pos. rewrite np_histogram_sum by (unfold hist_bins; lia).
    destruct data; [contradiction|cbn; lia]. }
  assert (HQ : 0 < inject_Z (Z.of_nat M)) by (unfold Qlt; simpl; lia).
  assert (E0 : Qmax 0 (0 - (1 # 20) * (inject_Z (Z.of_nat M) - 0)) == 0) by (apply Q.max_l; lra).
  rewrite E0, Q.min_l, Q.max_r by lra.
  split; [reflexivity|]. split; [ring|].
  intros c Hc. pose proof (proj1 (list_max_le _ M) (Nat.le_refl M)) as F.
  rewrite Forall_forall in F. specialize (F c Hc). rewrite hist_ymax. fold M. rewrite E0, Q.max_r by lra.
  assert (inject_Z (Z.of_nat c) <= inject_Z (Z.of_nat M)) by (rewrite <- Zle_Qle; lia).
  lra.
Qed.

(** ** What [np.histogram] computes *)

(** C13: with [bins >= 1] the counts of [np.histogram] (numpy's fast
    computation: truncated scaled position, then the two corrections) are
    those of the definition of a histogram: bin [k] counts the values [v]
    with [edge k <= v < edge (k+1)], the last bin also the values on its
    right edge. *)
Theorem np_histogram_ref (a : list Q) (n : nat) :
  (1 <= n)%nat -> fst (np_histogram a n) = hist_ref a n.
Proof.
  intros Hn. destruct (outer_edges_spec a) as [Hlt Hin].
  unfold hist_ref. destruct (outer_edges a) as [lo hi] eqn:E. cbn [fst snd] in Hlt, Hin.
  rewrite (np_histogram_unfold a n lo hi E). cbn [fst].
  apply map_ext_in. intros k Hk. apply in_seq in Hk.
  rewrite count_occ_map. f_equal. apply filter_ext_in. intros v Hv.
  apply bin_index_in_bin; [exact Hlt|exact Hn|exact (Hin v Hv)|lia].
Qed.

(** C14: with [bins >= 1], [np.histogram] returns [bins] counts that add
    up to the length of the array (every value is counted once) and
    [bins + 1] edges, the first at or below and the last at or above every
    value. *)
Theorem np_histogram_counts (a : list Q) (n : nat) :
  (1 <= n)%nat ->
  length (fst (np_histogram a n)) = n /\
  list_sum (fst (np_histogram a n)) = length a /\
  length (snd (np_histogram a n)) = S n /\
  (forall v, In v a -> nth 0 (snd (np_histogram a n)) 0 <= v /\ v <= nth n (snd (np_histogram a n)) 0).
Proof.
  intros Hn. pose proof (np_histogram_sum a n Hn) as Hs.
  destruct (outer_edges_spec a) as [Hlt Hin].
  destruct (outer_edges a) as [lo hi] eqn:E. cbn [fst snd] in Hlt, Hin.
  rewrite (np_histogram_unfold a n lo hi E) in Hs |- *. cbn [fst snd] in Hs |- *.
  split; [rewrite length_map, length_seq; reflexivity|]. split; [exact Hs|].
  split; [apply length_linspace|]. intros v Hv.
  rewrite !linspace_nth, edge_0, edge_n by (assumption || lia). exact (Hin v Hv).
Qed.

(** ** A concrete histogram *)

(** Five values, the largest alone in the last bin. *)
Definition hist_sample : list Q := [1; 2; 3; 4; 10].

Lemma np_histogram_ref_witness :
  (1 <= hist_bins)%nat /\
  fst (np_histogram hist_sample hist_bins) = hist_ref hist_sample hist_bins /\
  hist_ref hist_sample hist_bins = [1; 1; 1; 1; 0; 0; 0; 0; 0; 1]%nat.
Proof.
  split; [unfold hist_bins; lia|]. split; [apply np_histogram_ref; unfold hist_bins; lia|].
  vm_compute. reflexivity.
Defined.

Lemma np_histogram_counts_witness :
  (1 <= hist_bins)%nat /\ list_sum (fst (np_histogram hist_sample hist_bins)) = 5%nat.
Proof.
  split; [unfold hist_bins; lia|].
  exact (proj1 (proj2 (np_histogram_counts hist_sample hist_bins ltac:(unfold hist_bins; lia)))).
Defined.
