(* ===== verification/Std.v ===== *)
(** * Std: [np.std] and the summary printed by line 202

    [np.std(l)] is the square root of the population variance [np_var l]
    (numpy's default [ddof=0]); the root is taken over the reals, through
    the embedding [Q2R] of the rationals.  Line 202 prints
    [np.mean(slopes)] and [np.std(slopes)]; [report] is that pair, [None]
    standing for numpy's [nan] on an empty array. *)

From Stdlib Require Import QArith Qabs Reals Qreals List Lia ZArith Lra.
From ExtLib Require Import Structures.Monad Data.Monads.StateMonad Data.Monads.EitherMonad.
From S2P Require Import Prelude Random Polyfit MonteCarlo Report.
Import ListNotations.

Open Scope Q_scope.
Open Scope tex_scope.

(** [np.std(l)]. *)
Definition np_std (l : list Q) : option R :=
  match np_var l with
  | None => None
  | Some v => Some (sqrt (Q2R v))
  end.

(** Line 202: the printed mean and standard deviation. *)
Definition report (slopes : list Q) : option Q * option R := (np_mean slopes, np_std slopes).

(** A variance at most [B^2] gives a standard deviation in [[0, B]]. *)
Lemma sqrt_Q2R_le (v B : Q) : 0 <= B -> v <= B * B -> Rle 0 (sqrt (Q2R v)) /\ Rle (sqrt (Q2R v)) (Q2R B).
Proof.
  intros HB Hv. split; [apply sqrt_pos|].
  rewrite <- (sqrt_square (Q2R B)) by (apply (Qle_Rle 0 B) in HB; rewrite RMicromega.Q2R_0 in HB; exact HB).
  apply sqrt_le_1_alt. rewrite <- Q2R_mult. apply Qle_Rle. exact Hv.
Qed.

Section Summary.
Context {G : Type} `{BitGeneratorLaws G}.

(** C12: for a run of [multi_OLS] with [iterations > 0], non-negative
    uncertainties and a data set that [polyfit] fits with slope [a], line
    202 prints a mean within [B] of [a] and a standard deviation between
    [0] and [B], where [B = Σ |w_i| * unc_i] is the perturbation carried
    to the slope through the fit weights [w_i]. *)
Theorem report_slope_spread (x y u : list Q) (iterations : Z) (g : G) (a b : Q)
      (sl il : list Q) (ml : list (list Q)) (g' : G) :
  polyfit1 x y = inr (a, b) -> length u = length y -> Forall (Qle 0) u ->
  (0 < iterations)%Z ->
  runStateT (multi_OLS x y u iterations) g = inr ((sl, il, ml), g') ->
  exists m sd, report sl = (Some m, Some sd) /\
    Qabs (m - a) <= Σ (zip_with (fun xi h => Qabs (slope_weight x xi) * h) x u) /\
    Rle 0 sd /\ Rle sd (Q2R (Σ (zip_with (fun xi h => Qabs (slope_weight x xi) * h) x u))).
Proof.
  intros Hf Hl Hu Hit Hr.
  destruct (multi_OLS_slopes_within x y u iterations g a b sl il ml g' Hf Hl Hu Hit Hr) as [Hne HB].
  set (B := Σ (zip_with (fun xi h => Qabs (slope_weight x xi) * h) x u)) in *.
  destruct sl as [|s0 sl]; [congruence|].
  assert (HB0 : 0 <= B) by (inversion HB; subst; eapply Qle_trans; [apply Qabs_nonneg|eassumption]).
  destruct (np_var (s0 :: sl)) as [v|] eqn:Hv; [|rewrite np_var_some in Hv by discriminate; discriminate].
  exists (Σ (s0 :: sl) / qlen (s0 :: sl)), (sqrt (Q2R v)). unfold report, np_std. rewrite Hv.
  split; [reflexivity|]. split.
  - exact (np_mean_within (s0 :: sl) a B _ HB eq_refl).
  - exact (sqrt_Q2R_le v B HB0 (np_var_within (s0 :: sl) a B v HB Hv)).
Qed.

End Summary.

(** ** A concrete report *)

Lemma report_slope_spread_witness :
  exists a b sl il ml g' m sd,
    polyfit1 run_x run_y = inr (a, b) /\
    runStateT (multi_OLS run_x run_y run_u 2) run_words = inr ((sl, il, ml), g') /\
    report sl = (Some m, Some sd) /\
    Rle sd (Q2R (Σ (zip_with (fun xi h => Qabs (slope_weight run_x xi) * h) run_x run_u))).
Proof.
  destruct (polyfit1 run_x run_y) as [e|[a b]] eqn:F; [vm_compute in F; discriminate|].
  destruct (runStateT (multi_OLS run_x run_y run_u 2) run_words) as [e|[[[sl il] ml] g']] eqn:E;
    [vm_compute in E; discriminate|].
  assert (Hu : Forall (Qle 0) run_u)
    by (unfold run_u; repeat apply Forall_cons; try apply Forall_nil; unfold Qle; simpl; lia).
  destruct (report_slope_spread run_x run_y run_u 2 run_words a b sl il ml g' F eq_refl Hu
              ltac:(lia) E) as (m & sd & Hrep & _ & _ & Hsd).
  exists a, b, sl, il, ml, g', m, sd. split; [reflexivity|]. split; [reflexivity|].
  split; [exact Hrep|exact Hsd].
Defined.
