(* ===== verification/Pyplot.v ===== *)
(** * Pyplot: the module-level figure state of [matplotlib.pyplot]

    The notebook draws through the object interface ([axes1.errorbar],
    [axes4[0].hist], ...) but labels and saves through pyplot's global
    state: [plt.ylabel] and [plt.xlabel] (lines 50-51, 100-101, 172-173)
    act on the current axes of the current figure, and [plt.savefig]
    (lines 103, 175, 201) writes the current figure.  Which figure that is
    depends on the order of the [plt.subplots] calls (lines 30, 80, 147,
    189), the state the specification's design notes call "global mutable
    plotting state".

    The model keeps that state as pyplot does: the open figures, each a
    list of [Axes] in creation order with its current axes, the current
    figure, and the files written so far with the figure each holds.  A
    variable such as [axes1] is a handle ([axes_ref]) on an [Axes] of the
    store: the variable and the figure share the object, so drawing through
    the handle changes what the figure (and a later [savefig]) shows.

    [plt_ok] and the tactic [plt_chain] follow a figure through the calls
    of a cell (used by [Notebook]); [savefig_writes_new_figure] shows that
    after [plt.subplots] any sequence of calls ([plt_call], [plt_run])
    leaves the new figure current, so [savefig] writes it. *)

From Stdlib Require Import String QArith Arith List Lia.
From S2P Require Import Prelude Report.
Import ListNotations.

(** ** The state *)

(** An [Axes] as the figure keeps it: what is drawn on it ([Report.axes]),
    its legend, and the texts set by [set_xlabel], [set_ylabel] and
    [set_title]. *)
Record pax := mk_pax {
  drawn : axes;
  legend_of : option (list (handle * string));
  xlabel_of : option string;
  ylabel_of : option string;
  title_of : option string
}.

Definition new_pax : pax := mk_pax empty_axes None None None None.

(** A [Figure]: its axes in creation order and the index of its current
    axes ([Figure.gca]). *)
Record figure := mk_figure { fig_axes : list pax; fig_gca : nat }.

(** pyplot's state: the figures in creation order, the current one
    ([Gcf.get_active]), and the files [savefig] wrote, each with the figure
    it holds. *)
Record pyplot := mk_pyplot {
  figs : list figure;
  gcf_index : option nat;
  files : list (string * figure)
}.

Definition pyplot_init : pyplot := mk_pyplot [] None [].

(** A Python variable bound to an [Axes]: figure number and axes index. *)
Record axes_ref := mk_ref { ref_fig : nat; ref_ax : nat }.

(** Updating the [i]-th element in place; an index past the end changes
    nothing (the handles of the notebook never are). *)
Fixpoint update_nth {A} (i : nat) (f : A -> A) (l : list A) : list A :=
  match l, i with
  | [], _ => []
  | h :: t, O => f h :: t
  | h :: t, S i' => h :: update_nth i' f t
  end.

(** ** Operations *)

(** [plt.subplots(nrows=k, ncols=1)]: a new figure of [k] axes, created
    top to bottom; [add_subplot] makes each the current axes in turn, so
    the last is current, and the new figure becomes the current figure.
    The handles are returned in order ([axes4[0]], [axes4[1]]; for [k = 1]
    numpy squeezes the array to the single [Axes]). *)
Definition subplots (nrows : nat) (p : pyplot) : pyplot * list axes_ref :=
  let n := length (figs p) in
  (mk_pyplot (figs p ++ [mk_figure (repeat new_pax nrows) (pred nrows)]) (Some n) (files p),
   map (mk_ref n) (seq 0 nrows)).

(** A method call on the [Axes] a handle points to. *)
Definition on_pax (r : axes_ref) (f : pax -> pax) (p : pyplot) : pyplot :=
  mk_pyplot
    (update_nth (ref_fig r)
       (fun fg => mk_figure (update_nth (ref_ax r) f (fig_axes fg)) (fig_gca fg)) (figs p))
    (gcf_index p) (files p).

(** The effect of each [Axes] method on the object. *)
Definition pax_draw (f : axes -> axes) (a : pax) : pax :=
  mk_pax (f (drawn a)) (legend_of a) (xlabel_of a) (ylabel_of a) (title_of a).

(** [ax.legend(labels)]: the labels paired with the handles drawn so far
    ([Report.legend]). *)
Definition pax_legend (labels : list string) (a : pax) : pax :=
  mk_pax (drawn a) (Some (legend labels (drawn a))) (xlabel_of a) (ylabel_of a) (title_of a).

Definition pax_xlabel (s : string) (a : pax) : pax :=
  mk_pax (drawn a) (legend_of a) (Some s) (ylabel_of a) (title_of a).

Definition pax_ylabel (s : string) (a : pax) : pax :=
  mk_pax (drawn a) (legend_of a) (xlabel_of a) (Some s) (title_of a).

Definition pax_title (s : string) (a : pax) : pax :=
  mk_pax (drawn a) (legend_of a) (xlabel_of a) (ylabel_of a) (Some s).

(** Drawing calls ([errorbar], [plot], [hist], [vlines]) through a handle. *)
Definition on_axes (r : axes_ref) (f : axes -> axes) (p : pyplot) : pyplot :=
  on_pax r (pax_draw f) p.

(** [ax.set_title(s)] (lines 194, 199). *)
Definition set_title (r : axes_ref) (s : string) (p : pyplot) : pyplot :=
  on_pax r (pax_title s) p.

(** [ax.legend(labels)] (lines 48, 98). *)
Definition set_legend (r : axes_ref) (labels : list string) (p : pyplot) : pyplot :=
  on_pax r (pax_legend labels) p.

(** [plt.gcf()]: the current figure, or a new empty one when there is none. *)
Definition gcf (p : pyplot) : pyplot * nat :=
  match gcf_index p with
  | Some n => (p, n)
  | None =>
      let n := length (figs p) in
      (mk_pyplot (figs p ++ [mk_figure [] 0]) (Some n) (files p), n)
  end.

(** [plt.gca()]: the current axes of the current figure; a figure without
    axes gets one ([add_subplot(1, 1, 1)]). *)
Definition gca (p : pyplot) : pyplot * axes_ref :=
  let (p, n) := gcf p in
  match nth_error (figs p) n with
  | Some (mk_figure [] _) =>
      (mk_pyplot (update_nth n (fun _ => mk_figure [new_pax] 0) (figs p)) (gcf_index p) (files p),
       mk_ref n 0)
  | Some fg => (p, mk_ref n (fig_gca fg))
  | None => (p, mk_ref n 0)
  end.

(** [plt.ylabel(s)] and [plt.xlabel(s)]: [gca().set_ylabel(s)]. *)
Definition ylabel (s : string) (p : pyplot) : pyplot :=
  let (p, r) := gca p in on_pax r (pax_ylabel s) p.

Definition xlabel (s : string) (p : pyplot) : pyplot :=
  let (p, r) := gca p in on_pax r (pax_xlabel s) p.

(** [plt.savefig(name)]: writes the current figure as it is now. *)
Definition savefig (name : string) (p : pyplot) : pyplot :=
  let (p, n) := gcf p in
  mk_pyplot (figs p) (gcf_index p) (files p ++ [(name, nth n (figs p) (mk_figure [] 0))]).

(** The [Axes] a handle points to ([new_pax] past the end). *)
Definition get_pax (r : axes_ref) (p : pyplot) : pax :=
  nth (ref_ax r) (fig_axes (nth (ref_fig r) (figs p) (mk_figure [] 0))) new_pax.

(** ** The current figure is the last one created *)

(** [p] holds the figures [fs] and then [f], and [f] is current: the state
    after [plt.subplots] and the calls that follow it. *)
Definition plt_last (p : pyplot) (fs : list figure) (f : figure) : Prop :=
  figs p = fs ++ [f] /\ gcf_index p = Some (length fs).

Lemma update_nth_app_last {A} (l : list A) (a : A) (g : A -> A) :
  update_nth (length l) g (l ++ [a]) = l ++ [g a].
Proof. induction l as [|h l IH]; cbn; [reflexivity|]. rewrite IH. reflexivity. Qed.

Lemma nth_app_last {A} (l : list A) (a d : A) : nth (length l) (l ++ [a]) d = a.
Proof. rewrite app_nth2, Nat.sub_diag by lia. reflexivity. Qed.

Lemma subplots_last (k : nat) (p : pyplot) :
  plt_last (fst (subplots k p)) (figs p) (mk_figure (repeat new_pax k) (pred k)) /\
  files (fst (subplots k p)) = files p /\
  snd (subplots k p) = map (mk_ref (length (figs p))) (seq 0 k).
Proof. repeat split. Qed.

Lemma on_pax_last (p : pyplot) (fs : list figure) (f : figure) (i : nat) (g : pax -> pax) :
  plt_last p fs f ->
  plt_last (on_pax (mk_ref (length fs) i) g p) fs
           (mk_figure (update_nth i g (fig_axes f)) (fig_gca f)) /\
  files (on_pax (mk_ref (length fs) i) g p) = files p.
Proof.
  intros [Hf Hc]. unfold on_pax, plt_last; cbn [figs gcf_index files ref_fig ref_ax].
  rewrite Hf, update_nth_app_last. auto.
Qed.

(** [gca] on a figure with axes: no new axes, the handle of the current one. *)
Lemma gca_last (p : pyplot) (fs : list figure) (f : figure) :
  plt_last p fs f -> fig_axes f <> [] -> gca p = (p, mk_ref (length fs) (fig_gca f)).
Proof.
  intros [Hf Hc] Hne. unfold gca, gcf. rewrite Hc.
  rewrite Hf, nth_error_app2, Nat.sub_diag by lia. cbn.
  destruct f as [[|ax axs] ca]; [exfalso; apply Hne; reflexivity|reflexivity].
Qed.

Lemma savefig_last (p : pyplot) (fs : list figure) (f : figure) (name : string) :
  plt_last p fs f -> savefig name p = mk_pyplot (figs p) (gcf_index p) (files p ++ [(name, f)]).
Proof.
  intros [Hf Hc]. destruct p as [fg gi fl]; cbn in Hf, Hc; subst.
  unfold savefig, gcf; cbn. rewrite nth_app_last. reflexivity.
Qed.

Lemma get_pax_last (p : pyplot) (fs : list figure) (f : figure) (i : nat) :
  plt_last p fs f -> get_pax (mk_ref (length fs) i) p = nth i (fig_axes f) new_pax.
Proof. intros [Hf _]. unfold get_pax. cbn. rewrite Hf, nth_app_last. reflexivity. Qed.

Lemma label_last (p : pyplot) (fs : list figure) (f : figure) (set : pax -> pax)
      (call : pyplot -> pyplot) :
  (forall q, call q = let (q, r) := gca q in on_pax r set q) ->
  plt_last p fs f -> fig_axes f <> [] ->
  plt_last (call p) fs (mk_figure (update_nth (fig_gca f) set (fig_axes f)) (fig_gca f)) /\
  files (call p) = files p.
Proof.
  intros Hcall Hl Hne. rewrite !Hcall, (gca_last p fs f Hl Hne). exact (on_pax_last p fs f _ set Hl).
Qed.

Lemma ylabel_last (p : pyplot) (fs : list figure) (f : figure) (s : string) :
  plt_last p fs f -> fig_axes f <> [] ->
  plt_last (ylabel s p) fs (mk_figure (update_nth (fig_gca f) (pax_ylabel s) (fig_axes f)) (fig_gca f)) /\
  files (ylabel s p) = files p.
Proof. apply (label_last p fs f (pax_ylabel s) (ylabel s)). intros q; reflexivity. Qed.

Lemma xlabel_last (p : pyplot) (fs : list figure) (f : figure) (s : string) :
  plt_last p fs f -> fig_axes f <> [] ->
  plt_last (xlabel s p) fs (mk_figure (update_nth (fig_gca f) (pax_xlabel s) (fig_axes f)) (fig_gca f)) /\
  files (xlabel s p) = files p.
Proof. apply (label_last p fs f (pax_xlabel s) (xlabel s)). intros q; reflexivity. Qed.

(** ** Following a figure through the calls of a cell *)

(** After a [plt.subplots], the state [p] holds the older figures [fs], the
    new figure as [f] now is, and the files [written]. *)
Definition plt_ok (p : pyplot) (fs : list figure) (f : figure) (written : list (string * figure))
  : Prop := plt_last p fs f /\ files p = written.

Lemma plt_ok_new (fs : list figure) (f : figure) (written : list (string * figure)) :
  plt_ok (mk_pyplot (fs ++ [f]) (Some (length fs)) written) fs f written.
Proof. repeat split. Qed.

Lemma plt_ok_conv (p : pyplot) (fs : list figure) (f f' : figure) (w w' : list (string * figure)) :
  plt_ok p fs f w -> f = f' -> w = w' -> plt_ok p fs f' w'.
Proof. intros H -> ->. exact H. Qed.

Lemma plt_ok_on_pax (p : pyplot) (fs : list figure) (f : figure) w (i : nat) (g : pax -> pax) :
  plt_ok p fs f w ->
  plt_ok (on_pax (mk_ref (length fs) i) g p) fs (mk_figure (update_nth i g (fig_axes f)) (fig_gca f)) w.
Proof. intros [Hl Hw]. destruct (on_pax_last p fs f i g Hl) as [Hl' Hw']. split; congruence. Qed.

Lemma plt_ok_ylabel (p : pyplot) (fs : list figure) (f : figure) w (s : string) :
  plt_ok p fs f w -> fig_axes f <> [] ->
  plt_ok (ylabel s p) fs (mk_figure (update_nth (fig_gca f) (pax_ylabel s) (fig_axes f)) (fig_gca f)) w.
Proof. intros [Hl Hw] Hne. destruct (ylabel_last p fs f s Hl Hne) as [Hl' Hw']. split; congruence. Qed.

Lemma plt_ok_xlabel (p : pyplot) (fs : list figure) (f : figure) w (s : string) :
  plt_ok p fs f w -> fig_axes f <> [] ->
  plt_ok (xlabel s p) fs (mk_figure (update_nth (fig_gca f) (pax_xlabel s) (fig_axes f)) (fig_gca f)) w.
Proof. intros [Hl Hw] Hne. destruct (xlabel_last p fs f s Hl Hne) as [Hl' Hw']. split; congruence. Qed.

Lemma plt_ok_savefig (p : pyplot) (fs : list figure) (f : figure) w (name : string) :
  plt_ok p fs f w -> plt_ok (savefig name p) fs f (w ++ [(name, f)]).
Proof.
  intros [Hl Hw]. rewrite (savefig_last p fs f name Hl). destruct Hl as [Hf Hc].
  split; [split|]; cbn; congruence.
Qed.

Lemma get_pax_ok (p : pyplot) (fs : list figure) (f : figure) w (i : nat) :
  plt_ok p fs f w -> get_pax (mk_ref (length fs) i) p = nth i (fig_axes f) new_pax.
Proof. intros [Hl _]. exact (get_pax_last p fs f i Hl). Qed.

(** Drawing through the handle of a one-axes figure, once per element of a list. *)
Lemma plt_ok_fold_draw {X} (p : pyplot) (fs : list figure) (a0 : pax) w (g : X -> axes -> axes)
      (l : list X) :
  plt_ok p fs (mk_figure [a0] 0) w ->
  plt_ok (fold_left (fun q i => on_axes (mk_ref (length fs) 0) (g i) q) l p) fs
         (mk_figure [fold_left (fun a i => pax_draw (g i) a) l a0] 0) w.
Proof.
  revert p a0; induction l as [|i l IH]; intros p a0 Hp; [exact Hp|].
  cbn [fold_left]. apply IH. exact (plt_ok_on_pax p fs _ w 0 (pax_draw (g i)) Hp).
Qed.

(** [plt_chain] follows the pyplot calls of a goal [plt_ok (call (... p)) fs ?f ?w]
    back to the [plt.subplots] that created the figure, computing the
    figure and the files on the way. *)
Ltac plt_chain :=
  lazymatch goal with
  | |- plt_ok (savefig _ _) _ _ _ => eapply plt_ok_savefig; plt_chain
  | |- plt_ok (ylabel _ _) _ _ _ => eapply plt_ok_ylabel; [plt_chain|cbn; discriminate]
  | |- plt_ok (xlabel _ _) _ _ _ => eapply plt_ok_xlabel; [plt_chain|cbn; discriminate]
  | |- plt_ok (on_axes _ _ _) _ _ _ => eapply plt_ok_on_pax; plt_chain
  | |- plt_ok (set_title _ _ _) _ _ _ => eapply plt_ok_on_pax; plt_chain
  | |- plt_ok (set_legend _ _ _) _ _ _ => eapply plt_ok_on_pax; plt_chain
  | |- plt_ok (on_pax _ _ _) _ _ _ => eapply plt_ok_on_pax; plt_chain
  | |- plt_ok (fold_left _ _ _) _ _ _ =>
      eapply plt_ok_fold_draw; eapply plt_ok_conv; [plt_chain|reflexivity|reflexivity]
  | |- plt_ok (mk_pyplot _ _ _) _ _ _ => apply plt_ok_new
  end.

(** ** Calls in any order *)

(** The pyplot and [Axes] calls a cell makes between two [plt.subplots]. *)
Inductive plt_call :=
| CDraw (r : axes_ref) (f : axes -> axes)
| CTitle (r : axes_ref) (s : string)
| CLegend (r : axes_ref) (labels : list string)
| CYLabel (s : string)
| CXLabel (s : string)
| CSave (name : string).

Definition plt_exec (p : pyplot) (c : plt_call) : pyplot :=
  match c with
  | CDraw r f => on_axes r f p
  | CTitle r s => set_title r s p
  | CLegend r labels => set_legend r labels p
  | CYLabel s => ylabel s p
  | CXLabel s => xlabel s p
  | CSave name => savefig name p
  end.

Definition plt_run (cs : list plt_call) (p : pyplot) : pyplot := fold_left plt_exec cs p.

(** The current figure is [n], one of [figs], and has axes. *)
Definition current_ok (p : pyplot) (n : nat) : Prop :=
  gcf_index p = Some n /\ (n < length (figs p))%nat /\ fig_axes (nth n (figs p) (mk_figure [] 0)) <> [].

Lemma length_update_nth {A} (i : nat) (f : A -> A) (l : list A) :
  length (update_nth i f l) = length l.
Proof. revert i; induction l as [|h l IH]; intros [|i]; cbn; auto. Qed.

Lemma nth_update_nth {A} (i j : nat) (f : A -> A) (l : list A) (d : A) :
  nth j (update_nth i f l) d = if Nat.eqb i j then (if Nat.ltb j (length l) then f (nth j l d) else d)
                               else nth j l d.
Proof.
  revert i j; induction l as [|h l IH]; intros [|i] [|j]; try reflexivity.
  - cbn. destruct (Nat.eqb i j); reflexivity.
  - exact (IH i j).
Qed.

Lemma length_update_nth_axes (i : nat) (g : pax -> pax) (f : figure) :
  fig_axes f <> [] -> fig_axes (mk_figure (update_nth i g (fig_axes f)) (fig_gca f)) <> [].
Proof. destruct f as [[|a0 axs] ca]; cbn; [congruence|]. destruct i; discriminate. Qed.

Lemma on_pax_current (p : pyplot) (n : nat) (r : axes_ref) (g : pax -> pax) :
  current_ok p n -> current_ok (on_pax r g p) n /\ files (on_pax r g p) = files p.
Proof.
  intros (Hc & Hn & Ha). unfold on_pax, current_ok; cbn [gcf_index figs files].
  rewrite length_update_nth. split; [|reflexivity]. split; [exact Hc|]. split; [exact Hn|].
  rewrite nth_update_nth. destruct (Nat.eqb (ref_fig r) n) eqn:E; [|exact Ha].
  apply Nat.eqb_eq in E; subst. rewrite (proj2 (Nat.ltb_lt _ _) Hn).
  apply length_update_nth_axes. exact Ha.
Qed.

Lemma gcf_current (p : pyplot) (n : nat) : current_ok p n -> gcf p = (p, n).
Proof. intros (Hc & _ & _). unfold gcf. rewrite Hc. reflexivity. Qed.

Lemma gca_current (p : pyplot) (n : nat) :
  current_ok p n -> exists i, gca p = (p, mk_ref n i).
Proof.
  intros Hp. pose proof Hp as (_ & Hn & Ha). unfold gca. rewrite (gcf_current p n Hp).
  rewrite (nth_error_nth' (figs p) (mk_figure [] 0) Hn).
  destruct (nth n (figs p) (mk_figure [] 0)) as [[|a0 axs] ca]; [contradiction|].
  eexists; reflexivity.
Qed.

Lemma label_current (p : pyplot) (n : nat) (set : pax -> pax) (call : pyplot -> pyplot) :
  (forall q, call q = let (q, r) := gca q in on_pax r set q) ->
  current_ok p n -> current_ok (call p) n /\ files (call p) = files p.
Proof.
  intros Hcall Hp. destruct (gca_current p n Hp) as [i Hg]. rewrite Hcall, Hg.
  exact (on_pax_current p n _ set Hp).
Qed.

Lemma plt_exec_current (p : pyplot) (n : nat) (c : plt_call) :
  current_ok p n -> current_ok (plt_exec p c) n.
Proof.
  intros Hp. destruct c as [r f|r s|r labels|s|s|name]; cbn [plt_exec].
  - exact (proj1 (on_pax_current p n r _ Hp)).
  - exact (proj1 (on_pax_current p n r _ Hp)).
  - exact (proj1 (on_pax_current p n r _ Hp)).
  - exact (proj1 (label_current p n (pax_ylabel s) (ylabel s) (fun q => eq_refl) Hp)).
  - exact (proj1 (label_current p n (pax_xlabel s) (xlabel s) (fun q => eq_refl) Hp)).
  - unfold savefig. rewrite (gcf_current p n Hp). destruct Hp as (Hc & Hn & Ha). split; auto.
Qed.

Lemma plt_run_current (cs : list plt_call) (p : pyplot) (n : nat) :
  current_ok p n -> current_ok (plt_run cs p) n.
Proof.
  revert p; induction cs as [|c cs IH]; intros p Hp; [exact Hp|].
  apply IH. exact (plt_exec_current p n c Hp).
Qed.

Lemma subplots_current (k : nat) (p : pyplot) :
  (0 < k)%nat -> current_ok (fst (subplots k p)) (length (figs p)).
Proof.
  intros Hk. unfold current_ok, subplots; cbn [fst figs gcf_index].
  rewrite length_app, nth_app_last. cbn. split; [reflexivity|]. split; [lia|].
  destruct k; [lia|]. discriminate.
Qed.

(** C31: whatever a cell does after [plt.subplots] (drawing through any
    handle, of this figure or an older one, titles, legends, labels, other
    saves), the figure [plt.subplots] created stays current, and
    [plt.savefig] writes that figure as it then is. *)
Theorem savefig_writes_new_figure (k : nat) (p : pyplot) (cs : list plt_call) (name : string) :
  (0 < k)%nat ->
  let p1 := plt_run cs (fst (subplots k p)) in
  gcf_index p1 = Some (length (figs p)) /\
  savefig name p1 =
  mk_pyplot (figs p1) (gcf_index p1)
            (files p1 ++ [(name, nth (length (figs p)) (figs p1) (mk_figure [] 0))]).
Proof.
  intros Hk p1. assert (Hp : current_ok p1 (length (figs p)))
    by exact (plt_run_current cs _ _ (subplots_current k p Hk)).
  split; [exact (proj1 Hp)|]. unfold savefig. rewrite (gcf_current p1 _ Hp). reflexivity.
Qed.

Lemma savefig_writes_new_figure_witness :
  (0 < 1)%nat /\
  let p1 := plt_run [CDraw (mk_ref 0 0) (plot [1] [2] Solid "k"%string); CYLabel "y"%string]
                    (fst (subplots 1 (fst (subplots 1 pyplot_init)))) in
  gcf_index p1 = Some 1%nat /\
  savefig "f.svg"%string p1 =
  mk_pyplot (figs p1) (gcf_index p1) (files p1 ++ [("f.svg"%string, nth 1 (figs p1) (mk_figure [] 0))]).
Proof.
  split; [lia|].
  exact (savefig_writes_new_figure 1 (fst (subplots 1 pyplot_init)) _ "f.svg"%string ltac:(lia)).
Defined.
