(* ===== verification/Notebook.v ===== *)
(** * Notebook: the cells of src/Regressions_Notebook.py run in order

    The script is a notebook of seven code cells that share the module's
    global variables, numpy's global generator and pyplot's figures, and
    print to the console.  A cell is a computation of the monad [nb] over
    the notebook state [nb_state] (the globals, the generator state, the
    pyplot state, the printed lines); an exception stops the cell with the
    state it had reached, the lines it printed before included.

    [nb_step] is the small-step semantics of "Run All": one step runs the
    next cell; a cell that raises stops the run.  [run_all] is its
    executable counterpart.

    Each cell has a lemma saying what it does ([cell_fig1_done], ...,
    [cell_hist_done]), with the figure it leaves as a [Pyplot.plt_ok]
    fact; the theorems compose them: [notebook_completes] (the whole run on
    regular data: printed lines and saved figures), [notebook_error_paths]
    (where and after which prints the run stops), [BA_agrees_with_polyfit]
    (an invariant of [nb_step], by rule induction: the comment at line
    66), [run_all_terminates] and [run_all_refines] ([run_all] is the
    step semantics and always ends).

    [get_ylim] (lines 191, 196) is a parameter of the section;
    [histogram_lines_span_bars] takes it to be matplotlib's autoscaling
    [Histogram.mpl_get_ylim].  [np.std] is printed as the real
    [Std.np_std].

    Not modelled: [pd.read_csv] (the table is the input of the run) and
    the text layout of [print] (a printed line is the list of its
    arguments).  The globals that no later line reads are not
    kept in [globals]: the figures [fig1] .. [fig4] (their axes are), [X]
    (line 63) and [unc] (line 69), which [normal_BA] and [weighted_BA]
    compute again from [x] and [unc_y], and the loop variables [ind], [val]
    of line 158. *)

From Stdlib Require Import String QArith Qminmax List Lia ZArith Rdefinitions.
From ExtLib Require Import Structures.Monad Data.Monads.StateMonad Data.Monads.EitherMonad.
From S2P Require Import Prelude Random Polyfit MonteCarlo Loader Matrix NormalEq Report Histogram Std Pyplot.
Import ListNotations.
Open Scope Q_scope.

(** ** Values and globals *)

(** What the notebook prints. *)
Inductive pyval :=
| VFrame (df : frame)           (** a [DataFrame] *)
| VNum (q : Q)                  (** a float *)
| VArray (l : list Q)           (** a 1-D numpy array *)
| VStr (s : string)             (** a [str] *)
| VMean (m : option Q)          (** [np.mean(l)]; [nan] for [None] *)
| VStd (v : option R).          (** [np.std(l)]; [nan] for [None] *)

(** The module-level variables the cells assign. *)
Record globals := mk_globals {
  data_df : frame;
  x : list Q; y : list Q; unc_y : list Q;
  a : Q; b : Q; model : list Q;
  axes1 : axes_ref;
  BA : list Q; BA_w : list Q; model_w : list Q;
  axes2 : axes_ref;
  slopes : list Q; intercepts : list Q; models : list (list Q);
  axes3 : axes_ref;
  axes4 : list axes_ref;
  ylims : Q * Q
}.

Definition globals_init : globals :=
  mk_globals [] [] [] [] 0 0 [] (mk_ref 0 0) [] [] [] (mk_ref 0 0) [] [] [] (mk_ref 0 0) [] (0, 0).

Section Notebook.
Context {G : Type} `{BitGenerator G}.

(** [axes.get_ylim()] after a histogram: matplotlib's autoscaling
    ([Histogram.mpl_get_ylim]), or any other function of the axes. *)
Variable get_ylim : axes -> Q * Q.

Record nb_state := mk_nb {
  vars : globals;
  gen : G;
  plt : pyplot;
  out : list (list pyval)
}.

(** ** The monad of a cell *)

Inductive outcome (A : Type) :=
| Done (v : A) (s : nb_state)
| Raised (e : py_error) (s : nb_state).
Arguments Done {A}. Arguments Raised {A}.

Definition nb (A : Type) : Type := nb_state -> outcome A.

Definition nb_ret {A} (v : A) : nb A := fun s => Done v s.

Definition nb_bind {A B} (m : nb A) (k : A -> nb B) : nb B :=
  fun s => match m s with Done v s' => k v s' | Raised e s' => Raised e s' end.

#[export] Instance Monad_nb : Monad nb := { ret := @nb_ret; bind := @nb_bind }.

(** A numpy or Python call that may raise. *)
Definition py {A} (r : result A) : nb A :=
  fun s => match r with inl e => Raised e s | inr v => Done v s end.

Definition get_vars : nb globals := fun s => Done (vars s) s.

Definition set_vars (f : globals -> globals) : nb unit :=
  fun s => Done tt (mk_nb (f (vars s)) (gen s) (plt s) (out s)).

(** [print(v1, v2, ...)]. *)
Definition print (vs : list pyval) : nb unit :=
  fun s => Done tt (mk_nb (vars s) (gen s) (plt s) (out s ++ [vs])).

(** A pyplot call, and [plt.subplots] which also returns the handles. *)
Definition plt_do (f : pyplot -> pyplot) : nb unit :=
  fun s => Done tt (mk_nb (vars s) (gen s) (f (plt s)) (out s)).

Definition plt_subplots (nrows : nat) : nb (list axes_ref) :=
  fun s => let (p, r) := subplots nrows (plt s) in Done r (mk_nb (vars s) (gen s) p (out s)).

Definition plt_axes (r : axes_ref) : nb axes := fun s => Done (drawn (get_pax r (plt s))) s.

(** A call that draws from numpy's global generator ([MonteCarlo.rng]).
    On an exception the generator state before the call is kept (the
    error monad drops the advanced one): Run All stops there and no later
    cell reads it. *)
Definition np_random {A} (m : rng A) : nb A :=
  fun s => match runStateT m (gen s) with
           | inl e => Raised e s
           | inr (v, g) => Done v (mk_nb (vars s) g (plt s) (out s))
           end.

(** [l[i]] on a list or 1-D array. *)
Definition index (l : list Q) (i : nat) : result Q :=
  match nth_error l i with Some v => inr v | None => inl IndexError end.

Import MonadNotation.
Open Scope monad_scope.

(** [ax.errorbar(x, y, yerr)] through a handle (lines 32, 82, 148), in
    matplotlib's order: the size check, the marker line, the [yerr] check,
    the bars and the container ([Report.errorbar_call]). *)
Definition plt_errorbar (r : axes_ref) (xs ys errs : list Q) : nb unit :=
  py (errorbar_size_check xs ys) ;;
  plt_do (on_axes r (errorbar_line xs ys)) ;;
  py (errorbar_yerr_check ys errs) ;;
  plt_do (on_axes r (errorbar_bars xs ys errs)).

(** ** Assignments to the globals *)

(** [data_df = ...], [x = ...], [y = ...], [unc_y = ...] (lines 19-23). *)
Definition set_data (df : frame) (x y unc_y : list Q) (v : globals) : globals :=
  mk_globals df x y unc_y (a v) (b v) (model v) (axes1 v) (BA v) (BA_w v) (model_w v)
    (axes2 v) (slopes v) (intercepts v) (models v) (axes3 v) (axes4 v) (ylims v).

(** [fig1, axes1 = ...] (line 30). *)
Definition set_axes1 (r : axes_ref) (v : globals) : globals :=
  mk_globals (data_df v) (x v) (y v) (unc_y v) (a v) (b v) (model v) r (BA v) (BA_w v)
    (model_w v) (axes2 v) (slopes v) (intercepts v) (models v) (axes3 v) (axes4 v) (ylims v).

(** [a, b = ...] (line 44). *)
Definition set_ab (a b : Q) (v : globals) : globals :=
  mk_globals (data_df v) (x v) (y v) (unc_y v) a b (model v) (axes1 v) (BA v) (BA_w v)
    (model_w v) (axes2 v) (slopes v) (intercepts v) (models v) (axes3 v) (axes4 v) (ylims v).

(** [model = a*x + b] (lines 45, 94, 167). *)
Definition set_model (m : list Q) (v : globals) : globals :=
  mk_globals (data_df v) (x v) (y v) (unc_y v) (a v) (b v) m (axes1 v) (BA v) (BA_w v)
    (model_w v) (axes2 v) (slopes v) (intercepts v) (models v) (axes3 v) (axes4 v) (ylims v).

(** [BA = ...] (line 64). *)
Definition set_BA (l : list Q) (v : globals) : globals :=
  mk_globals (data_df v) (x v) (y v) (unc_y v) (a v) (b v) (model v) (axes1 v) l (BA_w v)
    (model_w v) (axes2 v) (slopes v) (intercepts v) (models v) (axes3 v) (axes4 v) (ylims v).

(** [BA_w = ...] (line 70). *)
Definition set_BA_w (l : list Q) (v : globals) : globals :=
  mk_globals (data_df v) (x v) (y v) (unc_y v) (a v) (b v) (model v) (axes1 v) (BA v) l
    (model_w v) (axes2 v) (slopes v) (intercepts v) (models v) (axes3 v) (axes4 v) (ylims v).

(** [model_w = ...] (line 73). *)
Definition set_model_w (m : list Q) (v : globals) : globals :=
  mk_globals (data_df v) (x v) (y v) (unc_y v) (a v) (b v) (model v) (axes1 v) (BA v) (BA_w v)
    m (axes2 v) (slopes v) (intercepts v) (models v) (axes3 v) (axes4 v) (ylims v).

(** [fig2, axes2 = ...] (line 80). *)
Definition set_axes2 (r : axes_ref) (v : globals) : globals :=
  mk_globals (data_df v) (x v) (y v) (unc_y v) (a v) (b v) (model v) (axes1 v) (BA v) (BA_w v)
    (model_w v) r (slopes v) (intercepts v) (models v) (axes3 v) (axes4 v) (ylims v).

(** [slopes, intercepts, models = multi_OLS(...)] (line 145). *)
Definition set_mc (sl il : list Q) (ml : list (list Q)) (v : globals) : globals :=
  mk_globals (data_df v) (x v) (y v) (unc_y v) (a v) (b v) (model v) (axes1 v) (BA v) (BA_w v)
    (model_w v) (axes2 v) sl il ml (axes3 v) (axes4 v) (ylims v).

(** [fig3, axes3 = ...] (line 147). *)
Definition set_axes3 (r : axes_ref) (v : globals) : globals :=
  mk_globals (data_df v) (x v) (y v) (unc_y v) (a v) (b v) (model v) (axes1 v) (BA v) (BA_w v)
    (model_w v) (axes2 v) (slopes v) (intercepts v) (models v) r (axes4 v) (ylims v).

(** [fig4, axes4 = ...] (line 189). *)
Definition set_axes4 (r : list axes_ref) (v : globals) : globals :=
  mk_globals (data_df v) (x v) (y v) (unc_y v) (a v) (b v) (model v) (axes1 v) (BA v) (BA_w v)
    (model_w v) (axes2 v) (slopes v) (intercepts v) (models v) (axes3 v) r (ylims v).

(** [ylims = ...] (lines 191, 196). *)
Definition set_ylims (yl : Q * Q) (v : globals) : globals :=
  mk_globals (data_df v) (x v) (y v) (unc_y v) (a v) (b v) (model v) (axes1 v) (BA v) (BA_w v)
    (model_w v) (axes2 v) (slopes v) (intercepts v) (models v) (axes3 v) (axes4 v) yl.

(** The first handle [plt.subplots] returns. *)
Definition first_axes (r : list axes_ref) : axes_ref := nth 0 r (mk_ref 0 0).

(** ** The cells *)

(** Lines 13-25: load, impute, filter, take the columns, show the head. *)
Definition cell_load (csv : frame) : nb unit :=
  let df := load csv in
  let '(x, y, unc_y) := columns df in
  set_vars (set_data df x y unc_y) ;;
  print [VFrame (firstn 5 df)].

(** Lines 30-52: the first figure and the [np.polyfit] line. *)
Definition cell_fig1 : nb unit :=
  v <- get_vars ;;
  r <- plt_subplots 1 ;;
  let axes1 := first_axes r in
  set_vars (set_axes1 axes1) ;;
  plt_errorbar axes1 (x v) (y v) (unc_y v) ;;
  ab <- py (polyfit1 (x v) (y v)) ;;
  let '(a, b) := ab in
  set_vars (set_ab a b) ;;
  let model := model_line a b (x v) in
  set_vars (set_model model) ;;
  plt_do (on_axes axes1 (plot (x v) model Dashed "k"%string)) ;;
  plt_do (set_legend axes1 ["Data"%string; "OLS Trend (no weights)"%string]) ;;
  plt_do (ylabel "TEX 86 Index"%string) ;;
  plt_do (xlabel "Year CE"%string) ;;
  print [VNum a; VNum b].

(** Lines 62-73: the normal-equation and the weighted solutions. *)
Definition cell_fits : nb unit :=
  v <- get_vars ;;
  print [VNum (a v); VNum (b v)] ;;
  BA <- py (normal_BA (x v) (y v)) ;;
  set_vars (set_BA BA) ;;
  print [VArray BA] ;;
  BA_w <- py (weighted_BA (x v) (y v) (unc_y v)) ;;
  set_vars (set_BA_w BA_w) ;;
  print [VArray BA_w] ;;
  set_vars (set_model_w (NormalEq.model_w BA_w (x v))).

(** Lines 80-105: the second figure, saved. *)
Definition cell_fig2 : nb unit :=
  v <- get_vars ;;
  r <- plt_subplots 1 ;;
  let axes2 := first_axes r in
  set_vars (set_axes2 axes2) ;;
  plt_errorbar axes2 (x v) (y v) (unc_y v) ;;
  let model := model_line (a v) (b v) (x v) in
  set_vars (set_model model) ;;
  plt_do (on_axes axes2 (plot (x v) model Dashed "grey"%string)) ;;
  plt_do (on_axes axes2 (plot (x v) (model_w v) DashDot "k"%string)) ;;
  plt_do (set_legend axes2 ["OLS Trend (no weights)"%string; "OLS Trend (weighted)"%string;
                            "Data"%string]) ;;
  plt_do (ylabel "TEX 86 Index"%string) ;;
  plt_do (xlabel "Year CE"%string) ;;
  plt_do (savefig "Browne_et_al_2023_OLS_Models.svg"%string) ;;
  w0 <- py (index (BA_w v) 0) ;;
  print [VNum w0].

(** Lines 115-134 define [regress_data], [jiggle_data] and [multi_OLS]
    ([MonteCarlo]); running the cell only binds the names. *)
Definition cell_defs : nb unit := ret tt.

(** Lines 158-164: [for ind, val in enumerate(slopes): axes3.plot(x, models[ind], ...)]. *)
Fixpoint plot_all_models (axes3 : axes_ref) (x : list Q) (models : list (list Q)) (inds : list nat)
  : nb unit :=
  match inds with
  | [] => ret tt
  | ind :: rest =>
      match nth_error models ind with
      | None => py (inl IndexError)
      | Some m =>
          plt_do (on_axes axes3 (plot x m Solid "grey"%string)) ;;
          plot_all_models axes3 x models rest
      end
  end.

(** Lines 145-175: the Monte Carlo run on [2*unc_y] and the third figure. *)
Definition cell_mc : nb unit :=
  v <- get_vars ;;
  res <- np_random (multi_OLS (x v) (y v) (map (fun u => 2 * u) (unc_y v)) 1000) ;;
  let '(sl, il, ml) := res in
  set_vars (set_mc sl il ml) ;;
  r <- plt_subplots 1 ;;
  let axes3 := first_axes r in
  set_vars (set_axes3 axes3) ;;
  plt_errorbar axes3 (x v) (y v) (unc_y v) ;;
  plot_all_models axes3 (x v) ml (seq 0 (length sl)) ;;
  let model := model_line (a v) (b v) (x v) in
  set_vars (set_model model) ;;
  plt_do (on_axes axes3 (plot (x v) model Dashed "k"%string)) ;;
  plt_do (on_axes axes3 (plot (x v) (model_w v) DashDot "k"%string)) ;;
  plt_do (ylabel "TEX 86 Index"%string) ;;
  plt_do (xlabel "Year CE"%string) ;;
  plt_do (savefig "Browne_et_al_2023_AllModels.svg"%string).

(** Lines 189-202: the histograms, saved, and the printed summary. *)
Definition cell_hist : nb unit :=
  v <- get_vars ;;
  r <- plt_subplots 2 ;;
  set_vars (set_axes4 r) ;;
  let ax0 := nth 0 r (mk_ref 0 0) in
  let ax1 := nth 1 r (mk_ref 0 0) in
  plt_do (on_axes ax0 (hist (slopes v) "peru"%string)) ;;
  d0 <- plt_axes ax0 ;;
  let yl0 := get_ylim d0 in
  set_vars (set_ylims yl0) ;;
  plt_do (on_axes ax0 (vlines (a v) (Qmin (fst yl0) (snd yl0)) (Qmax (fst yl0) (snd yl0)) Dashed)) ;;
  BA1 <- py (index (BA v) 1) ;;
  plt_do (on_axes ax0 (vlines BA1 (Qmin (fst yl0) (snd yl0)) (Qmax (fst yl0) (snd yl0)) DashDot)) ;;
  plt_do (set_title ax0 "Slopes"%string) ;;
  plt_do (on_axes ax1 (hist (intercepts v) "mediumslateblue"%string)) ;;
  d1 <- plt_axes ax1 ;;
  let yl1 := get_ylim d1 in
  set_vars (set_ylims yl1) ;;
  plt_do (on_axes ax1 (vlines (b v) (Qmin (fst yl1) (snd yl1)) (Qmax (fst yl1) (snd yl1)) Dashed)) ;;
  BA0 <- py (index (BA v) 0) ;;
  plt_do (on_axes ax1 (vlines BA0 (Qmin (fst yl1) (snd yl1)) (Qmax (fst yl1) (snd yl1)) DashDot)) ;;
  plt_do (set_title ax1 "Intercepts"%string) ;;
  plt_do (savefig "Browne_et_al_2023_histograms.svg"%string) ;;
  print [VStr "Average slope = "%string; VMean (np_mean (slopes v)); VStr " +/- "%string;
         VStd (np_std (slopes v))].

(** The code cells in the order of the file. *)
Definition notebook (csv : frame) : list (nb unit) :=
  [cell_load csv; cell_fig1; cell_fits; cell_fig2; cell_defs; cell_mc; cell_hist].

(** The state before the first cell: no variables, no figures, nothing
    printed, and the generator in the state [g] numpy chose at import. *)
Definition nb_init (g : G) : nb_state := mk_nb globals_init g pyplot_init [].

(** ** Run All *)

(** Running cell [pc], or stopped by the exception of cell [pc]. *)
Inductive config :=
| Running (pc : nat) (s : nb_state)
| Stopped (pc : nat) (e : py_error) (s : nb_state).

Inductive nb_step (cells : list (nb unit)) : config -> config -> Prop :=
| step_done pc s c s' :
    nth_error cells pc = Some c -> c s = Done tt s' ->
    nb_step cells (Running pc s) (Running (S pc) s')
| step_raise pc s c e s' :
    nth_error cells pc = Some c -> c s = Raised e s' ->
    nb_step cells (Running pc s) (Stopped pc e s').

(** A run has ended when every cell ran or one raised. *)
Definition finished (cells : list (nb unit)) (c : config) : bool :=
  match c with
  | Running pc _ => Nat.leb (length cells) pc
  | Stopped _ _ _ => true
  end.

(** Run All from cell [pc]: the cells from [pc] on, until one raises. *)
Fixpoint run_from (rest : list (nb unit)) (pc : nat) (s : nb_state) : config :=
  match rest with
  | [] => Running pc s
  | c :: rest' =>
      match c s with
      | Done _ s' => run_from rest' (S pc) s'
      | Raised e s' => Stopped pc e s'
      end
  end.

Definition run_all (cells : list (nb unit)) (s : nb_state) : config := run_from cells 0 s.

Definition cfg_state (c : config) : nb_state :=
  match c with Running _ s | Stopped _ _ s => s end.

(** ** Run All: determinism and termination *)

Lemma nb_step_deterministic (cells : list (nb unit)) (c c1 c2 : config) :
  nb_step cells c c1 -> nb_step cells c c2 -> c1 = c2.
Proof.
  intros H1 H2. destruct H1 as [pc s k s' Hk Hc|pc s k e s' Hk Hc];
    inversion H2 as [pc2 s2 k2 s2' Hk2 Hc2|pc2 s2 k2 e2 s2' Hk2 Hc2]; subst;
    rewrite Hk in Hk2; injection Hk2 as <-; rewrite Hc in Hc2; congruence.
Qed.

Lemma finished_stuck (cells : list (nb unit)) (c c' : config) :
  finished cells c = true -> ~ nb_step cells c c'.
Proof.
  intros Hf Hs. destruct Hs as [pc s k s' Hk _|pc s k e s' Hk _]; cbn in Hf;
    apply Nat.leb_le in Hf; apply nth_error_None in Hf; congruence.
Qed.

Lemma skipn_cons_nth {A} (l : list A) (n : nat) (a : A) (r : list A) :
  skipn n l = a :: r -> nth_error l n = Some a /\ skipn (S n) l = r.
Proof.
  revert l; induction n as [|n IH]; intros [|h l] E; cbn in *; try discriminate.
  - injection E as -> ->. auto.
  - exact (IH l E).
Qed.

Lemma run_from_star (cells rest : list (nb unit)) (pc : nat) (s : nb_state) :
  skipn pc cells = rest ->
  star (nb_step cells) (Running pc s) (run_from rest pc s) /\
  finished cells (run_from rest pc s) = true.
Proof.
  revert pc s; induction rest as [|k rest IH]; intros pc s Hr; cbn [run_from].
  - split; [apply star_refl|]. cbn. apply Nat.leb_le.
    pose proof (length_skipn pc cells) as L. rewrite Hr in L. cbn in L. lia.
  - destruct (skipn_cons_nth cells pc k rest Hr) as [Hk Hs].
    destruct (k s) as [[] s'|e s'] eqn:E.
    + destruct (IH (S pc) s' Hs) as [St F].
      split; [eapply star_step; [eapply step_done; eauto|exact St]|exact F].
    + split; [apply star_one; eapply step_raise; eauto|reflexivity].
Qed.

(** Two finished runs of a deterministic semantics from one state agree. *)
Lemma star_finished_unique (cells : list (nb unit)) (c c1 c2 : config) :
  star (nb_step cells) c c1 -> finished cells c1 = true ->
  star (nb_step cells) c c2 -> finished cells c2 = true -> c1 = c2.
Proof.
  intros S1. revert c2. induction S1 as [c|c d c1 Hd S1 IH]; intros c2 F1 S2 F2.
  - destruct S2 as [|c0 d2 c3 Hd2 _]; [reflexivity|].
    exfalso. exact (finished_stuck cells c0 d2 F1 Hd2).
  - inversion S2 as [c0 E|c0 d2 c3 Hd2 S3 E1 E2]; subst.
    + exfalso. eapply finished_stuck; eassumption.
    + rewrite (nb_step_deterministic _ _ _ _ Hd Hd2) in IH. exact (IH c2 F1 S3 F2).
Qed.

(** ** What each cell does *)

(** The two checks of [errorbar] on the globals [v] pass. *)
Definition errorbar_passes (v : globals) : Prop :=
  errorbar_size_check (x v) (y v) = inr tt /\ errorbar_yerr_check (y v) (unc_y v) = inr tt.

Lemma errorbar_passes_intro (v : globals) :
  length (x v) = length (y v) -> length (unc_y v) = length (y v) -> Forall (Qle 0) (unc_y v) ->
  errorbar_passes v.
Proof. intros H1 H2 H3. split; [apply errorbar_size_ok|apply errorbar_yerr_ok]; assumption. Qed.

Ltac nb_simpl :=
  cbn [bind ret Monad_nb nb_bind nb_ret get_vars set_vars print plt_do plt_subplots plt_axes py
       plt_errorbar np_random vars gen plt out subplots first_axes nth map seq length repeat pred fst snd
       ref_fig ref_ax].

(** Passes the checks of an [errorbar] call on the globals. *)
Ltac errorbar_pass H :=
  let Hs := fresh in let Hy := fresh in destruct H as [Hs Hy];
  nb_simpl; rewrite Hs; nb_simpl; rewrite Hy; nb_simpl.

(** The first figure of lines 30-48 once drawn, labelled by lines 50-51. *)
Definition fig1_drawn (x y unc_y : list Q) (a b : Q) : figure :=
  mk_figure [pax_xlabel "Year CE"%string (pax_ylabel "TEX 86 Index"%string
     (pax_legend ["Data"%string; "OLS Trend (no weights)"%string]
        (pax_draw (plot x (model_line a b x) Dashed "k"%string)
           (pax_draw (errorbar x y unc_y) new_pax))))] 0.

Lemma cell_fig1_done (s : nb_state) (a0 b0 : Q) :
  errorbar_passes (vars s) ->
  polyfit1 (x (vars s)) (y (vars s)) = inr (a0, b0) ->
  exists p, cell_fig1 s =
    Done tt (mk_nb (set_model (model_line a0 b0 (x (vars s)))
                      (set_ab a0 b0 (set_axes1 (mk_ref (length (figs (plt s))) 0) (vars s))))
                   (gen s) p (out s ++ [[VNum a0; VNum b0]])) /\
    plt_ok p (figs (plt s)) (fig1_drawn (x (vars s)) (y (vars s)) (unc_y (vars s)) a0 b0)
           (files (plt s)).
Proof.
  intros Hp E. unfold cell_fig1. errorbar_pass Hp. rewrite E. nb_simpl.
  eexists; split; [reflexivity|]. cbn [plt].
  eapply plt_ok_conv; [plt_chain|reflexivity|reflexivity].
Qed.

Lemma cell_load_done (csv : frame) (s : nb_state) :
  cell_load csv s =
  Done tt (mk_nb (set_data (load csv) (column Depth_cmcd (load csv)) (column TEX86 (load csv))
                           (column TEX86_stdev (load csv)) (vars s))
                 (gen s) (plt s) (out s ++ [[VFrame (firstn 5 (load csv))]])).
Proof. reflexivity. Qed.

Lemma cell_fig1_raise (s : nb_state) (e : py_error) :
  errorbar_passes (vars s) ->
  polyfit1 (x (vars s)) (y (vars s)) = inl e ->
  exists p, cell_fig1 s =
    Raised e (mk_nb (set_axes1 (mk_ref (length (figs (plt s))) 0) (vars s)) (gen s) p (out s)) /\
    plt_ok p (figs (plt s))
           (mk_figure [pax_draw (errorbar (x (vars s)) (y (vars s)) (unc_y (vars s))) new_pax] 0)
           (files (plt s)).
Proof.
  intros Hp E. unfold cell_fig1. errorbar_pass Hp. rewrite E. nb_simpl.
  eexists; split; [reflexivity|]. cbn [plt].
  eapply plt_ok_conv; [plt_chain|reflexivity|reflexivity].
Qed.

(** Line 32 raises when [yerr] fails its check, after the marker line is
    drawn and before [np.polyfit] runs. *)
Lemma cell_fig1_raise_errorbar (s : nb_state) (e : py_error) :
  errorbar_size_check (x (vars s)) (y (vars s)) = inr tt ->
  errorbar_yerr_check (y (vars s)) (unc_y (vars s)) = inl e ->
  exists p, cell_fig1 s =
    Raised e (mk_nb (set_axes1 (mk_ref (length (figs (plt s))) 0) (vars s)) (gen s) p (out s)) /\
    plt_ok p (figs (plt s))
           (mk_figure [pax_draw (errorbar_line (x (vars s)) (y (vars s))) new_pax] 0)
           (files (plt s)).
Proof.
  intros Hs Hy. unfold cell_fig1. nb_simpl. rewrite Hs. nb_simpl. rewrite Hy. nb_simpl.
  eexists; split; [reflexivity|]. cbn [plt].
  eapply plt_ok_conv; [plt_chain|reflexivity|reflexivity].
Qed.

(** What the second cell assigns, on each of its outcomes. *)
Lemma cell_fig1_vars (s : nb_state) :
  (forall s', cell_fig1 s = Done tt s' ->
     exists a0 b0, polyfit1 (x (vars s)) (y (vars s)) = inr (a0, b0) /\
       vars s' = set_model (model_line a0 b0 (x (vars s)))
                   (set_ab a0 b0 (set_axes1 (mk_ref (length (figs (plt s))) 0) (vars s)))) /\
  (forall e s', cell_fig1 s = Raised e s' ->
     vars s' = set_axes1 (mk_ref (length (figs (plt s))) 0) (vars s)).
Proof.
  unfold cell_fig1. nb_simpl.
  destruct (errorbar_size_check _ _); nb_simpl;
    [split; [discriminate|intros e s' E; injection E as _ <-; reflexivity]|].
  destruct (errorbar_yerr_check _ _); nb_simpl;
    [split; [discriminate|intros e s' E; injection E as _ <-; reflexivity]|].
  destruct (polyfit1 _ _) as [e|[a0 b0]]; nb_simpl.
  - split; [discriminate|intros e' s' E; injection E as _ <-; reflexivity].
  - split; [|discriminate]. intros s' E. injection E as <-. exists a0, b0. split; reflexivity.
Qed.

Lemma cell_fits_done (s : nb_state) (BA0 W : list Q) :
  normal_BA (x (vars s)) (y (vars s)) = inr BA0 ->
  weighted_BA (x (vars s)) (y (vars s)) (unc_y (vars s)) = inr W ->
  cell_fits s =
  Done tt (mk_nb (set_model_w (NormalEq.model_w W (x (vars s))) (set_BA_w W (set_BA BA0 (vars s))))
                 (gen s) (plt s)
                 (out s ++ [[VNum (a (vars s)); VNum (b (vars s))]] ++ [[VArray BA0]] ++ [[VArray W]])).
Proof. intros E1 E2. unfold cell_fits. nb_simpl. rewrite E1. nb_simpl. rewrite E2. nb_simpl.
  rewrite <- !app_assoc. reflexivity. Qed.

Lemma cell_fits_raise_BA (s : nb_state) (e : py_error) :
  normal_BA (x (vars s)) (y (vars s)) = inl e ->
  cell_fits s = Raised e (mk_nb (vars s) (gen s) (plt s) (out s ++ [[VNum (a (vars s)); VNum (b (vars s))]])).
Proof. intros E1. unfold cell_fits. nb_simpl. rewrite E1. reflexivity. Qed.

Lemma cell_fits_raise_w (s : nb_state) (BA0 : list Q) (e : py_error) :
  normal_BA (x (vars s)) (y (vars s)) = inr BA0 ->
  weighted_BA (x (vars s)) (y (vars s)) (unc_y (vars s)) = inl e ->
  cell_fits s = Raised e (mk_nb (set_BA BA0 (vars s)) (gen s) (plt s)
                   (out s ++ [[VNum (a (vars s)); VNum (b (vars s))]] ++ [[VArray BA0]])).
Proof. intros E1 E2. unfold cell_fits. nb_simpl. rewrite E1. nb_simpl. rewrite E2.
  rewrite <- !app_assoc. reflexivity. Qed.

(** The second figure of lines 80-98, labelled by lines 100-101. *)
Definition fig2_drawn (x y unc_y : list Q) (a b : Q) (mw : list Q) : figure :=
  mk_figure [pax_xlabel "Year CE"%string (pax_ylabel "TEX 86 Index"%string
     (pax_legend ["OLS Trend (no weights)"%string; "OLS Trend (weighted)"%string; "Data"%string]
        (pax_draw (plot x mw DashDot "k"%string)
           (pax_draw (plot x (model_line a b x) Dashed "grey"%string)
              (pax_draw (errorbar x y unc_y) new_pax)))))] 0.

Lemma cell_fig2_done (s : nb_state) (w0 : Q) :
  errorbar_passes (vars s) ->
  nth_error (BA_w (vars s)) 0 = Some w0 ->
  let v := vars s in
  exists p, cell_fig2 s =
    Done tt (mk_nb (set_model (model_line (a v) (b v) (x v))
                      (set_axes2 (mk_ref (length (figs (plt s))) 0) v))
                   (gen s) p (out s ++ [[VNum w0]])) /\
    plt_ok p (figs (plt s)) (fig2_drawn (x v) (y v) (unc_y v) (a v) (b v) (model_w v))
           (files (plt s) ++ [("Browne_et_al_2023_OLS_Models.svg"%string,
                               fig2_drawn (x v) (y v) (unc_y v) (a v) (b v) (model_w v))]).
Proof.
  intros Hp E v. unfold cell_fig2, index. errorbar_pass Hp. rewrite E. nb_simpl.
  eexists; split; [reflexivity|]. cbn [plt].
  eapply plt_ok_conv; [plt_chain|reflexivity|reflexivity].
Qed.

Lemma plot_all_models_done (r : axes_ref) (xs : list Q) (ml : list (list Q)) (inds : list nat)
      (s : nb_state) :
  (forall i, In i inds -> (i < length ml)%nat) ->
  plot_all_models r xs ml inds s =
  Done tt (mk_nb (vars s) (gen s)
                 (fold_left (fun q i => on_axes r (plot xs (nth i ml []) Solid "grey"%string) q)
                            inds (plt s))
                 (out s)).
Proof.
  revert s; induction inds as [|i inds IH]; intros s Hin; [destruct s; reflexivity|].
  cbn [plot_all_models fold_left].
  assert (Hi : (i < length ml)%nat) by (apply Hin; left; reflexivity).
  destruct (nth_error ml i) as [m|] eqn:E.
  - rewrite (nth_error_nth ml i [] E). nb_simpl.
    rewrite IH by (intros j Hj; apply Hin; right; exact Hj). reflexivity.
  - apply nth_error_None in E. lia.
Qed.

Lemma map_nth_seq_id {X} (l : list X) (d : X) : map (fun i => nth i l d) (seq 0 (length l)) = l.
Proof.
  induction l as [|h l IH]; [reflexivity|]. cbn [length seq map nth]. f_equal.
  rewrite <- seq_shift, map_map. exact IH.
Qed.

(** The third figure of lines 147-170, labelled by lines 172-173. *)
Definition fig3_drawn (x y unc_y : list Q) (a b : Q) (mw : list Q) (ml : list (list Q)) : figure :=
  mk_figure [pax_xlabel "Year CE"%string (pax_ylabel "TEX 86 Index"%string
     (pax_draw (plot x mw DashDot "k"%string)
        (pax_draw (plot x (model_line a b x) Dashed "k"%string)
           (fold_left (fun a m => pax_draw (plot x m Solid "grey"%string) a) ml
              (pax_draw (errorbar x y unc_y) new_pax)))))] 0.

Lemma fold_left_map_l {X Y Z} (f : Y -> X -> Y) (g : Z -> X) (l : list Z) (y0 : Y) :
  fold_left f (map g l) y0 = fold_left (fun a i => f a (g i)) l y0.
Proof. revert y0; induction l as [|i l IH]; intros y0; [reflexivity|]. apply IH. Qed.

Lemma fold_left_map_seq {X Y} (f : Y -> X -> Y) (l : list X) (d : X) (y0 : Y) :
  fold_left (fun a i => f a (nth i l d)) (seq 0 (length l)) y0 = fold_left f l y0.
Proof.
  rewrite <- (map_nth_seq_id l d) at 2. rewrite fold_left_map_l. reflexivity.
Qed.

Lemma cell_mc_done (s : nb_state) (sl il : list Q) (ml : list (list Q)) (g' : G) :
  errorbar_passes (vars s) ->
  runStateT (multi_OLS (x (vars s)) (y (vars s)) (map (fun u => 2 * u) (unc_y (vars s))) 1000)
            (gen s) = inr ((sl, il, ml), g') ->
  length ml = length sl ->
  let v := vars s in
  exists p, cell_mc s =
    Done tt (mk_nb (set_model (model_line (a v) (b v) (x v))
                      (set_axes3 (mk_ref (length (figs (plt s))) 0) (set_mc sl il ml v)))
                   g' p (out s)) /\
    plt_ok p (figs (plt s)) (fig3_drawn (x v) (y v) (unc_y v) (a v) (b v) (model_w v) ml)
           (files (plt s) ++ [("Browne_et_al_2023_AllModels.svg"%string,
                               fig3_drawn (x v) (y v) (unc_y v) (a v) (b v) (model_w v) ml)]).
Proof.
  intros Hp E Hl v. unfold cell_mc. nb_simpl. unfold nb_bind at 1, np_random. nb_simpl. rewrite E.
  nb_simpl. unfold nb_bind. errorbar_pass Hp.
  rewrite plot_all_models_done by (intros i Hi; apply in_seq in Hi; lia). nb_simpl.
  eexists; split; [reflexivity|]. cbn [plt].
  eapply plt_ok_conv; [plt_chain| |];
    rewrite <- Hl, (fold_left_map_seq (fun a m => pax_draw (plot (x v) m Solid "grey"%string) a) ml []);
    reflexivity.
Qed.

(** The two histograms of lines 189-199; [yl0] and [yl1] are the limits
    [get_ylim] returns after each histogram is drawn. *)
Definition fig4_drawn (sl il : list Q) (a b BA1 BA0 : Q) (yl0 yl1 : Q * Q) : figure :=
  mk_figure
    [pax_title "Slopes"%string
       (pax_draw (vlines BA1 (Qmin (fst yl0) (snd yl0)) (Qmax (fst yl0) (snd yl0)) DashDot)
          (pax_draw (vlines a (Qmin (fst yl0) (snd yl0)) (Qmax (fst yl0) (snd yl0)) Dashed)
             (pax_draw (hist sl "peru"%string) new_pax)));
     pax_title "Intercepts"%string
       (pax_draw (vlines BA0 (Qmin (fst yl1) (snd yl1)) (Qmax (fst yl1) (snd yl1)) DashDot)
          (pax_draw (vlines b (Qmin (fst yl1) (snd yl1)) (Qmax (fst yl1) (snd yl1)) Dashed)
             (pax_draw (hist il "mediumslateblue"%string) new_pax)))] 1.

(** Line 202. *)
Definition report_line (sl : list Q) : list pyval :=
  [VStr "Average slope = "%string; VMean (np_mean sl); VStr " +/- "%string; VStd (np_std sl)].

Lemma cell_hist_done (s : nb_state) (BA1 BA0 : Q) :
  nth_error (BA (vars s)) 1 = Some BA1 -> nth_error (BA (vars s)) 0 = Some BA0 ->
  let v := vars s in
  let n := length (figs (plt s)) in
  let yl0 := get_ylim (hist (slopes v) "peru"%string empty_axes) in
  let yl1 := get_ylim (hist (intercepts v) "mediumslateblue"%string empty_axes) in
  exists p, cell_hist s =
    Done tt (mk_nb (set_ylims yl1 (set_ylims yl0 (set_axes4 [mk_ref n 0; mk_ref n 1] v)))
                   (gen s) p (out s ++ [report_line (slopes v)])) /\
    plt_ok p (figs (plt s)) (fig4_drawn (slopes v) (intercepts v) (a v) (b v) BA1 BA0 yl0 yl1)
           (files (plt s) ++ [("Browne_et_al_2023_histograms.svg"%string,
                               fig4_drawn (slopes v) (intercepts v) (a v) (b v) BA1 BA0 yl0 yl1)]).
Proof.
  intros E1 E0 v n yl0 yl1. unfold cell_hist, index. nb_simpl. rewrite E1, E0. nb_simpl.
  erewrite (get_pax_ok _ (figs (plt s)) _ _ 0) by plt_chain.
  erewrite (get_pax_ok _ (figs (plt s)) _ _ 1) by plt_chain.
  cbn [nth fig_axes update_nth pax_draw drawn].
  eexists; split; [reflexivity|]. cbn [plt].
  eapply plt_ok_conv; [plt_chain|reflexivity|reflexivity].
Qed.

(** ** Lemmas for whole runs *)

Lemma run_from_done (c : nb unit) (rest : list (nb unit)) (pc : nat) (s s' : nb_state) :
  c s = Done tt s' -> run_from (c :: rest) pc s = run_from rest (S pc) s'.
Proof. intros E. cbn [run_from]. rewrite E. reflexivity. Qed.

Lemma run_from_raise (c : nb unit) (rest : list (nb unit)) (pc : nat) (s s' : nb_state) e :
  c s = Raised e s' -> run_from (c :: rest) pc s = Stopped pc e s'.
Proof. intros E. cbn [run_from]. rewrite E. reflexivity. Qed.

Lemma zero_positions_singular (x : list Q) :
  (forall xi, In xi x -> xi == 0) -> design_det x == 0.
Proof.
  intros Hz. destruct (const_positions_sums 0 x x eq_refl Hz) as (Sx & Sxx & _).
  unfold design_det. rewrite Sx, Sxx. ring.
Qed.

Lemma qlist_eq_two (l : list Q) (c d : Q) :
  qlist_eq l [c; d] -> exists p q, l = [p; q] /\ p == c /\ q == d.
Proof.
  intros H1. inversion H1 as [|p c' l' l1 Hp H2 E1 E2]; subst.
  inversion H2 as [|q d' l'' l2 Hq H3 E3 E4]; subst. inversion H3; subst. eauto.
Qed.

(** The normal-equation solution of line 64, when it exists, is the line
    of [np.polyfit] at line 44. *)
Lemma polyfit_normal_agree (x y : list Q) (a b : Q) (v : list Q) :
  length y = length x -> polyfit1 x y = inr (a, b) -> normal_BA x y = inr v -> qlist_eq v [b; a].
Proof.
  intros Hl Hf Hv. pose proof (normal_BA_regular x y v Hl Hv) as HD.
  rewrite (polyfit1_regular x y (eq_sym Hl) HD) in Hf. injection Hf as <- <-.
  destruct (normal_BA_closed x y Hl HD) as (v' & Hv' & Q). congruence.
Qed.

Ltac cur_state := match goal with |- context [run_from _ _ ?s] => constr:(s) end.

(** Names the state of the next cell, so that the terms of a long run stay small. *)
Ltac name_state := let s := cur_state in let n := fresh "st" in set (n := s).

(** Rewrites the files of the final state back to the files of the first:
    each [plt_ok] hypothesis says what a cell's [savefig] added. *)
Ltac files_chain :=
  repeat first
    [ progress cbn [plt]
    | match goal with H : plt_ok ?p _ _ _ |- context [files ?p] => rewrite (proj2 H) end
    | match goal with |- context [plt ?s] => is_var s; unfold s end ].

Lemma length_column (f : row -> option Q) (df : frame) : length (column f df) = length df.
Proof. apply length_map. Qed.

(** C9: on a table whose kept rows give a regular design ([x] not all
    equal) and positive uncertainties with a regular weighted design,
    Run All executes the seven cells: it prints the head of the table,
    the [np.polyfit] line twice, [BA] (equal to [[b, a]], as the comment
    at line 66 says), [BA_w] (the weighted fit with weights [unc_y]) and
    its intercept, and the summary of 1000 Monte Carlo slopes; and it
    writes three files holding the second, third and fourth figures as
    drawn and labelled. *)
Theorem notebook_completes (csv : frame) (g : G) :
  let df := load csv in
  let x0 := column Depth_cmcd df in
  let y0 := column TEX86 df in
  let u0 := column TEX86_stdev df in
  ~ design_det x0 == 0 -> Forall (fun v => 0 < v) u0 -> ~ wdet x0 u0 == 0 ->
  exists a0 b0 BA0 W sl il ml s',
    run_all (notebook csv) (nb_init g) = Running 7 s' /\
    polyfit1 x0 y0 = inr (a0, b0) /\
    qlist_eq BA0 [b0; a0] /\ qlist_eq W [snd (wls x0 y0 u0); fst (wls x0 y0 u0)] /\
    out s' = [[VFrame (firstn 5 df)]; [VNum a0; VNum b0]; [VNum a0; VNum b0]; [VArray BA0];
              [VArray W]; [VNum (nth 0 W 0)]; report_line sl] /\
    length sl = 1000%nat /\
    files (plt s') =
      [("Browne_et_al_2023_OLS_Models.svg"%string,
        fig2_drawn x0 y0 u0 a0 b0 (NormalEq.model_w W x0));
       ("Browne_et_al_2023_AllModels.svg"%string,
        fig3_drawn x0 y0 u0 a0 b0 (NormalEq.model_w W x0) ml);
       ("Browne_et_al_2023_histograms.svg"%string,
        fig4_drawn sl il a0 b0 (nth 1 BA0 0) (nth 0 BA0 0)
          (get_ylim (hist sl "peru"%string empty_axes))
          (get_ylim (hist il "mediumslateblue"%string empty_axes)))].
Proof.
  intros df x0 y0 u0 HD Hpos Hw.
  assert (Hyx : length y0 = length x0) by (unfold x0, y0; rewrite !length_column; reflexivity).
  assert (Hux : length u0 = length x0) by (unfold x0, u0; rewrite !length_column; reflexivity).
  assert (Hu : forall v, In v u0 -> ~ v == 0)
    by (rewrite Forall_forall in Hpos; intros v Hv E; specialize (Hpos v Hv); rewrite E in Hpos;
        discriminate).
  assert (Hnn : Forall (Qle 0) u0)
    by (eapply Forall_impl; [|exact Hpos]; intros v Hv; apply Qlt_le_weak; exact Hv).
  assert (H1 : length x0 = length y0) by congruence.
  assert (H2 : length u0 = length y0) by congruence.
  assert (Hne : x0 <> []) by (intros E; apply HD; rewrite E; exact design_det_nil).
  set (a0 := (qlen x0 * dot x0 y0 - Σ x0 * Σ y0) / design_det x0).
  set (b0 := (dot x0 x0 * Σ y0 - Σ x0 * dot x0 y0) / design_det x0).
  assert (Ef : polyfit1 x0 y0 = inr (a0, b0)) by exact (polyfit1_regular x0 y0 (eq_sym Hyx) HD).
  destruct (normal_BA_closed x0 y0 Hyx HD) as (BA0 & EBA & QBA).
  destruct (weighted_BA_closed x0 y0 u0 Hyx Hux Hu Hw) as (W & EW & QW).
  destruct (qlist_eq_two _ _ _ QBA) as (p0 & p1 & -> & _).
  destruct (qlist_eq_two _ _ _ QW) as (w0 & w1 & -> & _).
  unfold run_all, notebook. rewrite (run_from_done _ _ _ _ _ (cell_load_done csv _)). name_state.
  let s := cur_state in
  destruct (cell_fig1_done s a0 b0 ltac:(apply errorbar_passes_intro; assumption) Ef)
    as (p1' & Ec & Hp1).
  rewrite (run_from_done _ _ _ _ _ Ec). name_state.
  let s := cur_state in rewrite (run_from_done _ _ _ _ _ (cell_fits_done s _ _ EBA EW)). name_state.
  let s := cur_state in
  destruct (cell_fig2_done s w0 ltac:(apply errorbar_passes_intro; assumption) eq_refl)
    as (p2 & Ec2 & Hp2).
  rewrite (run_from_done _ _ _ _ _ Ec2). name_state.
  rewrite (run_from_done cell_defs _ _ _ _ eq_refl). name_state.
  assert (Hnz : ~ (forall xi, In xi x0 -> xi == 0)) by (intros Hz; exact (HD (zero_positions_singular x0 Hz))).
  let s := cur_state in
  destruct (multi_OLS_returns x0 y0 (map (fun u => 2 * u) u0) 1000 (gen s) Hne (eq_sym Hyx)
              ltac:(rewrite length_map; congruence) Hnz) as ([[sl il] ml] & g' & Emc).
  destruct (multi_OLS_samples _ _ _ _ _ _ _ _ _ Emc) as (fits & F & Esl & Eil & Eml).
  assert (Hl : length ml = length sl) by (rewrite Eml, Esl, !length_map; reflexivity).
  let s := cur_state in
  destruct (cell_mc_done s sl il ml g' ltac:(apply errorbar_passes_intro; assumption) Emc Hl)
    as (p3 & Ec3 & Hp3).
  rewrite (run_from_done _ _ _ _ _ Ec3). name_state.
  let s := cur_state in destruct (cell_hist_done s p1 p0 eq_refl eq_refl) as (p4 & Ec4 & Hp4).
  rewrite (run_from_done _ _ _ _ _ Ec4). cbn [run_from].
  exists a0, b0, [p0; p1], [w0; w1], sl, il, ml. eexists. split; [reflexivity|].
  split; [exact Ef|]. split; [exact QBA|]. split; [exact QW|]. split; [reflexivity|].
  split.
  - apply Forall2_length in F. rewrite Esl, length_map, <- F, length_map, length_seq. reflexivity.
  - files_chain. reflexivity.
Qed.

(** C11: Run All stops at the first exception, in the cell and with the
    printed lines the code gives: with no row kept, [np.polyfit] raises
    [TypeError] in the second cell; with every kept depth 0 it raises
    [LinAlgError] there; with all depths equal but not 0, [np.polyfit]
    returns a line and line 64 raises [LinAlgError] in the third cell
    after printing it; with a regular design and a zero uncertainty,
    line 69 raises [ZeroDivisionError] after [BA] is printed (the last
    three with no negative uncertainty); with a negative uncertainty
    [errorbar] raises [ValueError] at line 32, before anything is printed
    after the head of the table. *)
Theorem notebook_error_paths (csv : frame) (g : G) :
  let df := load csv in
  let x0 := column Depth_cmcd df in
  let y0 := column TEX86 df in
  let u0 := column TEX86_stdev df in
  let head := [VFrame (firstn 5 df)] in
  (x0 = [] -> exists s', run_all (notebook csv) (nb_init g) = Stopped 1 TypeError_empty s' /\
                         out s' = [head]) /\
  (x0 <> [] -> Forall (Qle 0) u0 -> (forall xi, In xi x0 -> xi == 0) ->
     exists s', run_all (notebook csv) (nb_init g) = Stopped 1 LinAlgError s' /\ out s' = [head]) /\
  (x0 <> [] -> Forall (Qle 0) u0 -> design_det x0 == 0 -> ~ (forall xi, In xi x0 -> xi == 0) ->
     exists a0 b0 s', run_all (notebook csv) (nb_init g) = Stopped 2 LinAlgError s' /\
       polyfit1 x0 y0 = inr (a0, b0) /\
       out s' = [head; [VNum a0; VNum b0]; [VNum a0; VNum b0]]) /\
  (~ design_det x0 == 0 -> Forall (Qle 0) u0 -> (exists v, In v u0 /\ v == 0) ->
     exists a0 b0 BA0 s', run_all (notebook csv) (nb_init g) = Stopped 2 ZeroDivisionError s' /\
       polyfit1 x0 y0 = inr (a0, b0) /\ qlist_eq BA0 [b0; a0] /\
       out s' = [head; [VNum a0; VNum b0]; [VNum a0; VNum b0]; [VArray BA0]]) /\
  (Exists (fun v => v < 0) u0 ->
     exists s', run_all (notebook csv) (nb_init g) = Stopped 1 ValueError_negative s' /\
                out s' = [head]).
Proof.
  intros df x0 y0 u0 head.
  assert (Hyx : length y0 = length x0) by (unfold x0, y0; rewrite !length_column; reflexivity).
  assert (Hux : length u0 = length x0) by (unfold x0, u0; rewrite !length_column; reflexivity).
  assert (H1 : length x0 = length y0) by congruence.
  assert (H2 : length u0 = length y0) by congruence.
  unfold run_all, notebook. rewrite (run_from_done _ _ _ _ _ (cell_load_done csv _)). name_state.
  split; [|split; [|split; [|split]]].
  - intros E.
    assert (Hnn : Forall (Qle 0) u0)
      by (rewrite E in Hux; destruct u0; [constructor|discriminate]).
    let s := cur_state in
    destruct (cell_fig1_raise s TypeError_empty ltac:(apply errorbar_passes_intro; assumption)
                ltac:(cbn; fold df x0; rewrite E; reflexivity))
      as (p & Ec & _).
    rewrite (run_from_raise _ _ _ _ _ _ Ec). eexists; split; reflexivity.
  - intros Hne Hnn Hz.
    let s := cur_state in
    destruct (cell_fig1_raise s LinAlgError ltac:(apply errorbar_passes_intro; assumption)
                (polyfit1_zero_positions x0 y0 Hne (eq_sym Hyx) Hz))
      as (p & Ec & _).
    rewrite (run_from_raise _ _ _ _ _ _ Ec). eexists; split; reflexivity.
  - intros Hne Hnn HD Hnz.
    destruct (polyfit1_returns x0 y0 Hne (eq_sym Hyx) Hnz) as (a0 & b0 & Ef).
    let s := cur_state in
    destruct (cell_fig1_done s a0 b0 ltac:(apply errorbar_passes_intro; assumption) Ef)
      as (p & Ec & _).
    rewrite (run_from_done _ _ _ _ _ Ec). name_state.
    let s := cur_state in
    rewrite (run_from_raise _ _ _ _ _ _ (cell_fits_raise_BA s _ (gram_singular_raises x0 y0 Hyx HD))).
    exists a0, b0. eexists; split; [reflexivity|]. split; [exact Ef|reflexivity].
  - intros HD Hnn Hz.
    set (a0 := (qlen x0 * dot x0 y0 - Σ x0 * Σ y0) / design_det x0).
    set (b0 := (dot x0 x0 * Σ y0 - Σ x0 * dot x0 y0) / design_det x0).
    assert (Ef : polyfit1 x0 y0 = inr (a0, b0)) by exact (polyfit1_regular x0 y0 (eq_sym Hyx) HD).
    destruct (normal_BA_closed x0 y0 Hyx HD) as (BA0 & EBA & QBA).
    assert (EW : weighted_BA x0 y0 u0 = inl ZeroDivisionError)
      by (unfold weighted_BA; rewrite reciprocals_zero by exact Hz; reflexivity).
    let s := cur_state in
    destruct (cell_fig1_done s a0 b0 ltac:(apply errorbar_passes_intro; assumption) Ef)
      as (p & Ec & _).
    rewrite (run_from_done _ _ _ _ _ Ec). name_state.
    let s := cur_state in rewrite (run_from_raise _ _ _ _ _ _ (cell_fits_raise_w s _ _ EBA EW)).
    exists a0, b0, BA0. eexists; split; [reflexivity|]. split; [exact Ef|]. split; [exact QBA|].
    reflexivity.
  - intros Hneg.
    let s := cur_state in
    destruct (cell_fig1_raise_errorbar s ValueError_negative (errorbar_size_ok x0 y0 H1)
                (errorbar_yerr_negative y0 u0 H2 Hneg)) as (p & Ec & _).
    rewrite (run_from_raise _ _ _ _ _ _ Ec). eexists; split; reflexivity.
Qed.

(** ** The variables of the fits are assigned only where the code does *)

Definition outcome_state {A} (o : outcome A) : nb_state :=
  match o with Done _ s | Raised _ s => s end.

(** The variables [x], [y], [a], [b] and [BA]. *)
Definition core (v : globals) : list Q * list Q * Q * Q * list Q := (x v, y v, a v, b v, BA v).

(** A computation that leaves them as they are, whether it returns or raises. *)
Definition keeps_core {A} (m : nb A) : Prop :=
  forall s, core (vars (outcome_state (m s))) = core (vars s).

Lemma keeps_bind {A B} (m : nb A) (k : A -> nb B) :
  keeps_core m -> (forall v, keeps_core (k v)) -> keeps_core (bind m k).
Proof.
  intros Hm Hk s. specialize (Hm s). cbn [bind Monad_nb]. unfold nb_bind.
  destruct (m s) as [v s'|e s'] eqn:E; cbn [outcome_state] in Hm |- *; [rewrite (Hk v s')|]; exact Hm.
Qed.

Lemma keeps_prim {A} (m : nb A) : (forall s, vars (outcome_state (m s)) = vars s) -> keeps_core m.
Proof. intros Hm s. rewrite Hm. reflexivity. Qed.

Lemma keeps_set_vars (f : globals -> globals) : (forall v, core (f v) = core v) -> keeps_core (set_vars f).
Proof. intros Hf s. exact (Hf (vars s)). Qed.

Lemma keeps_plot_all_models (r : axes_ref) (xs : list Q) (ml : list (list Q)) (inds : list nat) :
  keeps_core (plot_all_models r xs ml inds).
Proof.
  induction inds as [|i inds IH]; cbn [plot_all_models]; [apply keeps_prim; reflexivity|].
  destruct (nth_error ml i); [apply keeps_bind; [apply keeps_prim; reflexivity|intros; exact IH]|].
  apply keeps_prim; reflexivity.
Qed.

Lemma keeps_py {A} (r : result A) : keeps_core (py r).
Proof. apply keeps_prim. intros s. destruct r; reflexivity. Qed.

Lemma keeps_np_random {A} (m : rng A) : keeps_core (np_random m).
Proof. apply keeps_prim. intros s. unfold np_random. destruct (runStateT m (gen s)) as [|[]]; reflexivity. Qed.

(** [keeps_tac] proves [keeps_core] of a cell by following its binds. *)
Lemma keeps_plt_errorbar (r : axes_ref) (xs ys errs : list Q) : keeps_core (plt_errorbar r xs ys errs).
Proof.
  unfold plt_errorbar. apply keeps_bind; [apply keeps_py|intros _].
  apply keeps_bind; [apply keeps_prim; intros ?s; reflexivity|intros _].
  apply keeps_bind; [apply keeps_py|intros _]. apply keeps_prim; intros ?s; reflexivity.
Qed.

Ltac keeps_tac :=
  repeat first
    [ apply keeps_bind; [|intros ?]
    | match goal with |- keeps_core (let '(_, _) := ?p in _) => destruct p end
    | apply keeps_plot_all_models
    | apply keeps_plt_errorbar
    | apply keeps_py
    | apply keeps_np_random
    | apply keeps_set_vars; intros; reflexivity
    | apply keeps_prim; intros ?s; reflexivity ].

Lemma keeps_fig2 : keeps_core cell_fig2.
Proof. unfold cell_fig2. keeps_tac. Qed.

Lemma keeps_defs : keeps_core cell_defs.
Proof. unfold cell_defs. keeps_tac. Qed.

Lemma keeps_mc : keeps_core cell_mc.
Proof. unfold cell_mc. keeps_tac. Qed.

Lemma keeps_hist : keeps_core cell_hist.
Proof. unfold cell_hist. keeps_tac. Qed.

Definition cfg_pc (c : config) : nat := match c with Running pc _ | Stopped pc _ _ => pc end.

(** The invariant of Run All behind the comment at line 66. *)
Definition ba_inv (c : config) : Prop :=
  let v := vars (cfg_state c) in
  length (y v) = length (x v) /\
  ((2 <= cfg_pc c)%nat -> polyfit1 (x v) (y v) = inr (a v, b v)) /\
  ((cfg_pc c <= 1)%nat -> BA v = []) /\
  (BA v = [] \/ qlist_eq (BA v) [b v; a v]).

(** A cell that keeps the core variables keeps the invariant. *)
Lemma ba_inv_keeps (k : nb unit) (pc : nat) (s : nb_state) (c' : config) :
  keeps_core k -> (2 <= pc)%nat -> ba_inv (Running pc s) ->
  (exists s', c' = Running (S pc) s' /\ k s = Done tt s') \/
  (exists e s', c' = Stopped pc e s' /\ k s = Raised e s') ->
  ba_inv c'.
Proof.
  intros Hk Hpc Hinv Hc. specialize (Hk s).
  assert (Hcore : core (vars (cfg_state c')) = core (vars s) /\ (2 <= cfg_pc c')%nat).
  { destruct Hc as [(s' & -> & E)|(e & s' & -> & E)]; rewrite E in Hk; cbn; split; auto. }
  destruct Hcore as [Hcore Hpc']. unfold core in Hcore. injection Hcore as Ex Ey Ea Eb EBA.
  destruct Hinv as (L & P & _ & B). unfold ba_inv. cbn [cfg_state cfg_pc] in *.
  rewrite Ex, Ey, Ea, Eb, EBA. split; [exact L|]. split; [intros _; apply P; exact Hpc|].
  split; [intros; lia|exact B].
Qed.

Lemma ba_inv_step (csv : frame) (c c' : config) :
  ba_inv c -> nb_step (notebook csv) c c' -> ba_inv c'.
Proof.
  intros Hinv Hs. destruct Hs as [pc s k s' Hk E|pc s k e s' Hk E].
  all: destruct pc as [|[|[|[|[|[|[|pc]]]]]]]; cbn [nth_error notebook] in Hk;
    try (destruct pc; discriminate); inversion Hk; subst.
  all: try (lazymatch type of E with ?k ?s0 = _ =>
            lazymatch type of Hinv with ba_inv (Running ?pc _) =>
              apply (ba_inv_keeps k pc s0 _
                       ltac:(first [apply keeps_fig2|apply keeps_defs|apply keeps_mc|apply keeps_hist])
                       ltac:(lia) Hinv)
            end end; solve [left; eauto|right; eauto]).
  all: destruct Hinv as (L & P & Z & B); unfold ba_inv; cbn [cfg_state cfg_pc] in *.
  - rewrite cell_load_done in E. injection E as <-. cbn.
    rewrite !length_column. split; [reflexivity|]. split; [lia|].
    rewrite (Z ltac:(lia)). auto.
  - destruct (proj1 (cell_fig1_vars s) s' E) as (a0 & b0 & Ef & ->).
    cbn. split; [exact L|]. split; [intros _; exact Ef|]. split; [lia|]. rewrite (Z ltac:(lia)). auto.
  - destruct (normal_BA (x (vars s)) (y (vars s))) as [e|BA0] eqn:E1.
    + rewrite (cell_fits_raise_BA s e E1) in E. discriminate.
    + destruct (weighted_BA (x (vars s)) (y (vars s)) (unc_y (vars s))) as [e|W] eqn:E2.
      * rewrite (cell_fits_raise_w s BA0 e E1 E2) in E. discriminate.
      * rewrite (cell_fits_done s BA0 W E1 E2) in E. injection E as <-. cbn.
        split; [exact L|]. split; [intros _; apply P; lia|]. split; [lia|].
        right. exact (polyfit_normal_agree _ _ _ _ _ L (P ltac:(lia)) E1).
  - rewrite cell_load_done in E. discriminate.
  - rewrite (proj2 (cell_fig1_vars s) e s' E).
    cbn. split; [exact L|]. split; [lia|]. split; [intros _; apply Z; lia|]. rewrite (Z ltac:(lia)). auto.
  - destruct (normal_BA (x (vars s)) (y (vars s))) as [e0|BA0] eqn:E1.
    + rewrite (cell_fits_raise_BA s e0 E1) in E. injection E as <- <-. cbn.
      split; [exact L|]. split; [exact P|]. split; [lia|exact B].
    + destruct (weighted_BA (x (vars s)) (y (vars s)) (unc_y (vars s))) as [e0|W] eqn:E2.
      * rewrite (cell_fits_raise_w s BA0 e0 E1 E2) in E. injection E as <- <-. cbn.
        split; [exact L|]. split; [exact P|]. split; [lia|].
        right. exact (polyfit_normal_agree _ _ _ _ _ L (P ltac:(lia)) E1).
      * rewrite (cell_fits_done s BA0 W E1 E2) in E. discriminate.
Qed.

(** C10: in every state of Run All, the line [(a, b)] is the [np.polyfit]
    line of the current [x] and [y] once the second cell has run, and
    [BA], once assigned, equals [[b, a]]: no cell between lines 44 and 64
    changes [x], [y], [a] or [b], and later cells do not reassign [BA].
    This is the claim of the comment at line 66. *)
Theorem BA_agrees_with_polyfit (csv : frame) (g : G) (c : config) :
  star (nb_step (notebook csv)) (Running 0 (nb_init g)) c ->
  let v := vars (cfg_state c) in
  ((2 <= cfg_pc c)%nat -> polyfit1 (x v) (y v) = inr (a v, b v)) /\
  (BA v = [] \/ qlist_eq (BA v) [b v; a v]).
Proof.
  intros Hs. assert (Hinv : ba_inv c).
  { apply (star_ind_inv _ ba_inv (ba_inv_step csv) _ _ Hs).
    unfold ba_inv; cbn. split; [reflexivity|]. split; [lia|]. split; [reflexivity|left; reflexivity]. }
  destruct Hinv as (_ & P & _ & B). exact (conj P B).
Qed.

(** Run All of the notebook ends: from the initial state the steps
    reach [run_all]'s configuration, which has either run the seven cells
    or stopped at an exception, and no step leaves it. *)
Theorem run_all_terminates (csv : frame) (s : nb_state) :
  star (nb_step (notebook csv)) (Running 0 s) (run_all (notebook csv) s) /\
  finished (notebook csv) (run_all (notebook csv) s) = true /\
  forall c', ~ nb_step (notebook csv) (run_all (notebook csv) s) c'.
Proof.
  destruct (run_from_star (notebook csv) (notebook csv) 0 s eq_refl) as [St F].
  split; [exact St|]. split; [exact F|]. intros c'. exact (finished_stuck _ _ c' F).
Qed.

(** The executable [run_all] is the small-step semantics of Run All:
    every finished configuration the steps reach from a state is the one
    [run_all] computes. *)
Theorem run_all_refines (csv : frame) (s : nb_state) (c : config) :
  star (nb_step (notebook csv)) (Running 0 s) c -> finished (notebook csv) c = true ->
  c = run_all (notebook csv) s.
Proof.
  intros Hs Hf. destruct (run_from_star (notebook csv) (notebook csv) 0 s eq_refl) as [St F].
  exact (star_finished_unique _ _ _ _ Hs Hf St F).
Qed.

End Notebook.

(** ** Runs on concrete tables *)

(** Four rows: the row at depth 10 is removed by the filter, the two rows
    without an uncertainty get the mean [3/200] of the present ones. *)
Definition nb_csv : frame :=
  [obs 20 (1 # 2) (1 # 100); mk_row (Some 10) (Some (1 # 2)) None [];
   obs 30 (6 # 10) (2 # 100); mk_row (Some 40) (Some (8 # 10)) None []].

Definition flat_ylim (ax : axes) : Q * Q := (0, 1).

Lemma notebook_completes_witness :
  exists s', run_all (notebook flat_ylim nb_csv) (nb_init ([] : stream_gen)) = Running 7 s'.
Proof.
  destruct (notebook_completes flat_ylim nb_csv []
              ltac:(vm_compute; intros Hq; discriminate Hq)
              ltac:(vm_compute; repeat (apply Forall_cons; [reflexivity|]); apply Forall_nil)
              ltac:(vm_compute; intros Hq; discriminate Hq))
    as (a0 & b0 & BA0 & W & sl & il & ml & s' & E & _).
  exists s'. exact E.
Defined.

(** A kept row with a negative uncertainty. *)
Definition nb_csv_negative : frame := [obs 20 (1 # 2) (-1 # 100)].

(** A table with no row kept: the second cell raises [TypeError]; a table
    with a negative uncertainty: it raises [ValueError]. *)
Lemma notebook_error_paths_witness :
  (exists s', run_all (notebook flat_ylim []) (nb_init ([] : stream_gen)) = Stopped 1 TypeError_empty s' /\
              out s' = [[VFrame []]]) /\
  (exists s', run_all (notebook flat_ylim nb_csv_negative) (nb_init ([] : stream_gen))
              = Stopped 1 ValueError_negative s').
Proof.
  split; [exact (proj1 (notebook_error_paths flat_ylim [] []) eq_refl)|].
  destruct (proj2 (proj2 (proj2 (proj2 (notebook_error_paths flat_ylim nb_csv_negative []))))
              ltac:(vm_compute; apply Exists_cons_hd; reflexivity)) as (s' & E & _).
  exists s'. exact E.
Defined.

(** The state after the first cell on [nb_csv]. *)
Definition nb_after_load : config :=
  match cell_load nb_csv (nb_init ([] : stream_gen)) with
  | Done _ _ s => Running 1 s
  | Raised _ e s => Stopped 0 e s
  end.

Lemma BA_agrees_with_polyfit_witness :
  star (nb_step (notebook flat_ylim nb_csv)) (Running 0 (nb_init ([] : stream_gen))) nb_after_load /\
  (BA (vars (cfg_state nb_after_load)) = [] \/
   qlist_eq (BA (vars (cfg_state nb_after_load)))
            [b (vars (cfg_state nb_after_load)); a (vars (cfg_state nb_after_load))]).
Proof.
  assert (Hs : star (nb_step (notebook flat_ylim nb_csv)) (Running 0 (nb_init ([] : stream_gen)))
                    nb_after_load).
  { apply star_one. apply (step_done _ 0 _ (cell_load nb_csv)); reflexivity. }
  split; [exact Hs|]. exact (proj2 (BA_agrees_with_polyfit flat_ylim nb_csv [] nb_after_load Hs)).
Defined.

(** Run All on the empty table stops in the second cell. *)
Definition nb_empty_stop : config :=
  match cell_load [] (nb_init ([] : stream_gen)) with
  | Done _ _ s1 =>
      match cell_fig1 s1 with Done _ _ s2 => Running 2 s2 | Raised _ e s2 => Stopped 1 e s2 end
  | Raised _ e s1 => Stopped 0 e s1
  end.

Lemma run_all_refines_witness :
  nb_empty_stop = run_all (notebook flat_ylim []) (nb_init ([] : stream_gen)).
Proof.
  apply run_all_refines; [|reflexivity].
  eapply star_step; [apply (step_done _ 0 _ (cell_load [])); reflexivity|].
  apply star_one. eapply (step_raise _ 1 _ cell_fig1); reflexivity.
Defined.

(** ** The histograms under matplotlib's autoscaling *)

Section Autoscaled.
Context {G : Type} `{BitGenerator G}.

(** C15: with [get_ylim] the autoscaled limits of matplotlib, the last
    cell (lines 189-202) saves the histogram figure with every reference
    line running from [0] to [21/20] of the highest bar of its panel, so
    that each bar of [np.histogram(slopes)] and [np.histogram(intercepts)]
    ends strictly below the top of the lines. *)
Theorem histogram_lines_span_bars (s : @nb_state G) (BA1 BA0 : Q) :
  nth_error (BA (vars s)) 1 = Some BA1 -> nth_error (BA (vars s)) 0 = Some BA0 ->
  slopes (vars s) <> [] -> intercepts (vars s) <> [] ->
  let sl := slopes (vars s) in
  let il := intercepts (vars s) in
  exists (s' : @nb_state G) (yl0 yl1 : Q * Q), cell_hist mpl_get_ylim s = Done _ tt s' /\
    files (plt s') = files (plt s) ++
      [("Browne_et_al_2023_histograms.svg"%string,
        fig4_drawn sl il (a (vars s)) (b (vars s)) BA1 BA0 yl0 yl1)] /\
    Qmin (fst yl0) (snd yl0) == 0 /\
    Qmax (fst yl0) (snd yl0) == (21 # 20) * inject_Z (Z.of_nat (list_max (fst (np_histogram sl hist_bins)))) /\
    (forall c, In c (fst (np_histogram sl hist_bins)) -> inject_Z (Z.of_nat c) < Qmax (fst yl0) (snd yl0)) /\
    Qmin (fst yl1) (snd yl1) == 0 /\
    Qmax (fst yl1) (snd yl1) == (21 # 20) * inject_Z (Z.of_nat (list_max (fst (np_histogram il hist_bins)))) /\
    (forall c, In c (fst (np_histogram il hist_bins)) -> inject_Z (Z.of_nat c) < Qmax (fst yl1) (snd yl1)).
Proof.
  intros E1 E0 Hs Hi sl il.
  destruct (cell_hist_done mpl_get_ylim s BA1 BA0 E1 E0) as (p & Ec & _ & Hf).
  eexists _, _, _. split; [exact Ec|]. split; [exact Hf|].
  destruct (hist_ylim_bars sl "peru"%string Hs) as (L0 & U0 & B0).
  destruct (hist_ylim_bars il "mediumslateblue"%string Hi) as (L1 & U1 & B1).
  repeat split; assumption.
Qed.

End Autoscaled.

(** Two slopes and two intercepts, and the fit [BA = [0; 1]]. *)
Definition hist_state : @nb_state stream_gen :=
  mk_nb (set_mc [1; 2] [0; 3] [] (set_BA [0; 1] globals_init)) ([] : stream_gen) pyplot_init [].

Lemma histogram_lines_span_bars_witness :
  exists (s' : @nb_state stream_gen) (yl0 yl1 : Q * Q), cell_hist mpl_get_ylim hist_state = Done _ tt s' /\
    Qmin (fst yl0) (snd yl0) == 0 /\ Qmax (fst yl0) (snd yl0) == 21 # 20 /\
    Qmin (fst yl1) (snd yl1) == 0 /\ Qmax (fst yl1) (snd yl1) == 21 # 20.
Proof.
  destruct (histogram_lines_span_bars hist_state 1 0 eq_refl eq_refl
              ltac:(discriminate) ltac:(discriminate))
    as (s' & yl0 & yl1 & E & _ & L0 & U0 & _ & L1 & U1 & _).
  exists s', yl0, yl1. split; [exact E|]. split; [exact L0|]. split; [rewrite U0; reflexivity|].
  split; [exact L1|rewrite U1; reflexivity].
Defined.
